(** * taskflow-api: the run orchestrator, its repository and its event broker

    A shallow embedding of the Python sources

      - [db/models.py], [db/repo.py]                      (enums, Repository)
      - [orchestration/events/broker.py]                  (EventBroker)
      - [core/llm/router.py], [core/llm/cost.py]          (ModelRouter, CostEstimator)
      - [orchestration/planner/service.py]                (PlannerService)
      - [orchestration/executor/service.py]               (ExecutorService)
      - [orchestration/monitor/service.py]                (MonitorService)
      - [orchestration/reflection/service.py]             (ReflectionService)
      - [orchestration/runtime.py]                        (TaskflowOrchestrator)

    Conventions of the embedding.

      - A Python class becomes a [Module] of the same name, a method a
        function of the same name.  The objects a service holds ([self._repo],
        [self._settings], ...) are passed explicitly.
      - The store, the broker, the clock and the uuid source form one [World]
        that is threaded through every effectful function.
      - Dictionaries with a fixed set of keys are records; a key that may be
        absent is an [option] field and [d.get(k, default)] is [default] on
        [None].  Dictionaries used as maps are [gmap]s.
      - A table with a uniqueness constraint is a [gmap] keyed by the unique
        columns: [runs] by [id], [steps] by [(run_id, node_id)].
      - A node of the DAG is a mutable dict that lives in [dag.nodes]; a
        mutation [node[k] = v] of the node picked by the executor is an update
        of the list at the position of that node.
      - What a provider call does (it answers or raises, after some time) is
        given by the provider, a function of the call number.
      - [usd] amounts are integers in units of 1e-8 dollar, the precision
        [CostEstimator.estimate] rounds to; clock readings are milliseconds. *)

From stdpp Require Import gmap strings list fin_maps pretty sorting.
From Stdlib Require Import ZArith Lia.

Open Scope Z_scope.

(** ** Python helpers *)

(** [x or d] on an optional string: [None] and the empty string are falsy. *)
Definition py_or (x : option string) (d : string) : string :=
  match x with
  | Some s => if decide (s = "") then d else s
  | None => d
  end.

(** [d.get(k, default)] for an optional key. *)
Definition get_default {A} (x : option A) (d : A) : A :=
  match x with Some a => a | None => d end.

(** ** db/models.py *)

Inductive RunStatus := CREATED | RUNNING | COMPLETED | FAILED | CANCELED.

Inductive StepStatus :=
  | PENDING | STEP_RUNNING | STEP_COMPLETED | STEP_FAILED | SKIPPED | STEP_CANCELED.

Inductive FailureCode :=
  | TIMEOUT | BUDGET_EXCEEDED | SCHEMA_ERROR | TOOL_NOT_ALLOWED
  | EXECUTION_ERROR | FC_CANCELED | MAX_STEPS_EXCEEDED.

Inductive ReflectionAction := REPLANNED | ADJUSTED_PARAMETERS | TERMINATED.

#[global] Instance RunStatus_eq_dec : EqDecision RunStatus.
Proof. solve_decision. Defined.
#[global] Instance StepStatus_eq_dec : EqDecision StepStatus.
Proof. solve_decision. Defined.
#[global] Instance FailureCode_eq_dec : EqDecision FailureCode.
Proof. solve_decision. Defined.
#[global] Instance ReflectionAction_eq_dec : EqDecision ReflectionAction.
Proof. solve_decision. Defined.

(** The [.value] of each enum member. *)
Definition RunStatus_value (s : RunStatus) : string :=
  match s with
  | CREATED => "created" | RUNNING => "running" | COMPLETED => "completed"
  | FAILED => "failed" | CANCELED => "canceled"
  end.

Definition StepStatus_value (s : StepStatus) : string :=
  match s with
  | PENDING => "pending" | STEP_RUNNING => "running"
  | STEP_COMPLETED => "completed" | STEP_FAILED => "failed"
  | SKIPPED => "skipped" | STEP_CANCELED => "canceled"
  end.

Definition FailureCode_value (c : FailureCode) : string :=
  match c with
  | TIMEOUT => "timeout" | BUDGET_EXCEEDED => "budget_exceeded"
  | SCHEMA_ERROR => "schema_error" | TOOL_NOT_ALLOWED => "tool_not_allowed"
  | EXECUTION_ERROR => "execution_error" | FC_CANCELED => "canceled"
  | MAX_STEPS_EXCEEDED => "max_steps_exceeded"
  end.

Definition ReflectionAction_value (a : ReflectionAction) : string :=
  match a with
  | REPLANNED => "replanned" | ADJUSTED_PARAMETERS => "adjusted_parameters"
  | TERMINATED => "terminated"
  end.

(** ** JSON-shaped values *)

(** The [details] dict of a structured error, one constructor per shape the
    sources build. *)
Inductive ErrorDetails :=
  | DEmpty
  | DAllowedTools (allowed_tools : list string)
  | DTimeout (timeout_s : Z) (raw_error : string)
  | DValidationError (validation_error : string)
  | DRawError (raw_error : string)
  | DUpstream (upstream : list string).

Record StructuredError := {
  err_code : string;
  err_message : string;
  err_details : ErrorDetails;
}.

(** The validated step output [{summary, confidence, artifacts}]; the
    confidence is kept in hundredths (85 for 0.85, 70 for 0.7). *)
Record StepOutput := {
  out_summary : string;
  out_confidence : Z;
  out_model : string;
  out_provider : string;
  out_node_id : string;
}.

Record CostPayload := {
  cp_provider : string;
  cp_model : string;
  cp_prompt_tokens : Z;
  cp_completion_tokens : Z;
  cp_total_tokens : Z;
  cp_usd : Z;
}.

(** ** The DAG snapshot *)

Record Node := {
  node_id : string;
  node_name : string;
  node_description : string;
  node_depends_on : list string;
  node_status : StepStatus;
  node_last_output : option StepOutput;
  node_last_error : option StructuredError;
}.

Definition node_set_status (s : StepStatus) (n : Node) : Node :=
  {| node_id := node_id n; node_name := node_name n;
     node_description := node_description n;
     node_depends_on := node_depends_on n; node_status := s;
     node_last_output := node_last_output n;
     node_last_error := node_last_error n |}.

Definition node_set_last_output (o : option StepOutput) (n : Node) : Node :=
  {| node_id := node_id n; node_name := node_name n;
     node_description := node_description n;
     node_depends_on := node_depends_on n; node_status := node_status n;
     node_last_output := o; node_last_error := node_last_error n |}.

Definition node_set_last_error (e : option StructuredError) (n : Node) : Node :=
  {| node_id := node_id n; node_name := node_name n;
     node_description := node_description n;
     node_depends_on := node_depends_on n; node_status := node_status n;
     node_last_output := node_last_output n; node_last_error := e |}.

Record Edge := { edge_source : string; edge_target : string }.

(** A contract dict; every key may be absent. *)
Record Contract := {
  c_allowed_tools : option (list string);
  c_timeout_s : option Z;
  c_max_retries : option Z;
  c_model_preference : option string;
}.

(** The [{}] that [contracts.get(node_id, {})] falls back to. *)
Definition empty_contract : Contract :=
  {| c_allowed_tools := None; c_timeout_s := None;
     c_max_retries := None; c_model_preference := None |}.

(** [dag.get("nodes", [])] is [dag_nodes]: an absent key and an empty list are
    both []. *)
Record Dag := {
  dag_nodes : list Node;
  dag_edges : list Edge;
  dag_contracts : gmap string Contract;
  dag_planner_notes : option string;
}.

Definition empty_dag : Dag :=
  {| dag_nodes := []; dag_edges := []; dag_contracts := ∅;
     dag_planner_notes := None |}.

Definition dag_set_nodes (ns : list Node) (d : Dag) : Dag :=
  {| dag_nodes := ns; dag_edges := dag_edges d;
     dag_contracts := dag_contracts d;
     dag_planner_notes := dag_planner_notes d |}.

(** [node[k] = v] for the node object at position [i] of [dag.nodes]. *)
Definition dag_update_node (i : nat) (f : Node → Node) (d : Dag) : Dag :=
  dag_set_nodes (alter f i (dag_nodes d)) d.

(** [{node["id"]: node for node in nodes}]: a later node with the same id
    replaces an earlier one. *)
Definition node_map (nodes : list Node) : gmap string Node :=
  foldl (λ m n, <[node_id n := n]> m) ∅ nodes.

(** [node_map.get(dep, {}).get("status") == "completed"] *)
Definition dep_completed (m : gmap string Node) (dep : string) : bool :=
  match m !! dep with
  | Some n => bool_decide (node_status n = STEP_COMPLETED)
  | None => false
  end.

(** ** Events *)

Record Diagnostic := {
  diag_reason : string;
  diag_failure_mode : string;
  diag_action_taken : string;
}.

Inductive Payload :=
  | PRunCreated (task : string) (template_id : option string) (request_id : string)
  | PRunStarted (request_id : string) (started_at : Z)
  | PPlanningStarted (task : string) (template_id : option string)
  | PPlanningFinished (node_count edge_count : nat) (model : string)
  | PStepStarted (node : string) (attempt : Z)
  | PStepFinished (node : string) (cost : CostPayload)
  | PStepRetryScheduled (node : string) (attempt max_retries backoff_s : Z)
      (error : StructuredError)
  | PStepFailed (node : string) (error : StructuredError)
  | PReplanned (reason failure_mode : string)
  | PReflection (diagnostic : Diagnostic)
  | PCancelRequested (request_id : string)
  | PRunRetryRequested (step_id : option string) (request_id : string)
  | PRunFinished (status : RunStatus) (reason : string).

Record Event := {
  ev_id : string;
  ev_run_id : string;
  ev_step_id : option string;
  ev_event_type : string;
  ev_payload : Payload;
  ev_created_at : Z;
}.

(** ** orchestration/events/broker.py *)

Module Queue.

(** An [asyncio.Queue]: [maxsize] and the buffered items, oldest first. *)
Record t := { maxsize : nat; items : list Event }.

Definition make (n : nat) : t := {| maxsize := n; items := [] |}.

(** [Queue.full()]: a queue with [maxsize <= 0] is never full. *)
Definition full (q : t) : bool :=
  bool_decide (0 < maxsize q)%nat && bool_decide (maxsize q ≤ length (items q))%nat.

(** [get_nowait()]: [None] stands for [QueueEmpty]. *)
Definition get_nowait (q : t) : option (Event * t) :=
  match items q with
  | [] => None
  | e :: rest => Some (e, {| maxsize := maxsize q; items := rest |})
  end.

(** [put_nowait(item)]: [None] stands for [QueueFull]. *)
Definition put_nowait (e : Event) (q : t) : option t :=
  if full q then None
  else Some {| maxsize := maxsize q; items := items q ++ [e] |}.

End Queue.

Module EventBroker.

(** [_subscribers]: run id to the set of its queues; a queue object is named
    by a handle. *)
Record t := {
  subscribers : gmap string (gmap nat Queue.t);
  next_handle : nat;
}.

Definition init : t := {| subscribers := ∅; next_handle := 0 |}.

(** The body of the [for queue in subscribers] loop of [publish]. *)
Definition publish_queue (event : Event) (q : Queue.t) : Queue.t :=
  let q1 :=
    if Queue.full q then
      match Queue.get_nowait q with
      | Some (_, q') => q'
      | None => q
      end
    else q in
  match Queue.put_nowait event q1 with
  | Some q2 => q2
  | None => q1
  end.

Definition publish (event : Event) (b : t) : t :=
  match subscribers b !! ev_run_id event with
  | Some qs =>
      {| subscribers :=
           <[ev_run_id event := publish_queue event <$> qs]> (subscribers b);
         next_handle := next_handle b |}
  | None => b
  end.

(** The part of [subscribe] before the first [await queue.get()]: a queue of
    capacity 256 is created and added to the set of the run. *)
Definition subscribe (run_id : string) (b : t) : nat * t :=
  let h := next_handle b in
  let qs := default ∅ (subscribers b !! run_id) in
  (h, {| subscribers := <[run_id := <[h := Queue.make 256]> qs]> (subscribers b);
         next_handle := S h |}).

(** One [await queue.get()] of a subscriber that finds an event. *)
Definition next_event (run_id : string) (h : nat) (b : t) : option (Event * t) :=
  qs ← subscribers b !! run_id;
  q ← qs !! h;
  '(e, q') ← Queue.get_nowait q;
  Some (e, {| subscribers := <[run_id := <[h := q']> qs]> (subscribers b);
              next_handle := next_handle b |}).

(** The [finally] block of [subscribe]. *)
Definition unsubscribe (run_id : string) (h : nat) (b : t) : t :=
  {| subscribers :=
       <[run_id := delete h (default ∅ (subscribers b !! run_id))]> (subscribers b);
     next_handle := next_handle b |}.

End EventBroker.

(** ** core/settings.py *)

(** The settings the modelled code reads.  Rates are in units of 1e-8 dollar
    per 1000 tokens. *)
Record Settings := {
  llm_cheap_model : string;
  llm_default_model : string;
  llm_expensive_model : string;
  llm_cheap_prompt_per_1k : Z;
  llm_cheap_completion_per_1k : Z;
  llm_default_prompt_per_1k : Z;
  llm_default_completion_per_1k : Z;
  llm_expensive_prompt_per_1k : Z;
  llm_expensive_completion_per_1k : Z;
  default_run_budget_usd : Z;
  default_run_timeout_s : Z;
  default_run_max_steps : Z;
  default_reflection_interval_steps : Z;
  cost_ledger_app : string;
}.

(** The field defaults of [class Settings]. *)
Definition default_settings : Settings :=
  {| llm_cheap_model := "mock-cheap";
     llm_default_model := "mock-default";
     llm_expensive_model := "mock-expensive";
     llm_cheap_prompt_per_1k := 10000;
     llm_cheap_completion_per_1k := 20000;
     llm_default_prompt_per_1k := 50000;
     llm_default_completion_per_1k := 100000;
     llm_expensive_prompt_per_1k := 200000;
     llm_expensive_completion_per_1k := 400000;
     default_run_budget_usd := 200000000;
     default_run_timeout_s := 300;
     default_run_max_steps := 30;
     default_reflection_interval_steps := 2;
     cost_ledger_app := "taskflow-api" |}.

(** ** core/llm/router.py *)

Inductive WorkloadType := PLANNER | EXECUTOR | REFLECTION | SYNTHESIS.

Module ModelRouter.

Definition for_workload (settings : Settings) (workload : WorkloadType) : string :=
  match workload with
  | PLANNER => llm_cheap_model settings
  | REFLECTION | SYNTHESIS => llm_expensive_model settings
  | EXECUTOR => llm_default_model settings
  end.

Definition for_step (settings : Settings) (model_preference : string)
    (fallback_workload : WorkloadType) : string :=
  if decide (model_preference = "cheap") then llm_cheap_model settings
  else if decide (model_preference = "expensive") then llm_expensive_model settings
  else if decide (model_preference = "default") then llm_default_model settings
  else for_workload settings fallback_workload.

End ModelRouter.

(** ** core/llm/cost.py *)

Record CostEstimate := {
  ce_prompt_tokens : Z;
  ce_completion_tokens : Z;
  ce_total_tokens : Z;
  ce_usd : Z;
}.

(** [a / b] rounded to the nearest integer, ties to even, for [0 < b]. *)
Definition round_half_even (a b : Z) : Z :=
  let q := a / b in
  let r := a mod b in
  if 2 * r <? b then q
  else if b <? 2 * r then q + 1
  else if Z.even q then q else q + 1.

Module CostEstimator.

Definition _rates_for_model (settings : Settings) (model : string) : Z * Z :=
  if decide (model = llm_cheap_model settings) then
    (llm_cheap_prompt_per_1k settings, llm_cheap_completion_per_1k settings)
  else if decide (model = llm_expensive_model settings) then
    (llm_expensive_prompt_per_1k settings, llm_expensive_completion_per_1k settings)
  else
    (llm_default_prompt_per_1k settings, llm_default_completion_per_1k settings).

(** [usd = round(p/1000 * prompt_rate + c/1000 * completion_rate, 8)], over
    exact decimals. *)
Definition estimate (settings : Settings) (model : string)
    (prompt_tokens completion_tokens : Z) : CostEstimate :=
  let '(prompt_rate, completion_rate) := _rates_for_model settings model in
  let usd := prompt_tokens * prompt_rate + completion_tokens * completion_rate in
  {| ce_prompt_tokens := prompt_tokens;
     ce_completion_tokens := completion_tokens;
     ce_total_tokens := prompt_tokens + completion_tokens;
     ce_usd := round_half_even usd 1000 |}.

End CostEstimator.

(** ** core/llm/provider.py *)

Record LLMCallResult := {
  llm_provider : string;
  llm_model : string;
  llm_content : string;
  llm_prompt_tokens : Z;
  llm_completion_tokens : Z;
}.

(** What one [generate] call does: it returns a result or raises, after some
    milliseconds. *)
Inductive ProviderBehaviour :=
  | Responds (result : LLMCallResult) (after_ms : Z)
  | Raises (message : string) (after_ms : Z).

(** A provider: the behaviour of its n-th call when asked for a model. *)
Definition LLMProvider := nat → string → ProviderBehaviour.

(** ** The rows of the store *)

(** [constraints_json]: every key may be absent. *)
Record ConstraintsJson := {
  cj_budget_usd : option Z;
  cj_timeout_s : option Z;
  cj_max_steps : option Z;
  cj_reflection_interval_steps : option Z;
}.

(** A row of [runs], without its primary key. *)
Record Run := {
  run_task : string;
  run_template_id : option string;
  run_status : RunStatus;
  run_constraints : ConstraintsJson;
  run_dag : Dag;
  run_diagnostics : list Diagnostic;
  run_created_at : Z;
  run_started_at : option Z;
  run_ended_at : option Z;
  total_prompt_tokens : Z;
  total_completion_tokens : Z;
  total_tokens : Z;
  total_usd : Z;
  cancel_requested : bool;
  run_metadata : option string;
}.

(** The [input] snapshot of a step. *)
Record StepInput := {
  in_task : string;
  in_node : Node;
  in_request_id : option string;
}.

(** The dict [upsert_step] takes and [_decode_step] returns. *)
Record Step := {
  step_id : string;
  step_run_id : string;
  step_node_id : string;
  step_status : StepStatus;
  step_attempts : Z;
  step_max_retries : Z;
  step_started_at : option Z;
  step_ended_at : option Z;
  step_input : StepInput;
  step_output : option StepOutput;
  step_error : option StructuredError;
  step_cost : option CostPayload;
  step_logs : list string;
}.

(** A row of [steps] without the columns of its unique key
    [(run_id, node_id)]. *)
Record StepRow := {
  row_id : string;
  row_status : StepStatus;
  row_attempts : Z;
  row_max_retries : Z;
  row_started_at : option Z;
  row_ended_at : option Z;
  row_input : StepInput;
  row_output : option StepOutput;
  row_error : option StructuredError;
  row_cost : option CostPayload;
  row_logs : list string;
}.

Definition step_row (s : Step) : StepRow :=
  {| row_id := step_id s; row_status := step_status s;
     row_attempts := step_attempts s; row_max_retries := step_max_retries s;
     row_started_at := step_started_at s; row_ended_at := step_ended_at s;
     row_input := step_input s; row_output := step_output s;
     row_error := step_error s; row_cost := step_cost s;
     row_logs := step_logs s |}.

Definition _decode_step (key : string * string) (r : StepRow) : Step :=
  {| step_id := row_id r; step_run_id := key.1; step_node_id := key.2;
     step_status := row_status r; step_attempts := row_attempts r;
     step_max_retries := row_max_retries r;
     step_started_at := row_started_at r; step_ended_at := row_ended_at r;
     step_input := row_input r; step_output := row_output r;
     step_error := row_error r; step_cost := row_cost r;
     step_logs := row_logs r |}.

Record CostMetadata := {
  cm_phase : string;
  cm_node_id : option string;
  cm_attempt : option Z;
  cm_request_id : string;
}.

Record CostEntry := {
  cost_id : string;
  cost_run_id : string;
  cost_step_id : option string;
  cost_app : string;
  cost_provider : string;
  cost_model : string;
  cost_prompt_tokens : Z;
  cost_completion_tokens : Z;
  cost_total_tokens : Z;
  cost_usd : Z;
  cost_metadata : CostMetadata;
  cost_created_at : Z;
}.

(** A row of [workflow_templates], without its primary key. *)
Record Template := {
  tpl_name : string;
  tpl_version : string;
  tpl_description : string;
  tpl_graph_nodes : list Node;
  tpl_graph_edges : list Edge;
  tpl_contracts : gmap string Contract;
  tpl_created_at : Z;
  tpl_updated_at : Z;
}.

(** ** The world: store, broker, clock, uuid source, provider call counter *)

Record World := {
  templates : gmap string Template;
  runs : gmap string Run;
  steps : gmap (string * string) StepRow;
  events : list Event;
  cost_ledger : list CostEntry;
  broker : EventBroker.t;
  now : Z;
  next_uuid : nat;
  llm_calls : nat;
}.

Definition empty_world : World :=
  {| templates := ∅; runs := ∅; steps := ∅; events := []; cost_ledger := [];
     broker := EventBroker.init; now := 0; next_uuid := 0; llm_calls := 0 |}.

Definition set_templates (x : gmap string Template) (w : World) : World :=
  {| templates := x; runs := runs w; steps := steps w; events := events w;
     cost_ledger := cost_ledger w; broker := broker w; now := now w;
     next_uuid := next_uuid w; llm_calls := llm_calls w |}.

Definition set_runs (x : gmap string Run) (w : World) : World :=
  {| templates := templates w; runs := x; steps := steps w; events := events w;
     cost_ledger := cost_ledger w; broker := broker w; now := now w;
     next_uuid := next_uuid w; llm_calls := llm_calls w |}.

Definition set_steps (x : gmap (string * string) StepRow) (w : World) : World :=
  {| templates := templates w; runs := runs w; steps := x; events := events w;
     cost_ledger := cost_ledger w; broker := broker w; now := now w;
     next_uuid := next_uuid w; llm_calls := llm_calls w |}.

Definition set_events (x : list Event) (w : World) : World :=
  {| templates := templates w; runs := runs w; steps := steps w; events := x;
     cost_ledger := cost_ledger w; broker := broker w; now := now w;
     next_uuid := next_uuid w; llm_calls := llm_calls w |}.

Definition set_cost_ledger (x : list CostEntry) (w : World) : World :=
  {| templates := templates w; runs := runs w; steps := steps w;
     events := events w; cost_ledger := x; broker := broker w; now := now w;
     next_uuid := next_uuid w; llm_calls := llm_calls w |}.

Definition set_broker (x : EventBroker.t) (w : World) : World :=
  {| templates := templates w; runs := runs w; steps := steps w;
     events := events w; cost_ledger := cost_ledger w; broker := x;
     now := now w; next_uuid := next_uuid w; llm_calls := llm_calls w |}.

(** The clock moves forward by [ms] milliseconds. *)
Definition advance (ms : Z) (w : World) : World :=
  {| templates := templates w; runs := runs w; steps := steps w;
     events := events w; cost_ledger := cost_ledger w; broker := broker w;
     now := now w + Z.max 0 ms; next_uuid := next_uuid w;
     llm_calls := llm_calls w |}.

(** [str(uuid.uuid4())]: a fresh identifier. *)
Definition uuid4 (w : World) : string * World :=
  ("uuid-" +:+ pretty (next_uuid w),
   {| templates := templates w; runs := runs w; steps := steps w;
      events := events w; cost_ledger := cost_ledger w; broker := broker w;
      now := now w; next_uuid := S (next_uuid w); llm_calls := llm_calls w |}).

(** One more [generate] call was made. *)
Definition count_llm_call (w : World) : World :=
  {| templates := templates w; runs := runs w; steps := steps w;
     events := events w; cost_ledger := cost_ledger w; broker := broker w;
     now := now w; next_uuid := next_uuid w; llm_calls := S (llm_calls w) |}.

(** [utc_now_iso()] and [time.monotonic()] *)
Definition utc_now_iso (w : World) : Z := now w.

(** ** db/repo.py *)

(** The keyword arguments the callers of [update_run] pass; an absent
    argument is [None]. *)
Record RunPatch := {
  p_status : option RunStatus;
  p_started_at : option (option Z);
  p_ended_at : option (option Z);
  p_cancel_requested : option bool;
  p_dag : option Dag;
  p_diagnostics : option (list Diagnostic);
}.

Definition no_patch : RunPatch :=
  {| p_status := None; p_started_at := None; p_ended_at := None;
     p_cancel_requested := None; p_dag := None; p_diagnostics := None |}.

Definition patch_dag (d : Dag) : RunPatch :=
  {| p_status := None; p_started_at := None; p_ended_at := None;
     p_cancel_requested := None; p_dag := Some d; p_diagnostics := None |}.

Definition apply_patch (p : RunPatch) (r : Run) : Run :=
  {| run_task := run_task r;
     run_template_id := run_template_id r;
     run_status := get_default (p_status p) (run_status r);
     run_constraints := run_constraints r;
     run_dag := get_default (p_dag p) (run_dag r);
     run_diagnostics := get_default (p_diagnostics p) (run_diagnostics r);
     run_created_at := run_created_at r;
     run_started_at := get_default (p_started_at p) (run_started_at r);
     run_ended_at := get_default (p_ended_at p) (run_ended_at r);
     total_prompt_tokens := total_prompt_tokens r;
     total_completion_tokens := total_completion_tokens r;
     total_tokens := total_tokens r;
     total_usd := total_usd r;
     cancel_requested := get_default (p_cancel_requested p) (cancel_requested r);
     run_metadata := run_metadata r |}.

(** [ORDER BY started_at]: NULL sorts first. *)
Definition started_le (a b : Step) : Prop :=
  match step_started_at a, step_started_at b with
  | None, _ => True
  | Some _, None => False
  | Some x, Some y => x ≤ y
  end.

#[global] Instance started_le_dec : RelDecision started_le.
Proof.
  intros a b. unfold started_le.
  destruct (step_started_at a), (step_started_at b); apply _.
Defined.

(** [ORDER BY updated_at DESC] on templates. *)
Definition updated_ge (a b : string * Template) : Prop :=
  tpl_updated_at b.2 ≤ tpl_updated_at a.2.

#[global] Instance updated_ge_dec : RelDecision updated_ge.
Proof. intros a b. unfold updated_ge. apply _. Defined.

(** The order of strings, character by character: the one [sorted] puts node
    ids in, and the one of a text column. *)
Definition string_le (a b : string) : Prop := String.leb a b = true.

#[global] Instance string_le_dec : RelDecision string_le.
Proof. intros a b. unfold string_le. apply _. Defined.

(** [ORDER BY created_at, id] on events: by date, and by id among the events
    of one date. *)
Definition event_le (a b : Event) : Prop :=
  ev_created_at a < ev_created_at b
  ∨ (ev_created_at a = ev_created_at b ∧ string_le (ev_id a) (ev_id b)).

#[global] Instance event_le_dec : RelDecision event_le.
Proof. intros a b. unfold event_le. apply _. Defined.

Module Repository.

(** *** Workflows *)

(** [INSERT ... ON CONFLICT(id) DO UPDATE]: [created_at] is kept on a
    conflict. *)
Definition upsert_workflow_template (id : string) (payload : Template)
    (w : World) : World :=
  let now := utc_now_iso w in
  let created :=
    match templates w !! id with
    | Some old => tpl_created_at old
    | None => now
    end in
  set_templates
    (<[id := {| tpl_name := tpl_name payload;
                tpl_version := tpl_version payload;
                tpl_description := tpl_description payload;
                tpl_graph_nodes := tpl_graph_nodes payload;
                tpl_graph_edges := tpl_graph_edges payload;
                tpl_contracts := tpl_contracts payload;
                tpl_created_at := created;
                tpl_updated_at := now |}]> (templates w)) w.

Definition list_workflow_templates (w : World) : list (string * Template) :=
  merge_sort updated_ge (map_to_list (templates w)).

Definition get_workflow_template (template_id : string) (w : World)
    : option Template :=
  templates w !! template_id.

(** *** Runs *)

(** The columns not named by the INSERT take their SQL defaults: the four
    totals and [cancel_requested] are 0, the rest NULL.  An INSERT with an
    id that exists violates the primary key and changes nothing. *)
Definition create_run (run_id task : string) (template_id : option string)
    (constraints : ConstraintsJson) (metadata : option string)
    (w : World) : World :=
  match runs w !! run_id with
  | Some _ => w
  | None =>
      set_runs
        (<[run_id := {| run_task := task;
                        run_template_id := template_id;
                        run_status := CREATED;
                        run_constraints := constraints;
                        run_dag := empty_dag;
                        run_diagnostics := [];
                        run_created_at := utc_now_iso w;
                        run_started_at := None;
                        run_ended_at := None;
                        total_prompt_tokens := 0;
                        total_completion_tokens := 0;
                        total_tokens := 0;
                        total_usd := 0;
                        cancel_requested := false;
                        run_metadata := metadata |}]> (runs w)) w
  end.

Definition get_run (run_id : string) (w : World) : option Run :=
  runs w !! run_id.

Definition list_incomplete_runs (w : World) : list (string * Run) :=
  filter (λ kr, run_status kr.2 = CREATED ∨ run_status kr.2 = RUNNING)
         (map_to_list (runs w)).

(** [UPDATE runs SET ... WHERE id = ?] *)
Definition update_run (run_id : string) (fields : RunPatch) (w : World) : World :=
  set_runs (alter (apply_patch fields) run_id (runs w)) w.

Definition request_cancel_run (run_id : string) (w : World) : World :=
  update_run run_id
    {| p_status := None; p_started_at := None; p_ended_at := None;
       p_cancel_requested := Some true; p_dag := None; p_diagnostics := None |} w.

Definition clear_cancel_request (run_id : string) (w : World) : World :=
  update_run run_id
    {| p_status := None; p_started_at := None; p_ended_at := None;
       p_cancel_requested := Some false; p_dag := None; p_diagnostics := None |} w.

Definition add_totals (prompt_tokens completion_tokens total usd : Z)
    (r : Run) : Run :=
  {| run_task := run_task r;
     run_template_id := run_template_id r;
     run_status := run_status r;
     run_constraints := run_constraints r;
     run_dag := run_dag r;
     run_diagnostics := run_diagnostics r;
     run_created_at := run_created_at r;
     run_started_at := run_started_at r;
     run_ended_at := run_ended_at r;
     total_prompt_tokens := total_prompt_tokens r + prompt_tokens;
     total_completion_tokens := total_completion_tokens r + completion_tokens;
     total_tokens := total_tokens r + total;
     total_usd := total_usd r + usd;
     cancel_requested := cancel_requested r;
     run_metadata := run_metadata r |}.

(** One UPDATE statement adds the four deltas. *)
Definition increment_run_totals (run_id : string)
    (prompt_tokens completion_tokens total usd : Z) (w : World) : World :=
  set_runs
    (alter (add_totals prompt_tokens completion_tokens total usd) run_id (runs w)) w.

Definition append_run_diagnostic (run_id : string) (diagnostic : Diagnostic)
    (w : World) : World :=
  match get_run run_id w with
  | None => w
  | Some run =>
      update_run run_id
        {| p_status := None; p_started_at := None; p_ended_at := None;
           p_cancel_requested := None; p_dag := None;
           p_diagnostics := Some (run_diagnostics run ++ [diagnostic]) |} w
  end.

(** *** Steps *)

(** [INSERT ... ON CONFLICT(run_id, node_id) DO UPDATE]: the row of the key
    is written whole.  The callers pass a fresh id or the id of the row that
    has the same key, so the primary key on [id] never fires. *)
Definition upsert_step (payload : Step) (w : World) : World :=
  let '(id, w1) :=
    if decide (step_id payload = "") then uuid4 w else (step_id payload, w) in
  let row :=
    {| row_id := id; row_status := step_status payload;
       row_attempts := step_attempts payload;
       row_max_retries := step_max_retries payload;
       row_started_at := step_started_at payload;
       row_ended_at := step_ended_at payload;
       row_input := step_input payload; row_output := step_output payload;
       row_error := step_error payload; row_cost := step_cost payload;
       row_logs := step_logs payload |} in
  set_steps (<[(step_run_id payload, step_node_id payload) := row]> (steps w1)) w1.

Definition all_steps (w : World) : list Step :=
  (λ kr, _decode_step kr.1 kr.2) <$> map_to_list (steps w).

Definition get_step (step_id_ : string) (w : World) : option Step :=
  head (filter (λ s, step_id s = step_id_) (all_steps w)).

Definition get_step_by_node (run_id node : string) (w : World) : option Step :=
  _decode_step (run_id, node) <$> steps w !! (run_id, node).

Definition list_steps (run_id : string) (w : World) : list Step :=
  merge_sort started_le (filter (λ s, step_run_id s = run_id) (all_steps w)).

(** The SET clause of [reset_step]. *)
Definition reset_row (r : StepRow) : StepRow :=
  {| row_id := row_id r; row_status := PENDING; row_attempts := 0;
     row_max_retries := row_max_retries r;
     row_started_at := None; row_ended_at := None;
     row_input := row_input r; row_output := None; row_error := None;
     row_cost := None; row_logs := row_logs r |}.

(** The SET clause of [reset_failed_steps]: [attempts] is not among the
    columns it assigns. *)
Definition reset_failed_row (r : StepRow) : StepRow :=
  {| row_id := row_id r; row_status := PENDING;
     row_attempts := row_attempts r;
     row_max_retries := row_max_retries r;
     row_started_at := None; row_ended_at := None;
     row_input := row_input r; row_output := None; row_error := None;
     row_cost := None; row_logs := row_logs r |}.

(** [UPDATE steps SET ... WHERE run_id=? AND id=?]; the result is
    [cur.rowcount > 0]. *)
Definition reset_step (run_id step_id_ : string) (w : World) : bool * World :=
  let hit (k : string * string) (r : StepRow) : bool :=
    bool_decide (k.1 = run_id) && bool_decide (row_id r = step_id_) in
  (bool_decide (filter (λ kr, hit kr.1 kr.2 = true) (map_to_list (steps w)) ≠ []),
   set_steps (map_imap (λ k r, Some (if hit k r then reset_row r else r)) (steps w)) w).

(** [UPDATE steps SET ... WHERE run_id=? AND status='failed']; the result is
    [cur.rowcount]. *)
Definition reset_failed_steps (run_id : string) (w : World) : nat * World :=
  let hit (k : string * string) (r : StepRow) : bool :=
    bool_decide (k.1 = run_id) && bool_decide (row_status r = STEP_FAILED) in
  (length (filter (λ kr, hit kr.1 kr.2 = true) (map_to_list (steps w))),
   set_steps
     (map_imap (λ k r, Some (if hit k r then reset_failed_row r else r)) (steps w)) w).

(** *** Events *)

Definition create_event (run_id : string) (step : option string)
    (event_type : string) (payload : Payload) (w : World) : Event * World :=
  let '(id, w1) := uuid4 w in
  let event :=
    {| ev_id := id; ev_run_id := run_id; ev_step_id := step;
       ev_event_type := event_type; ev_payload := payload;
       ev_created_at := utc_now_iso w1 |} in
  (event, set_events (events w1 ++ [event]) w1).

(** The events of a run, those created after [after_created_at] when it is
    given, in the order of [created_at] and then of [id]. *)
Definition list_events (run_id : string) (after_created_at : option Z)
    (w : World) : list Event :=
  let rows := filter (λ e, ev_run_id e = run_id) (events w) in
  let rows :=
    match after_created_at with
    | Some after => filter (λ e, after < ev_created_at e) rows
    | None => rows
    end in
  merge_sort event_le rows.

(** *** Cost ledger *)

Definition create_cost_entry (run_id : string) (step : option string)
    (app provider model : string) (prompt_tokens completion_tokens total usd : Z)
    (metadata : CostMetadata) (w : World) : World :=
  let '(id, w1) := uuid4 w in
  set_cost_ledger
    (cost_ledger w1 ++
       [{| cost_id := id; cost_run_id := run_id; cost_step_id := step;
           cost_app := app; cost_provider := provider; cost_model := model;
           cost_prompt_tokens := prompt_tokens;
           cost_completion_tokens := completion_tokens;
           cost_total_tokens := total; cost_usd := usd;
           cost_metadata := metadata; cost_created_at := utc_now_iso w1 |}]) w1.

Definition list_cost_entries (run_id : string) (w : World) : list CostEntry :=
  filter (λ c, cost_run_id c = run_id) (cost_ledger w).

End Repository.

(** ** The in-memory run state *)

Record Constraints := {
  budget_usd : Z;
  timeout_s : Z;
  max_steps : Z;
  reflection_interval_steps : Z;
}.

(** The state dict that flows through the control loop. *)
Record State := {
  st_run_id : string;
  st_task : string;
  st_template_id : option string;
  st_constraints : Constraints;
  st_dag : Dag;
  st_step_counter : Z;
  st_progress_made : bool;
  st_reflection_needed : bool;
  st_reflection_reason : option string;
  st_reflection_model_preference : option string;
  st_failure_mode : option string;
  st_should_finish : bool;
  st_finish_status : option RunStatus;
  st_finish_reason : option string;
  st_run_started_monotonic : Z;
  st_request_id : string;
}.

Definition set_dag (x : Dag) (s : State) : State :=
  {| st_run_id := st_run_id s; st_task := st_task s;
     st_template_id := st_template_id s; st_constraints := st_constraints s;
     st_dag := x; st_step_counter := st_step_counter s;
     st_progress_made := st_progress_made s;
     st_reflection_needed := st_reflection_needed s;
     st_reflection_reason := st_reflection_reason s;
     st_reflection_model_preference := st_reflection_model_preference s;
     st_failure_mode := st_failure_mode s;
     st_should_finish := st_should_finish s;
     st_finish_status := st_finish_status s;
     st_finish_reason := st_finish_reason s;
     st_run_started_monotonic := st_run_started_monotonic s;
     st_request_id := st_request_id s |}.

Definition set_step_counter (x : Z) (s : State) : State :=
  {| st_run_id := st_run_id s; st_task := st_task s;
     st_template_id := st_template_id s; st_constraints := st_constraints s;
     st_dag := st_dag s; st_step_counter := x;
     st_progress_made := st_progress_made s;
     st_reflection_needed := st_reflection_needed s;
     st_reflection_reason := st_reflection_reason s;
     st_reflection_model_preference := st_reflection_model_preference s;
     st_failure_mode := st_failure_mode s;
     st_should_finish := st_should_finish s;
     st_finish_status := st_finish_status s;
     st_finish_reason := st_finish_reason s;
     st_run_started_monotonic := st_run_started_monotonic s;
     st_request_id := st_request_id s |}.

Definition set_progress_made (x : bool) (s : State) : State :=
  {| st_run_id := st_run_id s; st_task := st_task s;
     st_template_id := st_template_id s; st_constraints := st_constraints s;
     st_dag := st_dag s; st_step_counter := st_step_counter s;
     st_progress_made := x;
     st_reflection_needed := st_reflection_needed s;
     st_reflection_reason := st_reflection_reason s;
     st_reflection_model_preference := st_reflection_model_preference s;
     st_failure_mode := st_failure_mode s;
     st_should_finish := st_should_finish s;
     st_finish_status := st_finish_status s;
     st_finish_reason := st_finish_reason s;
     st_run_started_monotonic := st_run_started_monotonic s;
     st_request_id := st_request_id s |}.

(** [reflection_needed], [reflection_reason] and [failure_mode] are always
    assigned together. *)
Definition set_reflection (needed : bool) (reason mode : option string)
    (s : State) : State :=
  {| st_run_id := st_run_id s; st_task := st_task s;
     st_template_id := st_template_id s; st_constraints := st_constraints s;
     st_dag := st_dag s; st_step_counter := st_step_counter s;
     st_progress_made := st_progress_made s;
     st_reflection_needed := needed;
     st_reflection_reason := reason;
     st_reflection_model_preference := st_reflection_model_preference s;
     st_failure_mode := mode;
     st_should_finish := st_should_finish s;
     st_finish_status := st_finish_status s;
     st_finish_reason := st_finish_reason s;
     st_run_started_monotonic := st_run_started_monotonic s;
     st_request_id := st_request_id s |}.

Definition set_reflection_model_preference (x : option string) (s : State) : State :=
  {| st_run_id := st_run_id s; st_task := st_task s;
     st_template_id := st_template_id s; st_constraints := st_constraints s;
     st_dag := st_dag s; st_step_counter := st_step_counter s;
     st_progress_made := st_progress_made s;
     st_reflection_needed := st_reflection_needed s;
     st_reflection_reason := st_reflection_reason s;
     st_reflection_model_preference := x;
     st_failure_mode := st_failure_mode s;
     st_should_finish := st_should_finish s;
     st_finish_status := st_finish_status s;
     st_finish_reason := st_finish_reason s;
     st_run_started_monotonic := st_run_started_monotonic s;
     st_request_id := st_request_id s |}.

Definition set_should_finish (x : bool) (s : State) : State :=
  {| st_run_id := st_run_id s; st_task := st_task s;
     st_template_id := st_template_id s; st_constraints := st_constraints s;
     st_dag := st_dag s; st_step_counter := st_step_counter s;
     st_progress_made := st_progress_made s;
     st_reflection_needed := st_reflection_needed s;
     st_reflection_reason := st_reflection_reason s;
     st_reflection_model_preference := st_reflection_model_preference s;
     st_failure_mode := st_failure_mode s;
     st_should_finish := x;
     st_finish_status := st_finish_status s;
     st_finish_reason := st_finish_reason s;
     st_run_started_monotonic := st_run_started_monotonic s;
     st_request_id := st_request_id s |}.

(** [should_finish = True] with a [finish_status] and a [finish_reason]. *)
Definition set_finish (status : RunStatus) (reason : string) (s : State) : State :=
  {| st_run_id := st_run_id s; st_task := st_task s;
     st_template_id := st_template_id s; st_constraints := st_constraints s;
     st_dag := st_dag s; st_step_counter := st_step_counter s;
     st_progress_made := st_progress_made s;
     st_reflection_needed := st_reflection_needed s;
     st_reflection_reason := st_reflection_reason s;
     st_reflection_model_preference := st_reflection_model_preference s;
     st_failure_mode := st_failure_mode s;
     st_should_finish := true;
     st_finish_status := Some status;
     st_finish_reason := Some reason;
     st_run_started_monotonic := st_run_started_monotonic s;
     st_request_id := st_request_id s |}.

(** A computation that may raise. *)
Inductive Result (A : Type) :=
  | Ok (a : A)
  | Raise (message : string).
Arguments Ok {A} a.
Arguments Raise {A} message.

(** ** [TaskflowOrchestrator._emit_event], the [emit_event] every service is
    given: the event is stored, then published. *)
Definition _emit_event (run_id : string) (step : option string)
    (event_type : string) (payload : Payload) (w : World) : World :=
  let '(event, w1) := Repository.create_event run_id step event_type payload w in
  set_broker (EventBroker.publish event (broker w1)) w1.

(** ** orchestration/contracts *)

(** [GenericStepOutput] and its two subclasses ask for a string summary, a
    confidence in [0, 1] and a dict of artifacts; only the bound on the
    confidence can fail for a [StepOutput].  The result is
    [(is_valid, validated_output, validation_error)]. *)
Definition validate_output_with_contract (output : StepOutput)
    : bool * option StepOutput * option string :=
  if bool_decide (0 ≤ out_confidence output ≤ 100) then (true, Some output, None)
  else (false, None, Some "confidence out of range").

(** ** orchestration/executor/service.py *)

Record StepExecutionError := {
  see_code : FailureCode;
  see_message : string;
  see_details : ErrorDetails;
}.

(** A node object: its position in [dag.nodes] and its current content. *)
Definition NodeRef : Type := nat * Node.

(** What [execute_next] fixes before its [try] block. *)
Record Prepared := {
  pr_step_id : string;
  pr_node : NodeRef;
  pr_contract : Contract;
  pr_attempts : Z;
  pr_max_retries : Z;
  pr_started_at : Z;
  pr_input : StepInput;
}.

Module ExecutorService.

(** The test of the loop body of [_next_runnable_node] (and of
    [MonitorService._has_runnable_nodes]). *)
Definition runnable (m : gmap string Node) (n : Node) : bool :=
  bool_decide (node_status n = PENDING)
  && forallb (dep_completed m) (node_depends_on n).

Definition _next_runnable_node (dag : Dag) : option NodeRef :=
  list_find (λ n, runnable (node_map (dag_nodes dag)) n = true) (dag_nodes dag).

Definition _map_failure_mode (code : string) : string :=
  if decide (code = FailureCode_value TIMEOUT) then "timeout"
  else if decide (code = FailureCode_value SCHEMA_ERROR) then "schema_error"
  else "other".

(** [min(2 ** (attempts - 1), 8)], for [1 <= attempts]. *)
Definition backoff_s (attempts : Z) : Z := Z.min (2 ^ (attempts - 1)) 8.

Definition structured_error (error : StepExecutionError) : StructuredError :=
  {| err_code := FailureCode_value (see_code error);
     err_message := see_message error;
     err_details := see_details error |}.

Definition _handle_step_error (state : State) (step : string) (node : NodeRef)
    (attempts max_retries : Z) (started_at : Z) (error : StepExecutionError)
    (w : World) : State * World :=
  let '(i, n) := node in
  let node_id_ := node_id n in
  let ended_at := utc_now_iso w in
  let serr := structured_error error in
  let state := set_step_counter (st_step_counter state + 1) state in
  if bool_decide (attempts ≤ max_retries) then
    let backoff := backoff_s attempts in
    let n := node_set_last_error (Some serr) (node_set_status PENDING n) in
    let state := set_dag (dag_set_nodes (<[i := n]> (dag_nodes (st_dag state)))
                            (st_dag state)) state in
    let w := Repository.upsert_step
      {| step_id := step; step_run_id := st_run_id state;
         step_node_id := node_id_; step_status := PENDING;
         step_attempts := attempts; step_max_retries := max_retries;
         step_started_at := Some started_at; step_ended_at := Some ended_at;
         step_input := {| in_task := st_task state; in_node := n;
                          in_request_id := None |};
         step_output := None; step_error := Some serr; step_cost := None;
         step_logs := [] |} w in
    let w := Repository.update_run (st_run_id state) (patch_dag (st_dag state)) w in
    let w := _emit_event (st_run_id state) (Some step) "step_retry_scheduled"
               (PStepRetryScheduled node_id_ attempts max_retries backoff serr) w in
    let w := advance (backoff * 1000) w in
    (state, w)
  else
    let n := node_set_last_error (Some serr) (node_set_status STEP_FAILED n) in
    let state := set_dag (dag_set_nodes (<[i := n]> (dag_nodes (st_dag state)))
                            (st_dag state)) state in
    let w := Repository.upsert_step
      {| step_id := step; step_run_id := st_run_id state;
         step_node_id := node_id_; step_status := STEP_FAILED;
         step_attempts := attempts; step_max_retries := max_retries;
         step_started_at := Some started_at; step_ended_at := Some ended_at;
         step_input := {| in_task := st_task state; in_node := n;
                          in_request_id := None |};
         step_output := None; step_error := Some serr; step_cost := None;
         step_logs := [] |} w in
    let w := Repository.update_run (st_run_id state) (patch_dag (st_dag state)) w in
    let state :=
      set_reflection true (Some ("Step " +:+ node_id_ +:+ " failed"))
        (Some (_map_failure_mode (FailureCode_value (see_code error)))) state in
    let w := _emit_event (st_run_id state) (Some step) "step_failed"
               (PStepFailed node_id_ serr) w in
    (state, w).

(** [state.get("reflection_model_preference") or
     contract.get("model_preference", "default")] *)
Definition model_preference_of (state : State) (contract : Contract) : string :=
  py_or (st_reflection_model_preference state)
        (get_default (c_model_preference contract) "default").

(** What the body of the [try] block yields before the bookkeeping of a
    success: the response with the model and the validated output, or the
    error handed to [_handle_step_error] by one of the three handlers. *)
Definition attempt (settings : Settings) (provider : LLMProvider)
    (state : State) (contract : Contract) (node_id_ : string) (w : World)
    : (string * LLMCallResult * StepOutput + StepExecutionError) * World :=
  let allowed_tools := get_default (c_allowed_tools contract) ["llm.generate"] in
  if bool_decide ("llm.generate" ∉ allowed_tools) then
    (inr {| see_code := TOOL_NOT_ALLOWED;
            see_message := "Contract does not allow llm.generate";
            see_details := DAllowedTools allowed_tools |}, w)
  else
    let model_preference := model_preference_of state contract in
    let model := ModelRouter.for_step settings model_preference EXECUTOR in
    let timeout := get_default (c_timeout_s contract) 30 in
    let behaviour := provider (llm_calls w) model in
    let w := count_llm_call w in
    let timed_out :=
      (inr {| see_code := TIMEOUT;
              see_message := "Step execution timed out";
              see_details := DTimeout timeout "" |},
       advance (timeout * 1000) w) in
    match behaviour with
    | Responds llm_response after_ms =>
        if bool_decide (after_ms < timeout * 1000) then
          let w := advance after_ms w in
          let output :=
            {| out_summary := llm_content llm_response;
               out_confidence :=
                 if decide (model_preference = "expensive") then 85 else 70;
               out_model := llm_model llm_response;
               out_provider := llm_provider llm_response;
               out_node_id := node_id_ |} in
          match validate_output_with_contract output with
          | (true, Some validated_output, _) =>
              (inl (model, llm_response, validated_output), w)
          | (_, _, validation_error) =>
              (inr {| see_code := SCHEMA_ERROR;
                      see_message := "Step output schema validation failed";
                      see_details :=
                        DValidationError (get_default validation_error "") |}, w)
          end
        else timed_out
    | Raises message after_ms =>
        if bool_decide (after_ms < timeout * 1000) then
          (inr {| see_code := EXECUTION_ERROR;
                  see_message := "Unhandled execution error";
                  see_details := DRawError message |},
           advance after_ms w)
        else timed_out
    end.

(** [execute_next] from the choice of the node to the [step_started] event:
    the step id and the attempt number are fixed, the node is marked running
    and the running step row is written. *)
Definition prepare (state : State) (request_id : string) (node : NodeRef)
    (w : World) : Prepared * State * World :=
  let '(i, n) := node in
  let state := set_progress_made true state in
  let node_id_ := node_id n in
  let contract := default empty_contract (dag_contracts (st_dag state) !! node_id_) in
  let existing_step := Repository.get_step_by_node (st_run_id state) node_id_ w in
  let '(step, w) :=
    match existing_step with
    | Some s => (step_id s, w)
    | None => uuid4 w
    end in
  let attempts :=
    match existing_step with
    | Some s => step_attempts s + 1
    | None => 1
    end in
  let max_retries := get_default (c_max_retries contract) 2 in
  let started_at := utc_now_iso w in
  let n := node_set_status STEP_RUNNING n in
  let state := set_dag (dag_set_nodes (<[i := n]> (dag_nodes (st_dag state)))
                          (st_dag state)) state in
  let w := Repository.update_run (st_run_id state) (patch_dag (st_dag state)) w in
  let input := {| in_task := st_task state; in_node := n;
                  in_request_id := Some request_id |} in
  let w := Repository.upsert_step
    {| step_id := step; step_run_id := st_run_id state;
       step_node_id := node_id_; step_status := STEP_RUNNING;
       step_attempts := attempts; step_max_retries := max_retries;
       step_started_at := Some started_at; step_ended_at := None;
       step_input := input; step_output := None; step_error := None;
       step_cost := None; step_logs := [] |} w in
  let w := _emit_event (st_run_id state) (Some step) "step_started"
             (PStepStarted node_id_ attempts) w in
  ({| pr_step_id := step; pr_node := (i, n); pr_contract := contract;
      pr_attempts := attempts; pr_max_retries := max_retries;
      pr_started_at := started_at; pr_input := input |}, state, w).

(** The rest of the [try] block after a validated response: the bookkeeping
    of a success. *)
Definition complete (settings : Settings) (state : State) (request_id : string)
    (p : Prepared) (model : string) (llm_response : LLMCallResult)
    (validated_output : StepOutput) (w : World) : State * World :=
  let '(i, n) := pr_node p in
  let node_id_ := node_id n in
  let ended_at := utc_now_iso w in
  let cost := CostEstimator.estimate settings model
                (llm_prompt_tokens llm_response)
                (llm_completion_tokens llm_response) in
  let cost_payload :=
    {| cp_provider := llm_provider llm_response; cp_model := model;
       cp_prompt_tokens := ce_prompt_tokens cost;
       cp_completion_tokens := ce_completion_tokens cost;
       cp_total_tokens := ce_total_tokens cost;
       cp_usd := ce_usd cost |} in
  let w := Repository.upsert_step
    {| step_id := pr_step_id p; step_run_id := st_run_id state;
       step_node_id := node_id_; step_status := STEP_COMPLETED;
       step_attempts := pr_attempts p; step_max_retries := pr_max_retries p;
       step_started_at := Some (pr_started_at p); step_ended_at := Some ended_at;
       step_input := pr_input p; step_output := Some validated_output;
       step_error := None; step_cost := Some cost_payload;
       step_logs := [] |} w in
  let w := Repository.create_cost_entry (st_run_id state) (Some (pr_step_id p))
             (cost_ledger_app settings) (llm_provider llm_response) model
             (ce_prompt_tokens cost) (ce_completion_tokens cost)
             (ce_total_tokens cost) (ce_usd cost)
             {| cm_phase := "step_execution"; cm_node_id := Some node_id_;
                cm_attempt := Some (pr_attempts p);
                cm_request_id := request_id |} w in
  let w := Repository.increment_run_totals (st_run_id state)
             (ce_prompt_tokens cost) (ce_completion_tokens cost)
             (ce_total_tokens cost) (ce_usd cost) w in
  let n := node_set_last_error None
             (node_set_last_output (Some validated_output)
                (node_set_status STEP_COMPLETED n)) in
  let state := set_dag (dag_set_nodes (<[i := n]> (dag_nodes (st_dag state)))
                          (st_dag state)) state in
  let w := Repository.update_run (st_run_id state) (patch_dag (st_dag state)) w in
  let state := set_step_counter (st_step_counter state + 1) state in
  let w := _emit_event (st_run_id state) (Some (pr_step_id p)) "step_finished"
             (PStepFinished node_id_ cost_payload) w in
  (state, w).

Definition execute_next (settings : Settings) (provider : LLMProvider)
    (state : State) (request_id : string) (w : World) : State * World :=
  match _next_runnable_node (st_dag state) with
  | None => (set_progress_made false state, w)
  | Some node =>
      let '(p, state, w) := prepare state request_id node w in
      match attempt settings provider state (pr_contract p)
              (node_id (pr_node p).2) w with
      | (inr error, w) =>
          _handle_step_error state (pr_step_id p) (pr_node p) (pr_attempts p)
            (pr_max_retries p) (pr_started_at p) error w
      | (inl (model, llm_response, validated_output), w) =>
          complete settings state request_id p model llm_response
            validated_output w
      end
  end.

End ExecutorService.

(** ** orchestration/planner/service.py *)

Module PlannerService.

(** The DAG built from a template: every node pending with no output and no
    error, the contracts copied, the planner notes attached. *)
Definition instantiate (template : Template) (notes : string) : Dag :=
  {| dag_nodes :=
       (λ n, node_set_last_error None
               (node_set_last_output None (node_set_status PENDING n)))
         <$> tpl_graph_nodes template;
     dag_edges := tpl_graph_edges template;
     dag_contracts := tpl_contracts template;
     dag_planner_notes := Some notes |}.

Definition plan (settings : Settings) (provider : LLMProvider)
    (run_id : string) (run : Run) (request_id : string) (w : World)
    : Result Dag * World :=
  if bool_decide (dag_nodes (run_dag run) ≠ []) then (Ok (run_dag run), w)
  else
    let w := _emit_event run_id None "planning_started"
               (PPlanningStarted (run_task run) (run_template_id run)) w in
    let template :=
      match run_template_id run with
      | Some tid =>
          if decide (tid = "") then None
          else Repository.get_workflow_template tid w
      | None => None
      end in
    let template :=
      match template with
      | Some t => Some t
      | None => snd <$> head (Repository.list_workflow_templates w)
      end in
    match template with
    | None => (Raise "No workflow template available", w)
    | Some template =>
        let planner_model := ModelRouter.for_workload settings PLANNER in
        let behaviour := provider (llm_calls w) planner_model in
        let w := count_llm_call w in
        match behaviour with
        | Raises message after_ms => (Raise message, advance after_ms w)
        | Responds llm_response after_ms =>
            let w := advance after_ms w in
            let cost := CostEstimator.estimate settings planner_model
                          (llm_prompt_tokens llm_response)
                          (llm_completion_tokens llm_response) in
            let w := Repository.create_cost_entry run_id None
                       (cost_ledger_app settings) (llm_provider llm_response)
                       (llm_model llm_response)
                       (ce_prompt_tokens cost) (ce_completion_tokens cost)
                       (ce_total_tokens cost) (ce_usd cost)
                       {| cm_phase := "planning"; cm_node_id := None;
                          cm_attempt := None; cm_request_id := request_id |} w in
            let w := Repository.increment_run_totals run_id
                       (ce_prompt_tokens cost) (ce_completion_tokens cost)
                       (ce_total_tokens cost) (ce_usd cost) w in
            let dag := instantiate template (llm_content llm_response) in
            let w := Repository.update_run run_id (patch_dag dag) w in
            let w := _emit_event run_id None "planning_finished"
                       (PPlanningFinished (length (dag_nodes dag))
                          (length (dag_edges dag)) (llm_model llm_response)) w in
            (Ok dag, w)
        end
    end.

End PlannerService.

(** ** orchestration/monitor/service.py *)

(** The message of the [ZeroDivisionError] that [%] raises on integers
    (CPython 3.11). *)
Definition modulo_by_zero : string := "integer modulo by zero".

Module MonitorService.

Definition _has_runnable_nodes (dag : Dag) : bool :=
  existsb (ExecutorService.runnable (node_map (dag_nodes dag))) (dag_nodes dag).

Definition status_in (s : StepStatus) (l : list StepStatus) : bool :=
  bool_decide (s ∈ l).

(** [evaluate] reads the clock and the run row; it writes nothing.  The only
    exception it can raise is the division by a zero reflection interval. *)
Definition evaluate (state : State) (w : World) : Result State :=
  match Repository.get_run (st_run_id state) w with
  | None => Ok (set_finish FAILED "run_missing" state)
  | Some run =>
      let constraints := st_constraints state in
      let statuses := node_status <$> dag_nodes (st_dag state) in
      if cancel_requested run then
        Ok (set_finish CANCELED "cancel_requested" state)
      else
        let elapsed := Z.quot (now w - st_run_started_monotonic state) 1000 in
        if bool_decide (timeout_s constraints ≤ elapsed) then
          Ok (set_reflection true (Some "Run timeout exceeded") (Some "timeout")
                (set_finish FAILED "timeout" state))
        else if bool_decide (budget_usd constraints ≤ total_usd run) then
          Ok (set_reflection true (Some "Budget cap exceeded") (Some "budget_risk")
                (set_finish FAILED "budget_exceeded" state))
        else
          let completed :=
            forallb (λ s, status_in s [STEP_COMPLETED; SKIPPED]) statuses
            && bool_decide (statuses ≠ []) in
          if completed then
            Ok (set_finish COMPLETED "all_steps_completed" state)
          else
            let has_running := existsb (λ s, bool_decide (s = STEP_RUNNING)) statuses in
            let has_pending := existsb (λ s, bool_decide (s = PENDING)) statuses in
            if negb (_has_runnable_nodes (st_dag state))
               && (has_pending && negb has_running) then
              Ok (set_reflection true
                    (Some "No runnable steps due to unmet dependencies")
                    (Some (py_or (st_failure_mode state) "other"))
                    (set_finish FAILED "dependency_deadlock" state))
            else
              let pending_or_running :=
                existsb (λ s, status_in s [PENDING; STEP_RUNNING]) statuses in
              if negb pending_or_running
                 && existsb (λ s, bool_decide (s = STEP_FAILED)) statuses then
                Ok (set_reflection true (Some "One or more steps failed")
                      (Some (py_or (st_failure_mode state) "other"))
                      (set_finish FAILED "steps_failed" state))
              else if bool_decide (max_steps constraints ≤ st_step_counter state) then
                Ok (set_reflection true (Some "Max steps exceeded") (Some "other")
                      (set_finish FAILED "max_steps_exceeded" state))
              else
                let interval := reflection_interval_steps constraints in
                if bool_decide (0 < st_step_counter state) then
                  if decide (interval = 0) then
                    Raise modulo_by_zero
                  else if bool_decide (st_step_counter state `mod` interval = 0)
                          && st_progress_made state then
                    Ok (set_progress_made false
                          (set_reflection true
                             (Some "Periodic reflection boundary reached")
                             (Some (py_or (st_failure_mode state) "low_confidence"))
                             state))
                  else Ok state
                else Ok state
  end.

End MonitorService.

(** ** orchestration/reflection/service.py *)

Module ReflectionService.

Definition _decide_action (failure_mode : string) : ReflectionAction :=
  if bool_decide (failure_mode = "timeout" ∨ failure_mode = "budget_risk") then TERMINATED
  else if decide (failure_mode = "schema_error") then REPLANNED
  else if decide (failure_mode = "low_confidence") then ADJUSTED_PARAMETERS
  else TERMINATED.

(** [adjacency.setdefault(edge["source"], []).append(edge["target"])] *)
Definition adjacency (edges : list Edge) : gmap string (list string) :=
  foldl (λ adj e,
           <[edge_source e := default [] (adj !! edge_source e) ++ [edge_target e]]> adj)
        ∅ edges.

(** The [while queue] loop; every pass pops one id, and an id enters the
    queue at most once, so [fuel] passes suffice when [fuel] bounds the number
    of ids. *)
Fixpoint bfs (fuel : nat) (adj : gmap string (list string))
    (queue : list string) (seen : gset string) : gset string :=
  match fuel, queue with
  | S fuel, current :: rest =>
      let '(queue, seen) :=
        foldl (λ '(q, s) child,
                 if decide (child ∈ s) then (q, s) else (q ++ [child], {[child]} ∪ s))
              (rest, seen) (default [] (adj !! current)) in
      bfs fuel adj queue seen
  | _, _ => seen
  end.

Definition _skip_failed_descendants (state : State) : State :=
  let nodes := dag_nodes (st_dag state) in
  let failed_ids : gset string :=
    list_to_set (node_id <$> filter (λ n, node_status n = STEP_FAILED) nodes) in
  if decide (failed_ids = ∅) then state
  else
    let edges := dag_edges (st_dag state) in
    let seen :=
      bfs (size failed_ids + length edges) (adjacency edges)
          (elements failed_ids) failed_ids in
    let skip (n : Node) : Node :=
      if bool_decide (node_id n ∈ seen) && bool_decide (node_status n = PENDING) then
        node_set_last_error
          (Some {| err_code := "execution_error";
                   err_message := "Skipped due to upstream failure during replanning";
                   err_details :=
                     DUpstream (merge_sort string_le (elements failed_ids)) |})
          (node_set_status SKIPPED n)
      else n in
    set_dag (dag_set_nodes (skip <$> nodes) (st_dag state)) state.

Definition reflect (state : State) (w : World) : State * World :=
  if negb (st_reflection_needed state) then (state, w)
  else
    let reason := py_or (st_reflection_reason state) "Reflection requested" in
    let failure_mode := py_or (st_failure_mode state) "other" in
    let action := _decide_action failure_mode in
    let '(state, w) :=
      match action with
      | REPLANNED =>
          (_skip_failed_descendants state,
           _emit_event (st_run_id state) None "replanned"
             (PReplanned reason failure_mode) w)
      | ADJUSTED_PARAMETERS =>
          (set_reflection_model_preference (Some "expensive") state, w)
      | TERMINATED =>
          let state := set_should_finish true state in
          (if bool_decide (st_finish_status state = Some FAILED
                           ∨ st_finish_status state = Some CANCELED)
           then state
           else set_finish FAILED "reflection_terminated" state, w)
      end in
    let diagnostic :=
      {| diag_reason := reason; diag_failure_mode := failure_mode;
         diag_action_taken := ReflectionAction_value action |} in
    let w := Repository.append_run_diagnostic (st_run_id state) diagnostic w in
    let w := _emit_event (st_run_id state) None "reflection" (PReflection diagnostic) w in
    (set_reflection false None None state, w).

End ReflectionService.

(** ** orchestration/runtime.py *)

(** The nodes of the control graph and its END marker. *)
Inductive GraphNode := plan | execute_step | monitor | reflect | finish | END.

Module TaskflowOrchestrator.

Definition request_cancel (run_id : string) (w : World) : World :=
  Repository.request_cancel_run run_id w.

Definition _route_after_monitor (state : State) : GraphNode :=
  if st_should_finish state then finish
  else if st_reflection_needed state then reflect
  else execute_step.

Definition _plan_node (settings : Settings) (provider : LLMProvider)
    (state : State) (w : World) : Result State * World :=
  match Repository.get_run (st_run_id state) w with
  | None => (Ok (set_finish FAILED "run_missing" state), w)
  | Some run =>
      match PlannerService.plan settings provider (st_run_id state) run
              (st_request_id state) w with
      | (Ok dag, w) => (Ok (set_dag dag state), w)
      | (Raise message, w) => (Raise message, w)
      end
  end.

Definition _execute_step_node (settings : Settings) (provider : LLMProvider)
    (state : State) (w : World) : State * World :=
  ExecutorService.execute_next settings provider state (st_request_id state) w.

Definition _monitor_node (state : State) (w : World) : Result State * World :=
  match MonitorService.evaluate state w with
  | Ok updated =>
      (Ok updated,
       Repository.update_run (st_run_id updated) (patch_dag (st_dag updated)) w)
  | Raise message => (Raise message, w)
  end.

Definition _reflect_node (state : State) (w : World) : State * World :=
  let '(updated, w) := ReflectionService.reflect state w in
  (updated, Repository.update_run (st_run_id updated) (patch_dag (st_dag updated)) w).

Definition canceled_error : StructuredError :=
  {| err_code := "canceled"; err_message := "Canceled by human override";
     err_details := DEmpty |}.

Definition is_open (s : StepStatus) : bool :=
  bool_decide (s = PENDING ∨ s = STEP_RUNNING).

(** The body of the loop over [list_steps] in [_mark_open_steps_canceled]. *)
Definition cancel_step (w : World) (step : Step) : World :=
  if negb (is_open (step_status step)) then w
  else
    Repository.upsert_step
      {| step_id := step_id step; step_run_id := step_run_id step;
         step_node_id := step_node_id step; step_status := STEP_CANCELED;
         step_attempts := step_attempts step;
         step_max_retries := step_max_retries step;
         step_started_at := step_started_at step;
         step_ended_at := Some (utc_now_iso w);
         step_input := step_input step; step_output := step_output step;
         step_error := Some canceled_error; step_cost := step_cost step;
         step_logs := step_logs step |} w.

Definition _mark_open_steps_canceled (state : State) (w : World) : State * World :=
  let cancel_node (n : Node) : Node :=
    if is_open (node_status n) then
      node_set_last_error (Some canceled_error) (node_set_status STEP_CANCELED n)
    else n in
  let state :=
    set_dag (dag_set_nodes (cancel_node <$> dag_nodes (st_dag state)) (st_dag state))
            state in
  (state, foldl cancel_step w (Repository.list_steps (st_run_id state) w)).

Definition _finish_node (state : State) (w : World) : State * World :=
  let status := get_default (st_finish_status state) FAILED in
  let reason := py_or (st_finish_reason state) "unknown" in
  let '(state, w) :=
    if decide (status = CANCELED) then _mark_open_steps_canceled state w
    else (state, w) in
  let w := Repository.update_run (st_run_id state)
             {| p_status := Some status;
                p_started_at := None;
                p_ended_at := Some (Some (utc_now_iso w));
                p_cancel_requested := Some false;
                p_dag := Some (st_dag state);
                p_diagnostics := None |} w in
  let w := _emit_event (st_run_id state) None "run_finished"
             (PRunFinished status reason) w in
  (state, w).

(** One pass of the body of the [while current != END] loop of
    [FallbackCompiledGraph.ainvoke]: the current node is called and the next
    node is chosen. *)
Definition graph_step (settings : Settings) (provider : LLMProvider)
    (current : GraphNode) (state : State) (w : World)
    : Result (GraphNode * State) * World :=
  match current with
  | plan =>
      match _plan_node settings provider state w with
      | (Ok state, w) => (Ok (monitor, state), w)
      | (Raise message, w) => (Raise message, w)
      end
  | execute_step =>
      let '(state, w) := _execute_step_node settings provider state w in
      (Ok (monitor, state), w)
  | reflect =>
      let '(state, w) := _reflect_node state w in
      (Ok (monitor, state), w)
  | monitor =>
      match _monitor_node state w with
      | (Ok state, w) => (Ok (_route_after_monitor state, state), w)
      | (Raise message, w) => (Raise message, w)
      end
  | finish =>
      let '(state, w) := _finish_node state w in
      (Ok (END, state), w)
  | END => (Ok (END, state), w)
  end.

(** [FallbackCompiledGraph.ainvoke], one unit of fuel per pass of the loop.
    [None] is a loop that has not reached END when the fuel ends;
    [Some (Raise _)] an exception that leaves the loop. *)
Fixpoint ainvoke (fuel : nat) (settings : Settings) (provider : LLMProvider)
    (current : GraphNode) (state : State) (w : World)
    : option (Result State) * World :=
  match current with
  | END => (Some (Ok state), w)
  | _ =>
      match fuel with
      | O => (None, w)
      | S fuel =>
          match graph_step settings provider current state w with
          | (Ok (next, state), w) => ainvoke fuel settings provider next state w
          | (Raise message, w) => (Some (Raise message), w)
          end
      end
  end.

(** The state [_run_loop] starts the graph with. *)
Definition initial_state (settings : Settings) (run_id : string) (run : Run)
    (request_id : string) (w : World) : State :=
  {| st_run_id := run_id;
     st_task := run_task run;
     st_template_id := run_template_id run;
     st_constraints :=
       {| budget_usd := get_default (cj_budget_usd (run_constraints run))
                          (default_run_budget_usd settings);
          timeout_s := get_default (cj_timeout_s (run_constraints run))
                         (default_run_timeout_s settings);
          max_steps := get_default (cj_max_steps (run_constraints run))
                         (default_run_max_steps settings);
          reflection_interval_steps :=
            get_default (cj_reflection_interval_steps (run_constraints run))
              (default_reflection_interval_steps settings) |};
     st_dag := run_dag run;
     st_step_counter := 0;
     st_progress_made := false;
     st_reflection_needed := false;
     st_reflection_reason := None;
     st_reflection_model_preference := None;
     st_failure_mode := None;
     st_should_finish := false;
     st_finish_status := None;
     st_finish_reason := None;
     st_run_started_monotonic := now w;
     st_request_id := request_id |}.

(** [_run_loop] up to the call of the graph: a run that is missing or
    terminal ends the worker at once ([None]); otherwise the run is marked
    running, [run_started] is emitted and the initial state is built. *)
Definition _run_loop_begin (settings : Settings) (run_id request_id : string)
    (w : World) : option State * World :=
  match Repository.get_run run_id w with
  | None => (None, w)
  | Some run =>
      if bool_decide (run_status run = COMPLETED ∨ run_status run = FAILED
                      ∨ run_status run = CANCELED) then (None, w)
      else
        let started_at := get_default (run_started_at run) (utc_now_iso w) in
        let w := Repository.update_run run_id
                   {| p_status := Some RUNNING;
                      p_started_at := Some (Some started_at);
                      p_ended_at := None; p_cancel_requested := None;
                      p_dag := None; p_diagnostics := None |} w in
        let w := _emit_event run_id None "run_started"
                   (PRunStarted request_id started_at) w in
        (Some (initial_state settings run_id run request_id w), w)
  end.

(** The [except Exception] handler of [_run_loop]. *)
Definition _run_loop_except (run_id message : string) (w : World) : World :=
  let w := Repository.update_run run_id
             {| p_status := Some FAILED; p_started_at := None;
                p_ended_at := Some (Some (utc_now_iso w));
                p_cancel_requested := None; p_dag := None;
                p_diagnostics :=
                  Some [{| diag_reason :=
                             "Unhandled orchestrator error: " +:+ message;
                           diag_failure_mode := "other";
                           diag_action_taken := "terminated" |}] |} w in
  _emit_event run_id None "run_finished"
    (PRunFinished FAILED "orchestrator_exception") w.

(** The worker of one run, run on its own until it returns.  The boolean
    tells whether the worker returned within the fuel. *)
Definition _run_loop (fuel : nat) (settings : Settings) (provider : LLMProvider)
    (run_id request_id : string) (w : World) : bool * World :=
  match _run_loop_begin settings run_id request_id w with
  | (None, w) => (true, w)
  | (Some state, w) =>
      match ainvoke fuel settings provider plan state w with
      | (Some (Ok _), w) => (true, w)
      | (None, w) => (false, w)
      | (Some (Raise message), w) => (true, _run_loop_except run_id message w)
      end
  end.

Definition reset_node (n : Node) : Node :=
  node_set_last_output None (node_set_last_error None (node_set_status PENDING n)).

Definition _reset_node_for_step_retry (dag : Dag) (step : string) (w : World) : Dag :=
  match Repository.get_step step w with
  | None => dag
  | Some s =>
      dag_set_nodes
        ((λ n, if decide (node_id n = step_node_id s) then reset_node n else n)
           <$> dag_nodes dag) dag
  end.

Definition _reset_failed_nodes (dag : Dag) : Dag :=
  dag_set_nodes
    ((λ n, if decide (node_status n = STEP_FAILED) then reset_node n else n)
       <$> dag_nodes dag) dag.

(** [retry_run] up to its call of [start_run]. *)
Definition retry_run (run_id : string) (step : option string)
    (request_id : string) (w : World) : bool * World :=
  match Repository.get_run run_id w with
  | None => (false, w)
  | Some run =>
      let dag := run_dag run in
      let reset : option (Dag * World) :=
        match step with
        | Some s =>
            if decide (s = "") then
              let '(_, w) := Repository.reset_failed_steps run_id w in
              Some (_reset_failed_nodes dag, w)
            else
              let '(reset_ok, w) := Repository.reset_step run_id s w in
              if reset_ok then Some (_reset_node_for_step_retry dag s w, w)
              else None
        | None =>
            let '(_, w) := Repository.reset_failed_steps run_id w in
            Some (_reset_failed_nodes dag, w)
        end in
      match reset with
      | None => (false, w)
      | Some (dag, w) =>
          let w := Repository.update_run run_id
                     {| p_status := Some RUNNING; p_started_at := None;
                        p_ended_at := Some None;
                        p_cancel_requested := Some false;
                        p_dag := Some dag; p_diagnostics := None |} w in
          let w := _emit_event run_id None "run_retry_requested"
                     (PRunRetryRequested step request_id) w in
          (true, w)
      end
  end.

End TaskflowOrchestrator.

(** ** Workers and requests side by side

    [TaskflowOrchestrator._tasks] holds one worker per run; a worker is an
    asyncio task that runs [_run_loop].  Workers and request handlers take
    turns on one event loop; here a turn of a worker is one pass of the loop
    of the graph. *)

(** A worker: created and not yet run, or inside the loop of the graph. *)
Inductive Task :=
  | Spawned (request_id : string)
  | Looping (current : GraphNode) (state : State).

Record System := {
  sys_world : World;
  sys_tasks : gmap string Task;
}.

Definition empty_system : System := {| sys_world := empty_world; sys_tasks := ∅ |}.

Module Workers.

(** [TaskflowOrchestrator.start_run]: a no-op while the run has a worker. *)
Definition start_run (run_id request_id : string) (s : System) : System :=
  match sys_tasks s !! run_id with
  | Some _ => s
  | None =>
      {| sys_world := sys_world s;
         sys_tasks := <[run_id := Spawned request_id]> (sys_tasks s) |}
  end.

(** [TaskflowOrchestrator.retry_run] with its [start_run]. *)
Definition retry_run (run_id : string) (step : option string)
    (request_id : string) (s : System) : bool * System :=
  match TaskflowOrchestrator.retry_run run_id step request_id (sys_world s) with
  | (true, w) =>
      (true, start_run run_id request_id
               {| sys_world := w; sys_tasks := sys_tasks s |})
  | (false, w) => (false, {| sys_world := w; sys_tasks := sys_tasks s |})
  end.

(** One turn of the worker of [run_id], if it has one.  A worker that returns
    or fails leaves [_tasks] (the [finally] block of [_run_loop]). *)
Definition turn (settings : Settings) (provider : LLMProvider)
    (run_id : string) (s : System) : System :=
  match sys_tasks s !! run_id with
  | None => s
  | Some (Spawned request_id) =>
      match TaskflowOrchestrator._run_loop_begin settings run_id request_id
              (sys_world s) with
      | (None, w) =>
          {| sys_world := w; sys_tasks := delete run_id (sys_tasks s) |}
      | (Some state, w) =>
          {| sys_world := w;
             sys_tasks := <[run_id := Looping plan state]> (sys_tasks s) |}
      end
  | Some (Looping END _) =>
      {| sys_world := sys_world s; sys_tasks := delete run_id (sys_tasks s) |}
  | Some (Looping current state) =>
      match TaskflowOrchestrator.graph_step settings provider current state
              (sys_world s) with
      | (Ok (next, state), w) =>
          {| sys_world := w;
             sys_tasks := <[run_id := Looping next state]> (sys_tasks s) |}
      | (Raise message, w) =>
          {| sys_world := TaskflowOrchestrator._run_loop_except run_id message w;
             sys_tasks := delete run_id (sys_tasks s) |}
      end
  end.

End Workers.

(** ** routers/runs.py: the three requests that change a run *)

Module RunsRouter.

(** POST /runs; [None] is the 404 for an unknown template. *)
Definition create_run (task : string) (template_id : option string)
    (constraints : ConstraintsJson) (request_id : string) (s : System)
    : option (string * System) :=
  let w := sys_world s in
  let template_missing :=
    match template_id with
    | Some tid =>
        bool_decide (tid ≠ "")
        && bool_decide (Repository.get_workflow_template tid w = None)
    | None => false
    end in
  if template_missing then None
  else
    let '(run_id, w) := uuid4 w in
    let w := Repository.create_run run_id task template_id constraints
               (Some request_id) w in
    let w := _emit_event run_id None "run_created"
               (PRunCreated task template_id request_id) w in
    Some (run_id,
          Workers.start_run run_id request_id
            {| sys_world := w; sys_tasks := sys_tasks s |}).

(** POST /runs/{run_id}/cancel; [None] is the 404 for an unknown run. *)
Definition cancel_run (run_id request_id : string) (s : System) : option System :=
  match Repository.get_run run_id (sys_world s) with
  | None => None
  | Some _ =>
      let w := TaskflowOrchestrator.request_cancel run_id (sys_world s) in
      let w := _emit_event run_id None "cancel_requested"
                 (PCancelRequested request_id) w in
      Some {| sys_world := w; sys_tasks := sys_tasks s |}
  end.

(** POST /runs/{run_id}/retry; [None] is a 404 (unknown run, unknown step). *)
Definition retry_run (run_id : string) (step : option string)
    (request_id : string) (s : System) : option System :=
  match Repository.get_run run_id (sys_world s) with
  | None => None
  | Some _ =>
      match Workers.retry_run run_id step request_id s with
      | (true, s) => Some s
      | (false, _) => None
      end
  end.

End RunsRouter.

(** What happens on the event loop, one entry at a time: a request or a turn
    of a worker. *)
Inductive Action :=
  | PostRun (task : string) (template_id : option string)
      (constraints : ConstraintsJson) (request_id : string)
  | PostCancel (run_id request_id : string)
  | PostRetry (run_id : string) (step : option string) (request_id : string)
  | PutTemplate (id : string) (template : Template)
  | WorkerTurn (run_id : string) (provider : LLMProvider)
  | Wait (ms : Z).

Definition set_world (w : World) (s : System) : System :=
  {| sys_world := w; sys_tasks := sys_tasks s |}.

(** A request that is answered with an error changes nothing. *)
Definition perform (settings : Settings) (s : System) (a : Action) : System :=
  match a with
  | PostRun task template_id constraints request_id =>
      match RunsRouter.create_run task template_id constraints request_id s with
      | Some (_, s') => s'
      | None => s
      end
  | PostCancel run_id request_id =>
      default s (RunsRouter.cancel_run run_id request_id s)
  | PostRetry run_id step request_id =>
      default s (RunsRouter.retry_run run_id step request_id s)
  | PutTemplate id template =>
      set_world (Repository.upsert_workflow_template id template (sys_world s)) s
  | WorkerTurn run_id provider => Workers.turn settings provider run_id s
  | Wait ms => set_world (advance ms (sys_world s)) s
  end.

(** The system after a history that starts from an empty store. *)
Definition system_after (settings : Settings) (history : list Action) : System :=
  foldl (perform settings) empty_system history.

(** * The vocabulary of the properties *)


(** The columns [upsert_step] writes, apart from the id. *)
Definition row_matches (r : StepRow) (p : Step) : Prop :=
  row_status r = step_status p ∧ row_attempts r = step_attempts p ∧
  row_max_retries r = step_max_retries p ∧
  row_started_at r = step_started_at p ∧ row_ended_at r = step_ended_at p ∧
  row_input r = step_input p ∧ row_output r = step_output p ∧
  row_error r = step_error p ∧ row_cost r = step_cost p ∧
  row_logs r = step_logs p.

(** The event [_emit_event] stores and publishes. *)
Definition emitted (run_id : string) (step : option string) (event_type : string)
    (payload : Payload) (w : World) : Event :=
  {| ev_id := "uuid-" +:+ pretty (next_uuid w); ev_run_id := run_id;
     ev_step_id := step; ev_event_type := event_type; ev_payload := payload;
     ev_created_at := now w |}.

(** The failure mode [_handle_step_error] records for a failure code. *)
Definition mapped_failure_mode (c : FailureCode) : string :=
  match c with
  | TIMEOUT => "timeout"
  | SCHEMA_ERROR => "schema_error"
  | _ => "other"
  end.

(** How a rule of the table changes [failure_mode]. *)
Inductive ModeUpdate :=
  | ModeUnchanged
  | ModeUnspecified
  | ModeSet (mode : string)
  | ModeSetUnlessSet (mode : string).

(** A rule of section 4.6 with its guard evaluated: what it finishes the run
    with, whether it asks for reflection, what it does to [failure_mode] and
    whether it clears [progress_made]. *)
Record Rule := {
  rule_guard : bool;
  rule_finish : option (RunStatus * string);
  rule_reflection : bool;
  rule_mode : ModeUpdate;
  rule_clears_progress : bool;
}.

Definition node_has (s : StepStatus) (nodes : list Node) : bool :=
  existsb (λ n, bool_decide (node_status n = s)) nodes.

(** Modelled after the words of the specification, section 4.6: the nine
    rules in their order, over the state, the freshly fetched run and the
    elapsed seconds. *)
Definition spec_rules (state : State) (run : option Run) (elapsed : Z) : list Rule :=
  let c := st_constraints state in
  let nodes := dag_nodes (st_dag state) in
  let with_run (f : Run → bool) : bool :=
    match run with Some r => f r | None => false end in
  [ (* 1 *)
    {| rule_guard := bool_decide (run = None);
       rule_finish := Some (FAILED, "run_missing");
       rule_reflection := false; rule_mode := ModeUnchanged;
       rule_clears_progress := false |};
    (* 2 *)
    {| rule_guard := with_run cancel_requested;
       rule_finish := Some (CANCELED, "cancel_requested");
       rule_reflection := false; rule_mode := ModeUnchanged;
       rule_clears_progress := false |};
    (* 3 *)
    {| rule_guard := bool_decide (timeout_s c ≤ elapsed);
       rule_finish := Some (FAILED, "timeout");
       rule_reflection := true; rule_mode := ModeSet "timeout";
       rule_clears_progress := false |};
    (* 4 *)
    {| rule_guard := with_run (λ r, bool_decide (budget_usd c ≤ total_usd r));
       rule_finish := Some (FAILED, "budget_exceeded");
       rule_reflection := true; rule_mode := ModeSet "budget_risk";
       rule_clears_progress := false |};
    (* 5 *)
    {| rule_guard :=
         forallb (λ n, bool_decide (node_status n = STEP_COMPLETED
                                    ∨ node_status n = SKIPPED)) nodes
         && bool_decide (nodes ≠ []);
       rule_finish := Some (COMPLETED, "all_steps_completed");
       rule_reflection := false; rule_mode := ModeUnchanged;
       rule_clears_progress := false |};
    (* 6 *)
    {| rule_guard :=
         negb (existsb (ExecutorService.runnable (node_map nodes)) nodes)
         && negb (node_has STEP_RUNNING nodes) && node_has PENDING nodes;
       rule_finish := Some (FAILED, "dependency_deadlock");
       rule_reflection := true; rule_mode := ModeSetUnlessSet "other";
       rule_clears_progress := false |};
    (* 7 *)
    {| rule_guard :=
         negb (node_has PENDING nodes || node_has STEP_RUNNING nodes)
         && node_has STEP_FAILED nodes;
       rule_finish := Some (FAILED, "steps_failed");
       rule_reflection := true; rule_mode := ModeUnspecified;
       rule_clears_progress := false |};
    (* 8 *)
    {| rule_guard := bool_decide (max_steps c ≤ st_step_counter state);
       rule_finish := Some (FAILED, "max_steps_exceeded");
       rule_reflection := true; rule_mode := ModeSet "other";
       rule_clears_progress := false |};
    (* 9 *)
    {| rule_guard :=
         bool_decide (0 < st_step_counter state)
         && bool_decide (st_step_counter state `mod` reflection_interval_steps c = 0)
         && st_progress_made state;
       rule_finish := None;
       rule_reflection := true; rule_mode := ModeSetUnlessSet "low_confidence";
       rule_clears_progress := true |} ].



(** What the clients of the broker do with it. *)
Inductive BrokerOp :=
  | OpSubscribe (run_id : string)
  | OpPublish (event : Event)
  | OpNextEvent (run_id : string) (handle : nat)
  | OpUnsubscribe (run_id : string) (handle : nat).

Definition broker_apply (b : EventBroker.t) (op : BrokerOp) : EventBroker.t :=
  match op with
  | OpSubscribe run_id => (EventBroker.subscribe run_id b).2
  | OpPublish event => EventBroker.publish event b
  | OpNextEvent run_id h =>
      match EventBroker.next_event run_id h b with
      | Some (_, b') => b'
      | None => b
      end
  | OpUnsubscribe run_id h => EventBroker.unsubscribe run_id h b
  end.

(** The broker after a history of operations on a fresh one. *)
Definition broker_after (ops : list BrokerOp) : EventBroker.t :=
  foldl broker_apply EventBroker.init ops.

(** A buffer as [subscribe] makes it and [publish] keeps it. *)
Definition queue_ok (q : Queue.t) : Prop :=
  Queue.maxsize q = 256%nat ∧ (length (Queue.items q) ≤ 256)%nat.

Definition broker_ok (b : EventBroker.t) : Prop :=
  ∀ run_id qs h q,
    EventBroker.subscribers b !! run_id = Some qs → qs !! h = Some q → queue_ok q.

Definition run_totals_ok (r : Run) : Prop :=
  total_tokens r = total_prompt_tokens r + total_completion_tokens r.

(** Every run row has [total_tokens = total_prompt_tokens +
    total_completion_tokens]. *)
Definition totals_ok (w : World) : Prop :=
  ∀ id r, runs w !! id = Some r → run_totals_ok r.

(** A step status a finished step may have. *)
Definition terminal (s : StepStatus) : Prop :=
  s = STEP_COMPLETED ∨ s = STEP_FAILED ∨ s = SKIPPED ∨ s = STEP_CANCELED.

(** ** Scenarios *)

Module Scenario.

Definition node (id : string) (depends_on : list string) : Node :=
  {| node_id := id; node_name := id; node_description := "";
     node_depends_on := depends_on; node_status := PENDING;
     node_last_output := None; node_last_error := None |}.

Definition contract (allowed_tools : option (list string)) (max_retries : Z)
    (model_preference : string) : Contract :=
  {| c_allowed_tools := allowed_tools; c_timeout_s := Some 30;
     c_max_retries := Some max_retries;
     c_model_preference := Some model_preference |}.

Definition template (nodes : list Node) (contracts : gmap string Contract) : Template :=
  {| tpl_name := "scenario"; tpl_version := "1"; tpl_description := "";
     tpl_graph_nodes := nodes; tpl_graph_edges := [];
     tpl_contracts := contracts; tpl_created_at := 0; tpl_updated_at := 0 |}.

Definition constraints (max_steps interval : Z) : ConstraintsJson :=
  {| cj_budget_usd := None; cj_timeout_s := None;
     cj_max_steps := Some max_steps;
     cj_reflection_interval_steps := Some interval |}.

(** A provider that answers at once, with 10 prompt and 5 completion tokens. *)
Definition answers : LLMProvider :=
  λ _ model,
    Responds {| llm_provider := "mock"; llm_model := model; llm_content := "ok";
                llm_prompt_tokens := 10; llm_completion_tokens := 5 |} 0.

(** The id of the first run of a history that starts with one template. *)
Definition run : string := "uuid-0".

Definition turns (k : nat) : list Action := replicate k (WorkerTurn run answers).

(** One node whose contract allows no tool, so that every attempt fails with
    [tool_not_allowed]. *)
Definition failing_template (max_retries : Z) : Template :=
  template [node "a" []] {[ "a" := contract (Some []) max_retries "default" ]}.

(** Two retries allowed, at most one step: the first attempt fails, a retry is
    scheduled, and the monitor ends the run on [max_steps]. *)
Definition stopped_by_max_steps : list Action :=
  [PutTemplate "t" (failing_template 2); PostRun "task" None (constraints 1 2) "req"]
  ++ turns 10.

(** One retry allowed: the run fails after two attempts; then it is retried
    as a whole and fails again. *)
Definition failed_once : list Action :=
  [PutTemplate "t" (failing_template 1); PostRun "task" None (constraints 30 2) "req"]
  ++ turns 12.

Definition retried : list Action := failed_once ++ [PostRetry run None "req-2"].

Definition failed_twice : list Action := retried ++ turns 12.

(** Four nodes in a chain, every contract with [model_preference = cheap],
    a reflection every two steps. *)
Definition chain_template : Template :=
  template [node "a" []; node "b" ["a"]; node "c" ["b"]; node "d" ["c"]]
    {[ "a" := contract None 2 "cheap"; "b" := contract None 2 "cheap";
       "c" := contract None 2 "cheap"; "d" := contract None 2 "cheap" ]}.

Definition chain : list Action :=
  [PutTemplate "t" chain_template; PostRun "task" None (constraints 30 2) "req"]
  ++ turns 30.

(** A node that depends on an id no node has, in a run that is canceled
    before its worker starts. *)
Definition ghost_template : Template :=
  template [node "a" ["ghost"]] {[ "a" := contract None 2 "default" ]}.

Definition canceled_ghost : list Action :=
  [PutTemplate "t" ghost_template; PostRun "task" None (constraints 30 2) "req";
   PostCancel run "req-2"] ++ turns 10.

(** The same run left alone. *)
Definition deadlocked_ghost : list Action :=
  [PutTemplate "t" ghost_template; PostRun "task" None (constraints 30 2) "req"]
  ++ turns 10.

Definition world_after (history : list Action) : World :=
  sys_world (system_after default_settings history).

(** The status, attempts and max_retries of the step rows. *)
Definition step_summary (w : World) : list (string * string * StepStatus * Z * Z) :=
  (λ kr, (kr.1.1, kr.1.2, row_status kr.2, row_attempts kr.2, row_max_retries kr.2))
    <$> map_to_list (steps w).

Definition run_status_of (w : World) : option RunStatus :=
  run_status <$> runs w !! run.

Definition finish_events (w : World) : list Payload :=
  ev_payload <$> filter (λ e, ev_event_type e = "run_finished") (events w).

End Scenario.

(** A state as [_run_loop] builds it, over a given DAG. *)
Definition sample_state (dag : Dag) : State :=
  {| st_run_id := Scenario.run; st_task := "task"; st_template_id := None;
     st_constraints :=
       {| budget_usd := 200000000; timeout_s := 300; max_steps := 30;
          reflection_interval_steps := 2 |};
     st_dag := dag; st_step_counter := 0; st_progress_made := false;
     st_reflection_needed := false; st_reflection_reason := None;
     st_reflection_model_preference := None; st_failure_mode := None;
     st_should_finish := false; st_finish_status := None;
     st_finish_reason := None; st_run_started_monotonic := 0;
     st_request_id := "req" |}.

Definition failing_dag : Dag :=
  PlannerService.instantiate (Scenario.failing_template 2) "notes".

Definition ghost_dag : Dag :=
  PlannerService.instantiate Scenario.ghost_template "notes".

Definition tool_not_allowed : StepExecutionError :=
  {| see_code := TOOL_NOT_ALLOWED;
     see_message := "Contract does not allow llm.generate";
     see_details := DAllowedTools [] |}.

Definition sample_event : Event :=
  {| ev_id := "e"; ev_run_id := Scenario.run; ev_step_id := None;
     ev_event_type := "run_started"; ev_payload := PRunStarted "req" 0;
     ev_created_at := 0 |}.

(** ** The broker over sequences of events *)

(** [publish] called for each event of a list, in order. *)
Definition publish_all (events : list Event) (b : EventBroker.t) : EventBroker.t :=
  foldl (λ b e, EventBroker.publish e b) b events.

(** The [while True] loop of [subscribe] for as long as [queue.get()] finds
    an event, at most [fuel] times: the events the subscriber yields and the
    broker it leaves. *)
Fixpoint drain (fuel : nat) (run_id : string) (h : nat) (b : EventBroker.t)
    : list Event * EventBroker.t :=
  match fuel with
  | O => ([], b)
  | S fuel =>
      match EventBroker.next_event run_id h b with
      | Some (e, b') => let '(es, b'') := drain fuel run_id h b' in (e :: es, b'')
      | None => ([], b)
      end
  end.

(** The newest [n] elements of a list. *)
Definition newest {A} (n : nat) (l : list A) : list A := drop (length l - n) l.

(** The queue object [h] of the subscribers of [run_id], if there is one. *)
Definition queue_of (b : EventBroker.t) (run_id : string) (h : nat) : option Queue.t :=
  EventBroker.subscribers b !! run_id ≫= (.!! h).

(** Every handle in use was handed out by [subscribe]. *)
Definition handles_fresh (b : EventBroker.t) : Prop :=
  ∀ run_id h, is_Some (queue_of b run_id h) → (h < EventBroker.next_handle b)%nat.

(** ** The nodes downstream of a failed node *)

(** There is an edge from [a] to [b]. *)
Definition edge_rel (edges : list Edge) (a b : string) : Prop :=
  {| edge_source := a; edge_target := b |} ∈ edges.

(** [id] is the id of a failed node or can be reached from one along the
    edges of the DAG. *)
Definition downstream_of_failed (dag : Dag) (id : string) : Prop :=
  ∃ f, f ∈ dag_nodes dag ∧ node_status f = STEP_FAILED
       ∧ rtc (edge_rel (dag_edges dag)) (node_id f) id.

(** The ids of the failed nodes. *)
Definition failed_ids_of (dag : Dag) : gset string :=
  list_to_set (node_id <$> filter (λ n, node_status n = STEP_FAILED) (dag_nodes dag)).

(** What [_skip_failed_descendants] turns a node into that it skips. *)
Definition skipped_node (dag : Dag) (n : Node) : Node :=
  node_set_last_error
    (Some {| err_code := "execution_error";
             err_message := "Skipped due to upstream failure during replanning";
             err_details :=
               DUpstream (merge_sort string_le (elements (failed_ids_of dag))) |})
    (node_set_status SKIPPED n).

(** ** The cost ledger against the totals of the runs *)

(** The sum of one column over the ledger entries of a run, as
    [list_cost_entries] selects them. *)
Definition ledger_sum (f : CostEntry → Z) (run_id : string) (w : World) : Z :=
  foldr (λ c acc, f c + acc) 0 (Repository.list_cost_entries run_id w).

(** The four totals of a run row are the sums of its ledger entries. *)
Definition run_billed (w : World) (run_id : string) (r : Run) : Prop :=
  total_prompt_tokens r = ledger_sum cost_prompt_tokens run_id w
  ∧ total_completion_tokens r = ledger_sum cost_completion_tokens run_id w
  ∧ total_tokens r = ledger_sum cost_total_tokens run_id w
  ∧ total_usd r = ledger_sum cost_usd run_id w.

Definition run_totals (r : Run) : Z * Z * Z * Z :=
  (total_prompt_tokens r, total_completion_tokens r, total_tokens r, total_usd r).

(** Every run is billed by the ledger, every ledger entry names a stored run,
    and the ids of the runs were drawn from the uuid source. *)
Definition ledger_ok (w : World) : Prop :=
  (∀ id r, runs w !! id = Some r → run_billed w id r)
  ∧ (∀ c, c ∈ cost_ledger w → is_Some (runs w !! cost_run_id c))
  ∧ (∀ id, is_Some (runs w !! id) →
       ∃ k, (k < next_uuid w)%nat ∧ id = "uuid-" +:+ pretty k).

(** [ledger_ok] for the worker of the stored run [run_id], in a world that
    has the runs of [w0]. *)
Definition books_ok (w0 : World) (run_id : string) (w : World) : Prop :=
  ledger_ok w ∧ is_Some (runs w !! run_id)
  ∧ ∀ i, is_Some (runs w0 !! i) → is_Some (runs w !! i).

(** Every worker belongs to a stored run, and the state of its loop names
    that run. *)
Definition workers_ok (s : System) : Prop :=
  ∀ id t, sys_tasks s !! id = Some t →
    is_Some (runs (sys_world s) !! id)
    ∧ ∀ current state, t = Looping current state → st_run_id state = id.

(** ** What the store keeps *)

Definition created_le (a b : Event) : Prop := ev_created_at a ≤ ev_created_at b.

(** The store of [w'] holds what the store of [w] holds: the events and the
    cost entries of [w] in their places, followed by later ones; the runs of
    [w] with the columns a run is created with; the step rows and the
    templates of [w], whatever their content; and the clock has not gone
    back.  The later events are dated between the two clocks, in the order of
    their dates. *)
Definition grows (w w' : World) : Prop :=
  (∃ l, events w' = events w ++ l
        ∧ Forall (λ e, now w ≤ ev_created_at e ≤ now w') l
        ∧ StronglySorted created_le l)
  ∧ cost_ledger w `prefix_of` cost_ledger w'
  ∧ (∀ id r, runs w !! id = Some r →
       ∃ r', runs w' !! id = Some r'
             ∧ run_task r' = run_task r
             ∧ run_template_id r' = run_template_id r
             ∧ run_constraints r' = run_constraints r
             ∧ run_created_at r' = run_created_at r
             ∧ run_metadata r' = run_metadata r)
  ∧ (∀ k, is_Some (steps w !! k) → is_Some (steps w' !! k))
  ∧ (∀ id, is_Some (templates w !! id) → is_Some (templates w' !! id))
  ∧ now w ≤ now w'.

(** ** The columns of a run that the nodes of the graph leave alone *)

(** Every run of [w] is a run of [w'] with the same status, cancel flag,
    start and end. *)
Definition run_status_kept (w w' : World) : Prop :=
  ∀ id run, runs w !! id = Some run →
    ∃ run', runs w' !! id = Some run'
            ∧ run_status run' = run_status run
            ∧ cancel_requested run' = cancel_requested run
            ∧ run_started_at run' = run_started_at run
            ∧ run_ended_at run' = run_ended_at run.

(** ** Further scenarios *)

(** The DAG of [Scenario.chain_template]. *)
Definition chain_dag : Dag :=
  PlannerService.instantiate Scenario.chain_template "notes".

(** Further histories and inputs for the properties on concrete runs. *)
Module Cases.

(** A run over the chain template that was created and has not started. *)
Definition created : list Action :=
  [PutTemplate "t" Scenario.chain_template;
   PostRun "task" None (Scenario.constraints 30 2) "req"].

(** A run that was created while the store holds no template. *)
Definition no_template : list Action :=
  [PostRun "task" None (Scenario.constraints 30 2) "req"].

(** A run whose cancellation is requested before its worker starts. *)
Definition cancel_first : list Action :=
  [PutTemplate "t" (Scenario.failing_template 2);
   PostRun "task" None (Scenario.constraints 30 2) "req";
   PostCancel Scenario.run "req-2"].

(** What [Scenario.answers] returns for the cheap model. *)
Definition answer : LLMCallResult :=
  {| llm_provider := "mock"; llm_model := "mock-cheap"; llm_content := "ok";
     llm_prompt_tokens := 10; llm_completion_tokens := 5 |}.

(** A state of the run of [created] after one step, with a reflection
    interval of 0. *)
Definition zero_interval : State :=
  {| st_run_id := Scenario.run; st_task := "task"; st_template_id := None;
     st_constraints :=
       {| budget_usd := 200000000; timeout_s := 300; max_steps := 30;
          reflection_interval_steps := 0 |};
     st_dag := chain_dag; st_step_counter := 1; st_progress_made := true;
     st_reflection_needed := false; st_reflection_reason := None;
     st_reflection_model_preference := None; st_failure_mode := None;
     st_should_finish := false; st_finish_status := None;
     st_finish_reason := None; st_run_started_monotonic := 0;
     st_request_id := "req" |}.





End Cases.

(** * Properties *)

(** ** The DAG: node lookup and runnable nodes *)

Section dag_facts.

Implicit Types (l nodes : list Node) (n m : Node) (k dep : string).

Lemma node_map_snoc l n : node_map (l ++ [n]) = <[node_id n := n]> (node_map l).
Proof. unfold node_map. by rewrite foldl_app. Qed.

(** An id that no node carries is absent from the node map. *)
Lemma node_map_lookup_None l k : node_map l !! k = None ↔ k ∉ node_id <$> l.
Proof.
  induction l as [|n l IH] using rev_ind.
  - split; [intros _; apply not_elem_of_nil | done].
  - rewrite node_map_snoc, fmap_app, not_elem_of_app, list_fmap_singleton,
      list_elem_of_singleton.
    destruct (decide (node_id n = k)) as [Heq|Hne].
    + rewrite Heq, lookup_insert_eq. split; [done | intros [_ H]; by destruct H].
    + rewrite lookup_insert_ne by done. rewrite IH. split; [|tauto].
      intros H. split; [done | congruence].
Qed.


Lemma dep_completed_missing l dep :
  dep ∉ node_id <$> l → dep_completed (node_map l) dep = false.
Proof.
  intros H. apply node_map_lookup_None in H. unfold dep_completed. by rewrite H.
Qed.

Lemma runnable_true (mp : gmap string Node) n :
  ExecutorService.runnable mp n = true ↔
  node_status n = PENDING ∧
  ∀ dep, dep ∈ node_depends_on n → dep_completed mp dep = true.
Proof.
  unfold ExecutorService.runnable.
  rewrite andb_true_iff, bool_decide_eq_true, forallb_forall.
  setoid_rewrite <- list_elem_of_In. done.
Qed.


(** A dependency on an id that is not in the DAG keeps a node from being
    runnable. *)
Lemma runnable_missing_dep nodes n dep :
  dep ∈ node_depends_on n → dep ∉ node_id <$> nodes →
  ExecutorService.runnable (node_map nodes) n = false.
Proof.
  intros Hin Hmiss. apply not_true_is_false. rewrite runnable_true.
  intros [_ Hd]. specialize (Hd dep Hin).
  by rewrite dep_completed_missing in Hd.
Qed.

Lemma has_runnable_true dag :
  MonitorService._has_runnable_nodes dag = true ↔
  ∃ j m, dag_nodes dag !! j = Some m ∧
         ExecutorService.runnable (node_map (dag_nodes dag)) m = true.
Proof.
  unfold MonitorService._has_runnable_nodes. rewrite existsb_exists. split.
  - intros (m & Hin & Hr). apply list_elem_of_In, list_elem_of_lookup in Hin as [j Hj].
    eauto.
  - intros (j & m & Hj & Hr). exists m. split; [|done].
    apply list_elem_of_In, list_elem_of_lookup. eauto.
Qed.

(** The monitor and the executor agree on whether a runnable node exists. *)
Lemma has_runnable_next dag :
  MonitorService._has_runnable_nodes dag = true ↔
  is_Some (ExecutorService._next_runnable_node dag).
Proof.
  rewrite has_runnable_true. unfold ExecutorService._next_runnable_node. split.
  - intros (j & m & Hj & Hr).
    destruct (list_find _ (dag_nodes dag)) as [p|] eqn:Hf; [done|].
    apply list_find_None in Hf. rewrite Forall_forall in Hf.
    exfalso. eapply Hf; [|done]. apply list_elem_of_lookup. eauto.
  - intros [[j m] Hf]. apply list_find_Some in Hf as (Hj & Hr & _). eauto.
Qed.

End dag_facts.

(** ** How the operations of the repository move the tables *)

Section world_facts.

Implicit Types (w : World) (p : Step) (r : StepRow).

Lemma upsert_step_steps p w :
  ∃ r, steps (Repository.upsert_step p w)
       = <[(step_run_id p, step_node_id p) := r]> (steps w)
       ∧ row_matches r p ∧ (step_id p ≠ "" → row_id r = step_id p).
Proof.
  unfold Repository.upsert_step.
  destruct (decide (step_id p = "")); cbn; eexists; (split; [reflexivity|]);
    (split; [by repeat split | done]).
Qed.

Lemma upsert_step_other p w :
  runs (Repository.upsert_step p w) = runs w ∧
  events (Repository.upsert_step p w) = events w ∧
  cost_ledger (Repository.upsert_step p w) = cost_ledger w ∧
  now (Repository.upsert_step p w) = now w.
Proof. unfold Repository.upsert_step. by destruct (decide (step_id p = "")). Qed.

Lemma emit_event_events run_id step event_type payload w :
  events (_emit_event run_id step event_type payload w)
  = events w ++ [emitted run_id step event_type payload w].
Proof. reflexivity. Qed.

Lemma emit_event_other run_id step event_type payload w :
  runs (_emit_event run_id step event_type payload w) = runs w ∧
  steps (_emit_event run_id step event_type payload w) = steps w ∧
  cost_ledger (_emit_event run_id step event_type payload w) = cost_ledger w ∧
  now (_emit_event run_id step event_type payload w) = now w.
Proof. done. Qed.

Lemma update_run_other run_id fields w :
  steps (Repository.update_run run_id fields w) = steps w ∧
  events (Repository.update_run run_id fields w) = events w ∧
  cost_ledger (Repository.update_run run_id fields w) = cost_ledger w ∧
  now (Repository.update_run run_id fields w) = now w.
Proof. done. Qed.

End world_facts.

(** ** The retry path of the executor *)

Lemma map_failure_mode_value (c : FailureCode) :
  ExecutorService._map_failure_mode (FailureCode_value c) = mapped_failure_mode c.
Proof. by destruct c. Qed.

(** C5.  The structured error of a failing attempt is the code, the message
    and the details of the exception.  A failing attempt with
    [attempts <= max_retries] leaves the step row pending with its attempts
    and that structured error, the node pending with that error, one more
    [step_retry_scheduled] event whose [backoff_s] is [min(2^(attempts-1), 8)]
    and which carries the error, and the step counter one higher.  A failing
    attempt with [attempts > max_retries] leaves the step row failed with
    [ended_at] and the error, the node failed with the error,
    [reflection_needed] set, the failure mode mapped from the code (timeout to
    timeout, schema_error to schema_error, anything else to other) and one
    more [step_failed] event that carries the error. *)
Theorem handle_step_error_retry_or_fail
    (state : State) (step : string) (i : nat) (n : Node)
    (attempts max_retries started_at : Z) (error : StepExecutionError) (w : World) :
  1 ≤ attempts →
  (i < length (dag_nodes (st_dag state)))%nat →
  let res := ExecutorService._handle_step_error state step (i, n) attempts
               max_retries started_at error w in
  let serr :=
    {| err_code := FailureCode_value (see_code error);
       err_message := see_message error;
       err_details := see_details error |} in
  (attempts ≤ max_retries →
     (∃ r, steps res.2 !! (st_run_id state, node_id n) = Some r
           ∧ row_status r = PENDING ∧ row_attempts r = attempts
           ∧ row_max_retries r = max_retries ∧ row_error r = Some serr)
     ∧ (∃ n', dag_nodes (st_dag res.1) !! i = Some n'
              ∧ node_id n' = node_id n ∧ node_status n' = PENDING
              ∧ node_last_error n' = Some serr)
     ∧ (∃ e, events res.2 = events w ++ [e]
             ∧ ev_run_id e = st_run_id state
             ∧ ev_event_type e = "step_retry_scheduled"
             ∧ ev_payload e = PStepRetryScheduled (node_id n) attempts max_retries
                                (Z.min (2 ^ (attempts - 1)) 8) serr)
     ∧ st_step_counter res.1 = st_step_counter state + 1)
  ∧ (max_retries < attempts →
     (∃ r, steps res.2 !! (st_run_id state, node_id n) = Some r
           ∧ row_status r = STEP_FAILED ∧ row_attempts r = attempts
           ∧ row_ended_at r = Some (now w) ∧ row_error r = Some serr)
     ∧ (∃ n', dag_nodes (st_dag res.1) !! i = Some n'
              ∧ node_id n' = node_id n ∧ node_status n' = STEP_FAILED
              ∧ node_last_error n' = Some serr)
     ∧ st_reflection_needed res.1 = true
     ∧ st_failure_mode res.1 = Some (mapped_failure_mode (see_code error))
     ∧ (∃ e, events res.2 = events w ++ [e]
             ∧ ev_run_id e = st_run_id state
             ∧ ev_event_type e = "step_failed"
             ∧ ev_payload e = PStepFailed (node_id n) serr)).
Proof.
  intros _ Hi res serr. subst res serr.
  unfold ExecutorService._handle_step_error.
  case_bool_decide as Hle; (split; intros Hcase; [try lia | try lia]).
  - cbn.
    match goal with
    | |- context [Repository.upsert_step ?p w] =>
        destruct (upsert_step_steps p w) as (r & Hs & Hm & _);
        destruct (upsert_step_other p w) as (_ & He & _)
    end.
    rewrite Hs, He. destruct Hm as (? & ? & ? & ? & ? & ? & ? & ? & ? & ?).
    cbn in *. repeat split.
    + exists r. rewrite lookup_insert_eq. by repeat split.
    + eexists. split; [by apply list_lookup_insert_eq|]. by repeat split.
    + eexists. split; [reflexivity|]. by repeat split.
  - cbn.
    match goal with
    | |- context [Repository.upsert_step ?p w] =>
        destruct (upsert_step_steps p w) as (r & Hs & Hm & _);
        destruct (upsert_step_other p w) as (_ & He & _)
    end.
    rewrite Hs, He. destruct Hm as (? & ? & ? & ? & ? & ? & ? & ? & ? & ?).
    cbn in *. repeat split.
    + exists r. rewrite lookup_insert_eq. by repeat split.
    + eexists. split; [by apply list_lookup_insert_eq|]. by repeat split.
    + by rewrite map_failure_mode_value.
    + eexists. split; [reflexivity|]. by repeat split.
Qed.

(** ** One tick of the executor, phase by phase *)

Section executor_facts.

Context (settings : Settings) (provider : LLMProvider).

Lemma prepare_spec state request_id i n w :
  let res := ExecutorService.prepare state request_id (i, n) w in
  let p := res.1.1 in
  pr_node p = (i, node_set_status STEP_RUNNING n)
  ∧ pr_contract p = default empty_contract (dag_contracts (st_dag state) !! node_id n)
  ∧ st_progress_made res.1.2 = true
  ∧ st_run_id res.1.2 = st_run_id state
  ∧ st_step_counter res.1.2 = st_step_counter state
  ∧ st_reflection_model_preference res.1.2 = st_reflection_model_preference state
  ∧ ∃ e, events res.2 = events w ++ [e]
         ∧ ev_run_id e = st_run_id state
         ∧ ev_event_type e = "step_started"
         ∧ ev_payload e = PStepStarted (node_id n) (pr_attempts p).
Proof.
  unfold ExecutorService.prepare, Repository.get_step_by_node. cbn.
  destruct (steps w !! (st_run_id state, node_id n)) as [r|]; cbn.
  - match goal with
    | |- context [Repository.upsert_step ?p ?w'] =>
        unfold Repository.upsert_step; destruct (decide (step_id p = "")); cbn
    end; repeat split; by eexists.
  - repeat split; by eexists.
Qed.






End executor_facts.

(** ** The monitor against the decision table of the specification *)

Lemma existsb_fmap {A B} (f : B → bool) (g : A → B) (l : list A) :
  existsb f (g <$> l) = existsb (λ a, f (g a)) l.
Proof. induction l as [|a l IH]; cbn; [done | by rewrite IH]. Qed.

Lemma forallb_fmap {A B} (f : B → bool) (g : A → B) (l : list A) :
  forallb f (g <$> l) = forallb (λ a, f (g a)) l.
Proof. induction l as [|a l IH]; cbn; [done | by rewrite IH]. Qed.

Lemma existsb_ext' {A} (f g : A → bool) (l : list A) :
  (∀ a, f a = g a) → existsb f l = existsb g l.
Proof. intros H. induction l as [|a l IH]; cbn; [done | by rewrite H, IH]. Qed.

Lemma forallb_ext' {A} (f g : A → bool) (l : list A) :
  (∀ a, f a = g a) → forallb f l = forallb g l.
Proof. intros H. induction l as [|a l IH]; cbn; [done | by rewrite H, IH]. Qed.

Lemma existsb_or {A} (f g : A → bool) (l : list A) :
  existsb (λ a, f a || g a) l = existsb f l || existsb g l.
Proof.
  induction l as [|a l IH]; cbn; [done|]. rewrite IH.
  destruct (f a), (g a), (existsb f l), (existsb g l); done.
Qed.

Lemma status_in_pair (s a b : StepStatus) :
  MonitorService.status_in s [a; b] = bool_decide (s = a) || bool_decide (s = b).
Proof.
  unfold MonitorService.status_in. rewrite <- bool_decide_or.
  apply bool_decide_ext. rewrite !elem_of_cons, elem_of_nil. tauto.
Qed.

(** [evaluate] as a cascade over the guards of the table. *)
Lemma evaluate_cascade (state : State) (w : World) :
  reflection_interval_steps (st_constraints state) ≠ 0 →
  let run := Repository.get_run (st_run_id state) w in
  let elapsed := Z.quot (now w - st_run_started_monotonic state) 1000 in
  let g (k : nat) : bool :=
    default false (rule_guard <$> spec_rules state run elapsed !! k) in
  MonitorService.evaluate state w =
  Ok (if g 0%nat then set_finish FAILED "run_missing" state
      else if g 1%nat then set_finish CANCELED "cancel_requested" state
      else if g 2%nat then
        set_reflection true (Some "Run timeout exceeded") (Some "timeout")
          (set_finish FAILED "timeout" state)
      else if g 3%nat then
        set_reflection true (Some "Budget cap exceeded") (Some "budget_risk")
          (set_finish FAILED "budget_exceeded" state)
      else if g 4%nat then set_finish COMPLETED "all_steps_completed" state
      else if g 5%nat then
        set_reflection true (Some "No runnable steps due to unmet dependencies")
          (Some (py_or (st_failure_mode state) "other"))
          (set_finish FAILED "dependency_deadlock" state)
      else if g 6%nat then
        set_reflection true (Some "One or more steps failed")
          (Some (py_or (st_failure_mode state) "other"))
          (set_finish FAILED "steps_failed" state)
      else if g 7%nat then
        set_reflection true (Some "Max steps exceeded") (Some "other")
          (set_finish FAILED "max_steps_exceeded" state)
      else if g 8%nat then
        set_progress_made false
          (set_reflection true (Some "Periodic reflection boundary reached")
             (Some (py_or (st_failure_mode state) "low_confidence")) state)
      else state).
Proof.
  intros Hint run elapsed g. subst run elapsed g.
  unfold MonitorService.evaluate, spec_rules.
  destruct (Repository.get_run _ _) as [r|]; cbn -[Z.quot]; [|done].
  destruct (cancel_requested r); cbn -[Z.quot]; [done|].
  destruct (decide (reflection_interval_steps (st_constraints state) = 0))
    as [?|_]; [done|].
  unfold MonitorService._has_runnable_nodes, node_has.
  rewrite !existsb_fmap, forallb_fmap.
  rewrite (forallb_ext' _ (λ n, bool_decide (node_status n = STEP_COMPLETED
                                             ∨ node_status n = SKIPPED))); last first.
  { intros x. rewrite status_in_pair, <- bool_decide_or. done. }
  rewrite (existsb_ext' (λ a, MonitorService.status_in _ _)
             (λ n, bool_decide (node_status n = PENDING)
                   || bool_decide (node_status n = STEP_RUNNING)));
    [|intros x; apply status_in_pair].
  rewrite existsb_or.
  set (nodes := dag_nodes (st_dag state)).
  assert (bool_decide ((node_status <$> nodes) ≠ []) = bool_decide (nodes ≠ []))
    as -> by (by destruct nodes).
  generalize (bool_decide (nodes ≠ ([] : list Node))).
  generalize (existsb (ExecutorService.runnable (node_map nodes)) nodes).
  generalize (forallb (λ n, bool_decide (node_status n = STEP_COMPLETED
                                         ∨ node_status n = SKIPPED)) nodes).
  generalize (existsb (λ a, bool_decide (node_status a = STEP_RUNNING)) nodes).
  generalize (existsb (λ a, bool_decide (node_status a = PENDING)) nodes).
  generalize (existsb (λ a, bool_decide (node_status a = STEP_FAILED)) nodes).
  generalize (bool_decide (timeout_s (st_constraints state)
                           ≤ (now w - st_run_started_monotonic state) `quot` 1000)).
  generalize (bool_decide (budget_usd (st_constraints state) ≤ total_usd r)).
  generalize (bool_decide (max_steps (st_constraints state) ≤ st_step_counter state)).
  generalize (bool_decide (0 < st_step_counter state)).
  generalize (bool_decide (st_step_counter state
                           `mod` reflection_interval_steps (st_constraints state) = 0)).
  generalize (st_progress_made state).
  clearbody nodes.
  intros progress on_boundary positive over_steps over_budget timed_out
    has_failed has_pending has_running all_done has_runnable nonempty.
  destruct timed_out; [done|]. destruct over_budget; [done|].
  destruct all_done, nonempty, has_runnable, has_pending, has_running; try done;
    destruct has_failed; try done;
    destruct over_steps; try done;
    destruct positive; try done;
    destruct on_boundary; try done;
    by destruct progress.
Qed.

(** [evaluate] with a zero interval, as a cascade over the guards of the
    rules 1 to 8. *)
Lemma evaluate_cascade_zero (state : State) (w : World) :
  reflection_interval_steps (st_constraints state) = 0 →
  let run := Repository.get_run (st_run_id state) w in
  let elapsed := Z.quot (now w - st_run_started_monotonic state) 1000 in
  let g (k : nat) : bool :=
    default false (rule_guard <$> spec_rules state run elapsed !! k) in
  MonitorService.evaluate state w =
  if g 0%nat then Ok (set_finish FAILED "run_missing" state)
  else if g 1%nat then Ok (set_finish CANCELED "cancel_requested" state)
  else if g 2%nat then
    Ok (set_reflection true (Some "Run timeout exceeded") (Some "timeout")
          (set_finish FAILED "timeout" state))
  else if g 3%nat then
    Ok (set_reflection true (Some "Budget cap exceeded") (Some "budget_risk")
          (set_finish FAILED "budget_exceeded" state))
  else if g 4%nat then Ok (set_finish COMPLETED "all_steps_completed" state)
  else if g 5%nat then
    Ok (set_reflection true (Some "No runnable steps due to unmet dependencies")
          (Some (py_or (st_failure_mode state) "other"))
          (set_finish FAILED "dependency_deadlock" state))
  else if g 6%nat then
    Ok (set_reflection true (Some "One or more steps failed")
          (Some (py_or (st_failure_mode state) "other"))
          (set_finish FAILED "steps_failed" state))
  else if g 7%nat then
    Ok (set_reflection true (Some "Max steps exceeded") (Some "other")
          (set_finish FAILED "max_steps_exceeded" state))
  else if bool_decide (0 < st_step_counter state) then
    Raise modulo_by_zero
  else Ok state.
Proof.
  intros Hint run elapsed g. subst run elapsed g.
  unfold MonitorService.evaluate, spec_rules.
  destruct (Repository.get_run _ _) as [r|]; cbn -[Z.quot]; [|done].
  destruct (cancel_requested r); cbn -[Z.quot]; [done|].
  destruct (decide (reflection_interval_steps (st_constraints state) = 0))
    as [_|?]; [|done].
  unfold MonitorService._has_runnable_nodes, node_has.
  rewrite !existsb_fmap, forallb_fmap.
  rewrite (forallb_ext' _ (λ n, bool_decide (node_status n = STEP_COMPLETED
                                             ∨ node_status n = SKIPPED))); last first.
  { intros x. rewrite status_in_pair, <- bool_decide_or. done. }
  rewrite (existsb_ext' (λ a, MonitorService.status_in _ _)
             (λ n, bool_decide (node_status n = PENDING)
                   || bool_decide (node_status n = STEP_RUNNING)));
    [|intros x; apply status_in_pair].
  rewrite existsb_or.
  set (nodes := dag_nodes (st_dag state)).
  assert (bool_decide ((node_status <$> nodes) ≠ []) = bool_decide (nodes ≠ []))
    as -> by (by destruct nodes).
  generalize (bool_decide (nodes ≠ ([] : list Node))).
  generalize (existsb (ExecutorService.runnable (node_map nodes)) nodes).
  generalize (forallb (λ n, bool_decide (node_status n = STEP_COMPLETED
                                         ∨ node_status n = SKIPPED)) nodes).
  generalize (existsb (λ a, bool_decide (node_status a = STEP_RUNNING)) nodes).
  generalize (existsb (λ a, bool_decide (node_status a = PENDING)) nodes).
  generalize (existsb (λ a, bool_decide (node_status a = STEP_FAILED)) nodes).
  generalize (bool_decide (timeout_s (st_constraints state)
                           ≤ (now w - st_run_started_monotonic state) `quot` 1000)).
  generalize (bool_decide (budget_usd (st_constraints state) ≤ total_usd r)).
  generalize (bool_decide (max_steps (st_constraints state) ≤ st_step_counter state)).
  generalize (bool_decide (0 < st_step_counter state)).
  clearbody nodes.
  intros positive over_steps over_budget timed_out
    has_failed has_pending has_running all_done has_runnable nonempty.
  destruct timed_out; [done|]. destruct over_budget; [done|].
  destruct all_done, nonempty, has_runnable, has_pending, has_running; try done;
    destruct has_failed; try done;
    destruct over_steps; try done;
    by destruct positive.
Qed.


(** ** The event broker *)

Section broker_facts.

Implicit Types (b : EventBroker.t) (q : Queue.t) (e event : Event).

Lemma full_iff q :
  queue_ok q → Queue.full q = bool_decide (length (Queue.items q) = 256%nat).
Proof.
  intros [Hm Hl]. unfold Queue.full. rewrite Hm.
  repeat case_bool_decide; cbn; try done; lia.
Qed.

Lemma publish_queue_items event q :
  queue_ok q →
  Queue.items (EventBroker.publish_queue event q)
  = (if decide (length (Queue.items q) = 256%nat)
     then drop 1 (Queue.items q) else Queue.items q) ++ [event]
  ∧ Queue.maxsize (EventBroker.publish_queue event q) = 256%nat.
Proof.
  intros Hok. pose proof Hok as [Hm Hl].
  unfold EventBroker.publish_queue. rewrite (full_iff q Hok).
  case_bool_decide as Hfull.
  - rewrite decide_True by done. unfold Queue.get_nowait.
    destruct (Queue.items q) as [|old rest] eqn:Hitems; [done|].
    unfold Queue.put_nowait, Queue.full. cbn in *. rewrite Hm.
    rewrite (bool_decide_eq_false_2 (256 ≤ length rest)%nat) by lia.
    rewrite andb_false_r. done.
  - rewrite decide_False by done.
    unfold Queue.put_nowait. rewrite (full_iff q Hok).
    rewrite bool_decide_eq_false_2 by done. done.
Qed.

Lemma publish_queue_ok event q : queue_ok q → queue_ok (EventBroker.publish_queue event q).
Proof.
  intros Hok. destruct (publish_queue_items event q Hok) as [Hi Hm].
  split; [done|]. rewrite Hi, length_app. destruct Hok as [_ Hl]. cbn.
  case_decide; [rewrite length_drop|]; lia.
Qed.

Lemma init_ok : broker_ok EventBroker.init.
Proof. intros run_id qs h q H. cbn in H. by rewrite lookup_empty in H. Qed.

Lemma publish_ok event b : broker_ok b → broker_ok (EventBroker.publish event b).
Proof.
  intros Hok run_id qs h q. unfold EventBroker.publish.
  destruct (EventBroker.subscribers b !! ev_run_id event) as [qs0|] eqn:Hqs0;
    [|by apply Hok].
  cbn. destruct (decide (ev_run_id event = run_id)) as [<-|Hne].
  - rewrite lookup_insert_eq. intros [= <-]. rewrite lookup_fmap.
    destruct (qs0 !! h) as [q0|] eqn:Hq0; [|done]. intros [= <-].
    apply publish_queue_ok. by eapply Hok.
  - rewrite lookup_insert_ne by done. by apply Hok.
Qed.

Lemma subscribe_ok run_id b : broker_ok b → broker_ok (EventBroker.subscribe run_id b).2.
Proof.
  intros Hok rid qs h q. cbn. destruct (decide (run_id = rid)) as [<-|Hne].
  - rewrite lookup_insert_eq. intros [= <-].
    destruct (decide (EventBroker.next_handle b = h)) as [<-|Hh].
    + rewrite lookup_insert_eq. intros [= <-]. split; cbn; [done | lia].
    + rewrite lookup_insert_ne by done.
      destruct (EventBroker.subscribers b !! run_id) as [qs0|] eqn:Hqs0; cbn.
      * intros Hq. by eapply Hok.
      * by rewrite lookup_empty.
  - rewrite lookup_insert_ne by done. by apply Hok.
Qed.

Lemma next_event_ok run_id h b e b' :
  broker_ok b → EventBroker.next_event run_id h b = Some (e, b') → broker_ok b'.
Proof.
  intros Hok. unfold EventBroker.next_event.
  destruct (EventBroker.subscribers b !! run_id) as [qs0|] eqn:Hqs0; [|done]. cbn.
  destruct (qs0 !! h) as [q0|] eqn:Hq0; [|done]. cbn.
  unfold Queue.get_nowait.
  destruct (Queue.items q0) as [|x rest] eqn:Hitems; [done|]. cbn.
  intros [= <- <-] rid qs h' q. cbn.
  destruct (decide (run_id = rid)) as [<-|Hne].
  - rewrite lookup_insert_eq. intros [= <-].
    destruct (decide (h = h')) as [<-|Hh].
    + rewrite lookup_insert_eq. intros [= <-].
      destruct (Hok _ _ _ _ Hqs0 Hq0) as [Hm Hl]. rewrite Hitems in Hl.
      split; cbn in *; [done | lia].
    + rewrite lookup_insert_ne by done. intros Hq. by eapply Hok.
  - rewrite lookup_insert_ne by done. by apply Hok.
Qed.

Lemma unsubscribe_ok run_id h b : broker_ok b → broker_ok (EventBroker.unsubscribe run_id h b).
Proof.
  intros Hok rid qs h' q. cbn. destruct (decide (run_id = rid)) as [<-|Hne].
  - rewrite lookup_insert_eq. intros [= <-]. intros Hq.
    apply lookup_delete_Some in Hq as [_ Hq].
    destruct (EventBroker.subscribers b !! run_id) as [qs0|] eqn:Hqs0; cbn in Hq.
    + by eapply Hok.
    + by rewrite lookup_empty in Hq.
  - rewrite lookup_insert_ne by done. by apply Hok.
Qed.

(** Every buffer of a broker that was only used through its operations has
    capacity 256 and holds at most 256 events. *)
Lemma broker_after_ok (ops : list BrokerOp) : broker_ok (broker_after ops).
Proof.
  unfold broker_after. induction ops as [|op ops IH] using rev_ind.
  - apply init_ok.
  - rewrite foldl_app. cbn. destruct op as [rid|ev|rid h|rid h]; cbn.
    + by apply subscribe_ok.
    + by apply publish_ok.
    + destruct (EventBroker.next_event rid h _) as [[e b']|] eqn:Hn; [|done].
      by eapply next_event_ok.
    + by apply unsubscribe_ok.
Qed.

(** C8.  In a broker that was used through [subscribe], [publish], the
    consumers' reads and unsubscription only, [publish] puts the event at the
    end of the buffer of every current subscriber of its run: when the buffer
    holds 256 events its oldest event, and only that one, is dropped first;
    afterwards the event is the newest in the buffer and the buffer holds at
    most 256 events (its capacity). *)
Theorem publish_drops_oldest_keeps_newest
    (ops : list BrokerOp) (event : Event) (qs : gmap nat Queue.t) (h : nat) (q : Queue.t) :
  let b := broker_after ops in
  EventBroker.subscribers b !! ev_run_id event = Some qs →
  qs !! h = Some q →
  ∃ qs' q',
    EventBroker.subscribers (EventBroker.publish event b) !! ev_run_id event = Some qs'
    ∧ dom qs' = dom qs
    ∧ qs' !! h = Some q'
    ∧ Queue.maxsize q' = 256%nat
    ∧ Queue.items q'
      = (if decide (length (Queue.items q) = 256%nat)
         then drop 1 (Queue.items q) else Queue.items q) ++ [event]
    ∧ last (Queue.items q') = Some event
    ∧ (length (Queue.items q') ≤ 256)%nat.
Proof.
  intros b Hqs Hq.
  assert (queue_ok q) as Hok by (by eapply (broker_after_ok ops)).
  destruct (publish_queue_items event q Hok) as [Hitems Hmax].
  exists (EventBroker.publish_queue event <$> qs), (EventBroker.publish_queue event q).
  unfold EventBroker.publish. fold b. rewrite Hqs. cbn.
  rewrite lookup_insert_eq, lookup_fmap, Hq, dom_fmap_L.
  repeat split; try done.
  - rewrite Hitems. apply last_snoc.
  - by apply publish_queue_ok.
Qed.

End broker_facts.

(** ** The token totals of a run *)

Create HintDb totals.

Section totals_facts.

Context (settings : Settings).

Implicit Types (w : World) (s : System).

Lemma totals_ok_same_runs w w' : runs w' = runs w → totals_ok w → totals_ok w'.
Proof. intros Heq H id r. rewrite Heq. apply H. Qed.

Lemma totals_ok_empty : totals_ok empty_world.
Proof. intros id r H. cbn in H. by rewrite lookup_empty in H. Qed.

(** [update_run] never names a total among its fields. *)
Lemma totals_ok_update_run run_id fields w :
  totals_ok w → totals_ok (Repository.update_run run_id fields w).
Proof.
  intros H id r. cbn. rewrite lookup_alter.
  case_decide as Heq; [subst id|apply H].
  destruct (runs w !! run_id) as [r0|] eqn:Hr0; [|done]. cbn.
  intros [= <-]. unfold run_totals_ok. cbn. by apply (H run_id).
Qed.

(** An increment whose total is the sum of its two token deltas. *)
Lemma totals_ok_increment run_id p c usd w :
  totals_ok w → totals_ok (Repository.increment_run_totals run_id p c (p + c) usd w).
Proof.
  intros H id r. cbn. rewrite lookup_alter.
  case_decide as Heq; [subst id|apply H].
  destruct (runs w !! run_id) as [r0|] eqn:Hr0; [|done]. cbn.
  intros [= <-]. unfold run_totals_ok. cbn.
  pose proof (H run_id r0 Hr0) as Hok. unfold run_totals_ok in Hok. lia.
Qed.

(** A new run starts with all totals at 0. *)
Lemma totals_ok_create_run run_id task template_id constraints metadata w :
  totals_ok w →
  totals_ok (Repository.create_run run_id task template_id constraints metadata w).
Proof.
  intros H. unfold Repository.create_run.
  destruct (runs w !! run_id) eqn:Hr; [done|].
  intros id r. cbn. destruct (decide (run_id = id)) as [<-|Hne].
  - rewrite lookup_insert_eq. by intros [= <-].
  - rewrite lookup_insert_ne by done. apply H.
Qed.

(** The estimator's total is the sum of the tokens it was given. *)
Lemma estimate_total model p c :
  ce_total_tokens (CostEstimator.estimate settings model p c)
  = ce_prompt_tokens (CostEstimator.estimate settings model p c)
    + ce_completion_tokens (CostEstimator.estimate settings model p c).
Proof.
  unfold CostEstimator.estimate. by destruct (CostEstimator._rates_for_model _ _).
Qed.

Lemma totals_ok_increment_estimate run_id model p c w :
  let cost := CostEstimator.estimate settings model p c in
  totals_ok w →
  totals_ok (Repository.increment_run_totals run_id (ce_prompt_tokens cost)
               (ce_completion_tokens cost) (ce_total_tokens cost) (ce_usd cost) w).
Proof.
  intros cost H. subst cost. rewrite estimate_total. by apply totals_ok_increment.
Qed.

Lemma totals_ok_upsert_step p w :
  totals_ok w → totals_ok (Repository.upsert_step p w).
Proof. apply totals_ok_same_runs. apply upsert_step_other. Qed.

Lemma totals_ok_emit run_id step event_type payload w :
  totals_ok w → totals_ok (_emit_event run_id step event_type payload w).
Proof. by apply totals_ok_same_runs. Qed.

Lemma totals_ok_append_diagnostic run_id d w :
  totals_ok w → totals_ok (Repository.append_run_diagnostic run_id d w).
Proof.
  intros H. unfold Repository.append_run_diagnostic.
  destruct (Repository.get_run run_id w); [|done]. by apply totals_ok_update_run.
Qed.

Lemma totals_ok_create_cost_entry run_id step app provider model p c t usd md w :
  totals_ok w →
  totals_ok (Repository.create_cost_entry run_id step app provider model p c t usd md w).
Proof. by apply totals_ok_same_runs. Qed.

Lemma totals_ok_advance ms w : totals_ok w → totals_ok (advance ms w).
Proof. by apply totals_ok_same_runs. Qed.

Lemma totals_ok_count_llm_call w : totals_ok w → totals_ok (count_llm_call w).
Proof. by apply totals_ok_same_runs. Qed.

Lemma totals_ok_uuid4 w : totals_ok w → totals_ok (uuid4 w).2.
Proof. by apply totals_ok_same_runs. Qed.

Lemma totals_ok_set_steps f w : totals_ok w → totals_ok (set_steps f w).
Proof. by apply totals_ok_same_runs. Qed.

#[local] Hint Resolve totals_ok_update_run totals_ok_increment_estimate
  totals_ok_upsert_step totals_ok_emit totals_ok_append_diagnostic
  totals_ok_create_cost_entry totals_ok_advance totals_ok_count_llm_call
  totals_ok_uuid4 totals_ok_set_steps : totals.

Lemma totals_ok_prepare state request_id node w :
  totals_ok w → totals_ok (ExecutorService.prepare state request_id node w).2.
Proof.
  intros H. unfold ExecutorService.prepare. destruct node as [i n].
  destruct (Repository.get_step_by_node _ _ _); cbn [snd fst uuid4];
    auto 10 with totals.
Qed.

Lemma totals_ok_attempt provider state contract nid w :
  totals_ok w →
  totals_ok (ExecutorService.attempt settings provider state contract nid w).2.
Proof.
  intros H. unfold ExecutorService.attempt. case_bool_decide; [done|].
  destruct (provider _ _); case_bool_decide; cbn [snd]; auto with totals.
  destruct (validate_output_with_contract _) as [[[] []] ?]; cbn [snd];
    auto with totals.
Qed.

Lemma totals_ok_complete state request_id p model resp out w :
  totals_ok w →
  totals_ok (ExecutorService.complete settings state request_id p model resp out w).2.
Proof.
  intros H. unfold ExecutorService.complete. destruct (pr_node p) as [i n].
  cbn [snd]. auto 10 with totals.
Qed.

Lemma totals_ok_handle_step_error state step node attempts max_retries started_at
    error w :
  totals_ok w →
  totals_ok (ExecutorService._handle_step_error state step node attempts max_retries
               started_at error w).2.
Proof.
  intros H. unfold ExecutorService._handle_step_error. destruct node as [i n].
  case_bool_decide; cbn [snd]; auto 10 with totals.
Qed.

Lemma totals_ok_execute_next provider state request_id w :
  totals_ok w →
  totals_ok (ExecutorService.execute_next settings provider state request_id w).2.
Proof.
  intros H. unfold ExecutorService.execute_next.
  destruct (ExecutorService._next_runnable_node _) as [node|]; [|done].
  pose proof (totals_ok_prepare state request_id node w H) as H1.
  destruct (ExecutorService.prepare _ _ _ _) as [[p st1] w1]. cbn in H1.
  pose proof (totals_ok_attempt provider st1 (pr_contract p)
                (node_id (pr_node p).2) w1 H1) as H2.
  destruct (ExecutorService.attempt _ _ _ _ _ _) as [[[[model resp] out]|err] w2];
    cbn in H2.
  - by apply totals_ok_complete.
  - by apply totals_ok_handle_step_error.
Qed.

Lemma totals_ok_plan provider run_id run request_id w :
  totals_ok w →
  totals_ok (PlannerService.plan settings provider run_id run request_id w).2.
Proof.
  intros H. unfold PlannerService.plan. case_bool_decide; [done|].
  match goal with
  | |- context [match ?t with Some _ => _ | None => _ end] =>
      destruct t as [tpl|]; [|by apply totals_ok_emit]
  end.
  destruct (provider _ _) as [resp ms|msg ms]; cbn [snd]; auto 10 with totals.
Qed.

Lemma totals_ok_reflect state w :
  totals_ok w → totals_ok (ReflectionService.reflect state w).2.
Proof.
  intros H. unfold ReflectionService.reflect.
  destruct (st_reflection_needed state); [|done]. cbn [negb].
  destruct (ReflectionService._decide_action _); cbn [snd];
    auto 6 with totals.
Qed.

Lemma totals_ok_cancel_step w step : totals_ok w → totals_ok (TaskflowOrchestrator.cancel_step w step).
Proof.
  intros H. unfold TaskflowOrchestrator.cancel_step.
  destruct (negb _); [done|]. by apply totals_ok_upsert_step.
Qed.

Lemma totals_ok_finish state w :
  totals_ok w → totals_ok (TaskflowOrchestrator._finish_node state w).2.
Proof.
  intros H. unfold TaskflowOrchestrator._finish_node.
  case_decide; cbn [snd TaskflowOrchestrator._mark_open_steps_canceled];
    [|by auto with totals].
  apply totals_ok_emit, totals_ok_update_run.
  match goal with |- context [foldl _ w ?l] => generalize l end. intros l.
  revert w H. induction l as [|x l IH]; intros w H; [exact H|].
  cbn [foldl]. apply IH. by apply totals_ok_cancel_step.
Qed.

Lemma totals_ok_graph_step provider current state w :
  totals_ok w →
  totals_ok (TaskflowOrchestrator.graph_step settings provider current state w).2.
Proof.
  intros H. destruct current; cbn [TaskflowOrchestrator.graph_step]; [| | | | |done].
  - unfold TaskflowOrchestrator._plan_node.
    destruct (Repository.get_run _ _) as [run|]; [|done].
    pose proof (totals_ok_plan provider (st_run_id state) run (st_request_id state) w H).
    by destruct (PlannerService.plan _ _ _ _ _ _) as [[dag|msg] w1].
  - unfold TaskflowOrchestrator._execute_step_node.
    pose proof (totals_ok_execute_next provider state (st_request_id state) w H).
    by destruct (ExecutorService.execute_next _ _ _ _ _).
  - unfold TaskflowOrchestrator._monitor_node.
    destruct (MonitorService.evaluate state w); [by apply totals_ok_update_run | done].
  - unfold TaskflowOrchestrator._reflect_node.
    pose proof (totals_ok_reflect state w H).
    destruct (ReflectionService.reflect state w). by apply totals_ok_update_run.
  - pose proof (totals_ok_finish state w H).
    by destruct (TaskflowOrchestrator._finish_node state w).
Qed.

Lemma totals_ok_run_loop_begin run_id request_id w :
  totals_ok w →
  totals_ok (TaskflowOrchestrator._run_loop_begin settings run_id request_id w).2.
Proof.
  intros H. unfold TaskflowOrchestrator._run_loop_begin.
  destruct (Repository.get_run _ _); [|done]. case_bool_decide; [done|].
  by apply totals_ok_emit, totals_ok_update_run.
Qed.

Lemma totals_ok_run_loop_except run_id message w :
  totals_ok w → totals_ok (TaskflowOrchestrator._run_loop_except run_id message w).
Proof. intros H. by apply totals_ok_emit, totals_ok_update_run. Qed.

Lemma totals_ok_retry_run run_id step request_id w :
  totals_ok w →
  totals_ok (TaskflowOrchestrator.retry_run run_id step request_id w).2.
Proof.
  intros H. unfold TaskflowOrchestrator.retry_run.
  destruct (Repository.get_run _ _) as [run|]; [|done].
  destruct step as [sid|]; [case_decide|]; cbn [snd Repository.reset_failed_steps];
    try (by apply totals_ok_emit, totals_ok_update_run, totals_ok_set_steps).
  cbn [Repository.reset_step]. case_bool_decide; [|done].
  by apply totals_ok_emit, totals_ok_update_run, totals_ok_set_steps.
Qed.

Lemma totals_ok_start_run run_id request_id s :
  sys_world (Workers.start_run run_id request_id s) = sys_world s.
Proof. unfold Workers.start_run. by destruct (sys_tasks s !! run_id). Qed.

Lemma totals_ok_perform s a :
  totals_ok (sys_world s) → totals_ok (sys_world (perform settings s a)).
Proof.
  intros H. destruct a as [task tid cs rid|run_id rid|run_id step rid|id tpl
                          |run_id provider|ms]; cbn [perform].
  - unfold RunsRouter.create_run. destruct (_ : bool); [done|].
    cbn [uuid4]. rewrite totals_ok_start_run. cbn [sys_world].
    apply totals_ok_emit, totals_ok_create_run. by eapply totals_ok_same_runs.
  - unfold RunsRouter.cancel_run. destruct (Repository.get_run _ _); [|done].
    cbn [default from_option id sys_world]. apply totals_ok_emit.
    by apply (totals_ok_update_run run_id _ (sys_world s)).
  - unfold RunsRouter.retry_run, Workers.retry_run.
    destruct (Repository.get_run _ _); [|done].
    pose proof (totals_ok_retry_run run_id step rid (sys_world s) H) as Hr.
    destruct (TaskflowOrchestrator.retry_run _ _ _ _) as [[] w1]; [|done].
    cbn [default from_option id]. by rewrite totals_ok_start_run.
  - by eapply totals_ok_same_runs.
  - unfold Workers.turn. destruct (sys_tasks s !! run_id) as [[rid|current state]|];
      [| |done].
    + pose proof (totals_ok_run_loop_begin run_id rid (sys_world s) H) as Hb.
      by destruct (TaskflowOrchestrator._run_loop_begin _ _ _ _) as [[st|] w1].
    + pose proof (totals_ok_graph_step provider current state (sys_world s) H) as Hg.
      destruct current; try done;
        destruct (TaskflowOrchestrator.graph_step _ _ _ _ _) as [[[next st]|msg] w1];
        cbn in *; try done; by apply totals_ok_run_loop_except.
  - by eapply totals_ok_same_runs.
Qed.

(** C9.  After every history of requests and worker turns on an empty store,
    every run row has [total_tokens = total_prompt_tokens +
    total_completion_tokens]: a run is created with its totals at 0, and the
    only increments, in the planner and in the executor, add a [total_tokens]
    of [prompt_tokens + completion_tokens] as [CostEstimator.estimate] gives
    it. *)
Theorem totals_stay_consistent (history : list Action) :
  totals_ok (sys_world (system_after settings history)).
Proof.
  unfold system_after. induction history as [|a history IH] using rev_ind.
  - apply totals_ok_empty.
  - rewrite foldl_app. cbn [foldl]. by apply totals_ok_perform.
Qed.

End totals_facts.

(** ** A dependency on an id that is not in the DAG *)

(** C10, as amended.  A pending node that depends on an id no node carries:
    the lookup of that id answers "not completed" (nothing is raised: both
    functions are total), the executor never selects the node, and the
    monitor counts a runnable node only if some other node is runnable.  For
    the monitor such a DAG is never all completed; and when the run exists, is
    not canceled, is within its time and budget, and no node is runnable or
    running, the decision is [dependency_deadlock]. *)
Theorem missing_dependency_blocks_node
    (dag : Dag) (i : nat) (n : Node) (dep : string) :
  dag_nodes dag !! i = Some n →
  node_status n = PENDING →
  dep ∈ node_depends_on n →
  dep ∉ node_id <$> dag_nodes dag →
  dep_completed (node_map (dag_nodes dag)) dep = false
  ∧ (∀ j m, ExecutorService._next_runnable_node dag = Some (j, m) → j ≠ i)
  ∧ (MonitorService._has_runnable_nodes dag = true →
     ∃ j m, j ≠ i ∧ dag_nodes dag !! j = Some m
            ∧ ExecutorService.runnable (node_map (dag_nodes dag)) m = true)
  ∧ (∀ state run elapsed, st_dag state = dag →
     rule_guard <$> spec_rules state run elapsed !! 4%nat = Some false)
  ∧ (∀ state w run,
       st_dag state = dag →
       Repository.get_run (st_run_id state) w = Some run →
       cancel_requested run = false →
       Z.quot (now w - st_run_started_monotonic state) 1000
         < timeout_s (st_constraints state) →
       total_usd run < budget_usd (st_constraints state) →
       MonitorService._has_runnable_nodes dag = false →
       node_has STEP_RUNNING (dag_nodes dag) = false →
       MonitorService.evaluate state w
       = Ok (set_reflection true
               (Some "No runnable steps due to unmet dependencies")
               (Some (py_or (st_failure_mode state) "other"))
               (set_finish FAILED "dependency_deadlock" state))).
Proof.
  intros Hi Hpending Hdep Hmissing.
  assert (ExecutorService.runnable (node_map (dag_nodes dag)) n = false) as Hn
    by (by eapply runnable_missing_dep).
  assert (forallb (λ x, bool_decide (node_status x = STEP_COMPLETED
                                     ∨ node_status x = SKIPPED)) (dag_nodes dag)
          = false) as Hall.
  { apply not_true_is_false. rewrite forallb_forall. intros Hf.
    specialize (Hf n). rewrite bool_decide_eq_true, Hpending in Hf.
    destruct Hf as [?|?]; [|done|done].
    apply list_elem_of_In, list_elem_of_lookup. eauto. }
  assert (node_has PENDING (dag_nodes dag) = true) as Hpe.
  { unfold node_has. rewrite existsb_exists. exists n. split.
    - apply list_elem_of_In, list_elem_of_lookup. eauto.
    - by apply bool_decide_eq_true. }
  split; [by apply dep_completed_missing|]. split; [|split; [|split]].
  - intros j m Hsel ->. unfold ExecutorService._next_runnable_node in Hsel.
    apply list_find_Some in Hsel as (Hj & Hr & _). congruence.
  - intros Hany. apply has_runnable_true in Hany as (j & m & Hj & Hr).
    exists j, m. split; [|done]. intros ->. congruence.
  - intros state run elapsed Hd. cbn. by rewrite Hd, Hall.
  - intros state w run Hd Hrun Hnc Ht Hb Hnone Hnr.
    unfold MonitorService.evaluate. rewrite Hrun, Hnc, Hd.
    rewrite bool_decide_eq_false_2 by lia. rewrite bool_decide_eq_false_2 by lia.
    rewrite !existsb_fmap, forallb_fmap.
    rewrite (forallb_ext' _ (λ x, bool_decide (node_status x = STEP_COMPLETED
                                               ∨ node_status x = SKIPPED))); last first.
    { intros x. rewrite status_in_pair, <- bool_decide_or. done. }
    rewrite Hall, Hnone. cbn [andb negb].
    unfold node_has in Hpe, Hnr. by rewrite Hpe, Hnr.
Qed.

(** ** The finish transition and the step rows *)

Section finish_facts.

Implicit Types (w : World) (l : list Step) (key : string * string) (r : StepRow).

Lemma not_open_terminal (s : StepStatus) :
  TaskflowOrchestrator.is_open s = false ↔ terminal s.
Proof.
  unfold TaskflowOrchestrator.is_open, terminal. rewrite bool_decide_eq_false.
  destruct s;
    (split;
     [intros H; first [by auto 6 | exfalso; apply H; auto]
     |intros [?|[?|[?|?]]] [?|?]; done]).
Qed.

(** After the loop over the listed steps a row is either canceled, or it is
    the row that was there and no listed step with its key was open. *)
Lemma cancel_steps_lookup l w key r :
  steps (foldl TaskflowOrchestrator.cancel_step w l) !! key = Some r →
  row_status r = STEP_CANCELED
  ∨ (steps w !! key = Some r
     ∧ ∀ s, s ∈ l → (step_run_id s, step_node_id s) = key →
            TaskflowOrchestrator.is_open (step_status s) = false).
Proof.
  revert w. induction l as [|s l IH]; intros w Hr; cbn [foldl] in Hr.
  - right. split; [done|]. intros s Hs. by apply elem_of_nil in Hs.
  - apply IH in Hr as [Hc|[Hr Hl]]; [by left|].
    unfold TaskflowOrchestrator.cancel_step in Hr.
    destruct (TaskflowOrchestrator.is_open (step_status s)) eqn:Hopen; cbn in Hr.
    + match type of Hr with
      | context [Repository.upsert_step ?p w] =>
          destruct (upsert_step_steps p w) as (r' & Hs & Hm & _)
      end.
      rewrite Hs in Hr. cbn in Hr.
      destruct (decide ((step_run_id s, step_node_id s) = key)) as [Hk|Hk].
      * rewrite Hk, lookup_insert_eq in Hr. injection Hr as <-.
        left. by destruct Hm as [-> _].
      * rewrite lookup_insert_ne in Hr by done. right. split; [done|].
        intros s' Hs' Hkey. apply elem_of_cons in Hs' as [->|Hs']; [done|].
        by apply Hl.
    + right. split; [done|]. intros s' Hs' Hkey.
      apply elem_of_cons in Hs' as [->|Hs']; [done|]. by apply Hl.
Qed.

Lemma list_steps_elem run_id node r w :
  steps w !! (run_id, node) = Some r →
  _decode_step (run_id, node) r ∈ Repository.list_steps run_id w.
Proof.
  intros Hr. unfold Repository.list_steps, Repository.all_steps.
  rewrite merge_sort_Permutation. apply list_elem_of_filter. split; [done|].
  apply list_elem_of_fmap. exists ((run_id, node), r). split; [done|].
  by apply elem_of_map_to_list.
Qed.

(** C1, as amended.  The finish transition of a canceled run leaves every
    step row of the run completed, failed, skipped or canceled.  The finish
    transition of a run that ends completed or failed does not touch the step
    rows: a row that was pending or running stays so.  In both cases the run
    row gets the finish status. *)
Theorem finish_closes_steps_of_canceled_runs (state : State) (w : World) :
  let res := TaskflowOrchestrator._finish_node state w in
  (st_finish_status state = Some CANCELED →
   ∀ node r, steps res.2 !! (st_run_id state, node) = Some r →
             terminal (row_status r))
  ∧ (st_finish_status state ≠ Some CANCELED → steps res.2 = steps w)
  ∧ (∀ run, runs w !! st_run_id state = Some run →
     run_status <$> runs res.2 !! st_run_id state
     = Some (get_default (st_finish_status state) FAILED)).
Proof.
  intros res. subst res. unfold TaskflowOrchestrator._finish_node.
  split; [|split].
  - intros Hc node r. rewrite Hc. cbn. intros Hr.
    apply cancel_steps_lookup in Hr as [->|[Hr Hl]].
    + unfold terminal. tauto.
    + apply not_open_terminal.
      apply (Hl (_decode_step (st_run_id state, node) r));
        [by apply list_steps_elem | done].
  - intros Hc. destruct (decide _) as [Heq|_]; [|done].
    destruct (st_finish_status state) as [[]|]; done.
  - intros run Hrun. destruct (decide _) as [Heq|_]; cbn;
      rewrite lookup_alter_eq.
    + assert (runs (foldl TaskflowOrchestrator.cancel_step w
                      (Repository.list_steps (st_run_id state) w)) = runs w) as ->.
      { generalize (Repository.list_steps (st_run_id state) w). intros l.
        revert w Hrun. induction l as [|s l IH]; intros w Hrun; [done|].
        cbn [foldl]. unfold TaskflowOrchestrator.cancel_step at 2.
        destruct (negb _); [by apply IH|].
        match goal with
        | |- context [Repository.upsert_step ?p w] =>
            destruct (upsert_step_other p w) as (Hruns & _)
        end.
        rewrite IH; [done | by rewrite Hruns]. }
      by rewrite Hrun.
    + by rewrite Hrun.
Qed.

End finish_facts.

(** ** The model preference hint of the reflection *)

Section hint_facts.

Context (settings : Settings) (provider : LLMProvider).

Abbreviation hint := st_reflection_model_preference.







End hint_facts.

(** ** The claims on concrete runs *)

(** C1, counterexample.  The run of [Scenario.stopped_by_max_steps] is
    terminal (failed, by [max_steps_exceeded]) and its only step row is still
    pending: the retry that was scheduled never ran, and the finish
    transition of a failed run does not touch the step rows. *)
Lemma failed_run_keeps_pending_step :
  let w := Scenario.world_after Scenario.stopped_by_max_steps in
  Scenario.run_status_of w = Some FAILED
  ∧ Scenario.finish_events w = [PRunFinished FAILED "max_steps_exceeded"]
  ∧ Scenario.step_summary w = [(Scenario.run, "a", PENDING, 1, 2)]
  ∧ ¬ (∀ key r, steps w !! key = Some r → key.1 = Scenario.run →
                terminal (row_status r)).
Proof.
  cbv zeta. split; [by vm_compute|]. split; [by vm_compute|].
  split; [by vm_compute|]. intros H.
  assert (∃ r, steps (Scenario.world_after Scenario.stopped_by_max_steps)
               !! (Scenario.run, "a") = Some r ∧ row_status r = PENDING)
    as (r & Hr & Hs) by (eexists; split; vm_compute; reflexivity).
  specialize (H _ r Hr eq_refl). clear Hr. rewrite Hs in H.
  destruct H as [H|[H|[H|H]]]; discriminate H.
Qed.

(** C1, the amended claim at a finish with status canceled over the world of
    that run. *)
Lemma finish_closes_steps_witness :
  let state := set_finish CANCELED "cancel_requested" (sample_state failing_dag) in
  let w := Scenario.world_after Scenario.stopped_by_max_steps in
  st_finish_status state = Some CANCELED
  ∧ ∀ node r,
      steps (TaskflowOrchestrator._finish_node state w).2 !! (st_run_id state, node)
      = Some r →
      terminal (row_status r).
Proof.
  split; [reflexivity|].
  apply (proj1 (finish_closes_steps_of_canceled_runs
                  (set_finish CANCELED "cancel_requested" (sample_state failing_dag))
                  (Scenario.world_after Scenario.stopped_by_max_steps))).
  reflexivity.
Defined.

(** C3, the code at the failing input.  After the run of
    [Scenario.failed_once] has failed with [attempts = 2] and
    [max_retries = 1], [retry_run(run_id, None)] sets the step row to pending
    with output, error and cost cleared, the node to pending, the run to
    running with [cancel_requested] cleared; but [attempts] is still 2, since
    [reset_failed_steps] does not assign it. *)
Lemma retry_keeps_attempts_of_failed_steps :
  let before := Scenario.world_after Scenario.failed_once in
  let after := Scenario.world_after Scenario.retried in
  Scenario.step_summary before = [(Scenario.run, "a", STEP_FAILED, 2, 1)]
  ∧ Scenario.step_summary after = [(Scenario.run, "a", PENDING, 2, 1)]
  ∧ (λ r, (row_output r, row_error r, row_cost r))
      <$> steps after !! (Scenario.run, "a") = Some (None, None, None)
  ∧ (λ r, (run_status r, cancel_requested r, node_status <$> dag_nodes (run_dag r)))
      <$> runs after !! Scenario.run = Some (RUNNING, false, [PENDING]).
Proof. by vm_compute. Qed.

(** What [retry_run(run_id, None)] does to every failed step row and to the
    run row of an existing run: the row becomes pending with output, error and
    cost cleared and [attempts] as it was; the run becomes running with
    [cancel_requested] cleared and its failed nodes reset. *)
Lemma retry_run_resets_all_but_attempts (run_id request_id : string) (w : World)
    (run : Run) :
  runs w !! run_id = Some run →
  let res := TaskflowOrchestrator.retry_run run_id None request_id w in
  res.1 = true
  ∧ (∀ node r,
       steps w !! (run_id, node) = Some r → row_status r = STEP_FAILED →
       ∃ r', steps res.2 !! (run_id, node) = Some r'
             ∧ row_status r' = PENDING ∧ row_output r' = None
             ∧ row_error r' = None ∧ row_cost r' = None
             ∧ row_attempts r' = row_attempts r)
  ∧ (∃ run', runs res.2 !! run_id = Some run'
             ∧ run_status run' = RUNNING ∧ cancel_requested run' = false
             ∧ dag_nodes (run_dag run')
               = (λ n, if decide (node_status n = STEP_FAILED)
                       then TaskflowOrchestrator.reset_node n else n)
                   <$> dag_nodes (run_dag run)).
Proof.
  intros Hrun res. subst res. unfold TaskflowOrchestrator.retry_run.
  unfold Repository.get_run. rewrite Hrun. cbn. split; [done|]. split.
  - intros node r Hr Hf. rewrite map_lookup_imap, Hr. cbn.
    rewrite !bool_decide_eq_true_2 by done. cbn. eexists. split; [done|].
    by repeat split.
  - rewrite lookup_alter_eq, Hrun. cbn. eexists. split; [done|]. by repeat split.
Qed.

(** The general reset at the run of [Scenario.failed_once]. *)
Lemma retry_run_resets_witness :
  let w := Scenario.world_after Scenario.failed_once in
  (∃ run, runs w !! Scenario.run = Some run)
  ∧ (TaskflowOrchestrator.retry_run Scenario.run None "req-2" w).1 = true.
Proof.
  cbv zeta.
  destruct (runs (Scenario.world_after Scenario.failed_once) !! Scenario.run)
    as [run|] eqn:Hrun; [|by vm_compute in Hrun].
  split; [by exists run|].
  exact (proj1 (retry_run_resets_all_but_attempts Scenario.run "req-2" _ run Hrun)).
Defined.

(** C2, the code at the failing input.  The retried run of
    [Scenario.failed_twice] is terminal again (failed) and its step row has
    [attempts = 3] with [max_retries = 1]: the first attempt after the retry
    counts on from 2 and fails for good, above the bound
    [max_retries + 1 = 2]. *)
Lemma attempts_exceed_bound_after_retry :
  let w := Scenario.world_after Scenario.failed_twice in
  Scenario.run_status_of w = Some FAILED
  ∧ Scenario.step_summary w = [(Scenario.run, "a", STEP_FAILED, 3, 1)]
  ∧ ¬ (∀ key r, steps w !! key = Some r →
                row_attempts r ≤ row_max_retries r + 1).
Proof.
  cbv zeta. split; [by vm_compute|]. split; [by vm_compute|]. intros H.
  assert (∃ r, steps (Scenario.world_after Scenario.failed_twice)
               !! (Scenario.run, "a") = Some r
               ∧ row_attempts r = 3 ∧ row_max_retries r = 1)
    as (r & Hr & Ha & Hm) by (eexists; split; [|split]; vm_compute; reflexivity).
  specialize (H _ r Hr). clear Hr. rewrite Ha, Hm in H. lia.
Qed.



(** C5 at the first failing attempt of a node with two retries. *)
Lemma handle_step_error_witness :
  let n := Scenario.node "a" [] in
  let res := ExecutorService._handle_step_error (sample_state failing_dag) "step-1"
               (0%nat, n) 1 2 0 tool_not_allowed empty_world in
  1 ≤ 1
  ∧ (0 < length (dag_nodes (st_dag (sample_state failing_dag))))%nat
  ∧ 1 ≤ 2
  ∧ st_step_counter res.1 = st_step_counter (sample_state failing_dag) + 1
  ∧ ∃ e, events res.2 = events empty_world ++ [e]
         ∧ ev_run_id e = Scenario.run
         ∧ ev_event_type e = "step_retry_scheduled"
         ∧ ev_payload e
           = PStepRetryScheduled "a" 1 2 (Z.min (2 ^ (1 - 1)) 8)
               {| err_code := "tool_not_allowed";
                  err_message := "Contract does not allow llm.generate";
                  err_details := DAllowedTools [] |}.
Proof.
  assert (1 ≤ 1) as H1 by lia.
  assert (0 < length (dag_nodes (st_dag (sample_state failing_dag))))%nat as H2
    by (cbn; lia).
  assert (1 ≤ 2) as H3 by lia.
  split; [exact H1|]. split; [exact H2|]. split; [exact H3|].
  destruct (proj1 (handle_step_error_retry_or_fail (sample_state failing_dag)
                     "step-1" 0 (Scenario.node "a" []) 1 2 0 tool_not_allowed
                     empty_world H1 H2) H3) as (_ & _ & He & Hc).
  split; [exact Hc | exact He].
Defined.





(** C8 at a broker with one subscriber whose buffer is empty. *)
Lemma publish_witness :
  let b := broker_after [OpSubscribe Scenario.run] in
  let qs : gmap nat Queue.t := {[ 0%nat := Queue.make 256 ]} in
  EventBroker.subscribers b !! ev_run_id sample_event = Some qs
  ∧ qs !! 0%nat = Some (Queue.make 256)
  ∧ ∃ qs' q',
      EventBroker.subscribers (EventBroker.publish sample_event b)
        !! ev_run_id sample_event = Some qs'
      ∧ qs' !! 0%nat = Some q'
      ∧ last (Queue.items q') = Some sample_event
      ∧ (length (Queue.items q') ≤ 256)%nat.
Proof.
  cbv zeta.
  assert (EventBroker.subscribers (broker_after [OpSubscribe Scenario.run])
            !! ev_run_id sample_event
          = Some ({[ 0%nat := Queue.make 256 ]} : gmap nat Queue.t)) as Hqs
    by (by vm_compute).
  assert (({[ 0%nat := Queue.make 256 ]} : gmap nat Queue.t) !! 0%nat
          = Some (Queue.make 256)) as Hq by (by vm_compute).
  split; [exact Hqs|]. split; [exact Hq|].
  destruct (publish_drops_oldest_keeps_newest [OpSubscribe Scenario.run]
              sample_event _ 0%nat _ Hqs Hq)
    as (qs' & q' & H1 & _ & H2 & _ & _ & H3 & H4).
  by exists qs', q'.
Defined.

(** C9 on a run that spends tokens: the totals of [Scenario.chain] after the
    planner call and four steps. *)
Lemma totals_of_chain :
  (λ r, (total_prompt_tokens r, total_completion_tokens r, total_tokens r))
    <$> runs (Scenario.world_after Scenario.chain) !! Scenario.run
  = Some (50, 25, 75).
Proof. by vm_compute. Qed.

(** C10, counterexample.  In [Scenario.canceled_ghost] the only node is
    pending and depends on the id "ghost", which no node has; the run is
    canceled before its worker starts, and it ends as canceled with the reason
    [cancel_requested], not through the dependency deadlock.  Left alone the
    same run ends with [dependency_deadlock]. *)
Lemma ghost_run_ends_canceled :
  (node_id <$> tpl_graph_nodes Scenario.ghost_template) = ["a"]
  ∧ (node_depends_on <$> tpl_graph_nodes Scenario.ghost_template) = [["ghost"]]
  ∧ Scenario.run_status_of (Scenario.world_after Scenario.canceled_ghost)
    = Some CANCELED
  ∧ Scenario.finish_events (Scenario.world_after Scenario.canceled_ghost)
    = [PRunFinished CANCELED "cancel_requested"]
  ∧ Scenario.finish_events (Scenario.world_after Scenario.deadlocked_ghost)
    = [PRunFinished FAILED "dependency_deadlock"].
Proof. by vm_compute. Qed.

(** C10, the amended claim at the DAG of that run. *)
Lemma missing_dependency_witness :
  let n := Scenario.node "a" ["ghost"] in
  dag_nodes ghost_dag !! 0%nat = Some n
  ∧ node_status n = PENDING
  ∧ "ghost" ∈ node_depends_on n
  ∧ ("ghost" ∉ node_id <$> dag_nodes ghost_dag)
  ∧ dep_completed (node_map (dag_nodes ghost_dag)) "ghost" = false
  ∧ (∀ j m, ExecutorService._next_runnable_node ghost_dag = Some (j, m) → j ≠ 0%nat).
Proof.
  cbv zeta.
  assert (dag_nodes ghost_dag !! 0%nat = Some (Scenario.node "a" ["ghost"])) as H1
    by reflexivity.
  assert (node_status (Scenario.node "a" ["ghost"]) = PENDING) as H2 by reflexivity.
  assert ("ghost" ∈ node_depends_on (Scenario.node "a" ["ghost"])) as H3
    by (apply list_elem_of_singleton; reflexivity).
  assert ("ghost" ∉ node_id <$> dag_nodes ghost_dag) as H4
    by (intros H; apply list_elem_of_singleton in H; discriminate H).
  split; [exact H1|]. split; [exact H2|]. split; [exact H3|]. split; [exact H4|].
  destruct (missing_dependency_blocks_node ghost_dag 0%nat _ "ghost" H1 H2 H3 H4)
    as (Hd & Hsel & _).
  split; [exact Hd | exact Hsel].
Defined.

(** * Further properties of the code *)

(** ** The broker over sequences of events *)

Section broker_sequences.

Implicit Types (b : EventBroker.t) (q : Queue.t) (e event : Event) (es : list Event).

Lemma newest_snoc_full {A} (l : list A) (x : A) :
  length l = 256%nat → newest 256 (l ++ [x]) = drop 1 l ++ [x].
Proof.
  intros Hl. unfold newest. rewrite length_app, Hl. cbn.
  rewrite drop_app_le by lia. done.
Qed.

Lemma newest_all {A} (n : nat) (l : list A) : (length l ≤ n)%nat → newest n l = l.
Proof. intros Hl. unfold newest. by replace (length l - n)%nat with 0%nat by lia. Qed.

Lemma newest_newest_snoc {A} (l : list A) (x : A) :
  newest 256 (newest 256 l ++ [x]) = newest 256 (l ++ [x]).
Proof.
  unfold newest at 2. destruct (decide (length l ≤ 256)%nat) as [Hle|Hgt].
  - replace (length l - 256)%nat with 0%nat by lia. done.
  - unfold newest. rewrite !length_app, length_drop. cbn.
    replace (length l - (length l - 256) + 1 - 256)%nat with 1%nat by lia.
    replace (length l + 1 - 256)%nat with (length l - 256 + 1)%nat by lia.
    rewrite <- drop_drop. rewrite (drop_app_le l) by lia.
    rewrite (drop_app_le (drop _ l)) by (rewrite length_drop; lia). done.
Qed.

Lemma publish_queue_newest event q :
  queue_ok q →
  Queue.items (EventBroker.publish_queue event q) = newest 256 (Queue.items q ++ [event]).
Proof.
  intros Hok. destruct (publish_queue_items event q Hok) as [-> _].
  destruct Hok as [_ Hl]. case_decide as Hfull.
  - by rewrite newest_snoc_full.
  - rewrite newest_all; [done|]. rewrite length_app. cbn. lia.
Qed.

Lemma publish_queue_of event b run_id h :
  queue_of (EventBroker.publish event b) run_id h
  = (if decide (ev_run_id event = run_id)
     then EventBroker.publish_queue event <$> queue_of b run_id h
     else queue_of b run_id h).
Proof.
  unfold queue_of, EventBroker.publish.
  destruct (EventBroker.subscribers b !! ev_run_id event) as [qs|] eqn:Hqs.
  - cbn. case_decide as Hr.
    + subst run_id. rewrite lookup_insert_eq, Hqs. cbn. by rewrite lookup_fmap.
    + by rewrite lookup_insert_ne.
  - case_decide as Hr; [|done]. subst run_id. by rewrite Hqs.
Qed.

Lemma publish_all_snoc es e b :
  publish_all (es ++ [e]) b = EventBroker.publish e (publish_all es b).
Proof. unfold publish_all. by rewrite foldl_app. Qed.

Lemma publish_all_ok es b : broker_ok b → broker_ok (publish_all es b).
Proof.
  intros Hok. induction es as [|e es IH] using rev_ind; [done|].
  rewrite publish_all_snoc. by apply publish_ok.
Qed.

Lemma queue_of_ok b run_id h q : broker_ok b → queue_of b run_id h = Some q → queue_ok q.
Proof.
  intros Hok. unfold queue_of.
  destruct (EventBroker.subscribers b !! run_id) as [qs|] eqn:Hqs; [|done]. cbn.
  intros Hq. by eapply Hok.
Qed.

Lemma publish_all_queue es b run_id h q :
  broker_ok b →
  queue_of b run_id h = Some q →
  ∃ q', queue_of (publish_all es b) run_id h = Some q'
        ∧ Queue.maxsize q' = 256%nat
        ∧ Queue.items q'
          = newest 256 (Queue.items q ++ filter (λ e, ev_run_id e = run_id) es).
Proof.
  intros Hok Hq. induction es as [|e es IH] using rev_ind.
  - exists q. rewrite app_nil_r. split; [done|].
    destruct (queue_of_ok _ _ _ _ Hok Hq) as [Hm Hl]. split; [done|].
    by rewrite newest_all.
  - destruct IH as (q1 & Hq1 & Hm1 & Hi1).
    assert (queue_ok q1) as Hok1
      by (eapply queue_of_ok; [by apply (publish_all_ok es)|done]).
    rewrite publish_all_snoc, publish_queue_of, Hq1, filter_app.
    case_decide as Hr.
    + exists (EventBroker.publish_queue e q1). split; [done|].
      split; [by apply publish_queue_ok|].
      rewrite publish_queue_newest by done. rewrite Hi1, newest_newest_snoc.
      rewrite filter_cons_True by done. rewrite filter_nil. by rewrite app_assoc.
    + exists q1. split; [done|]. split; [done|].
      rewrite filter_cons_False by done. rewrite filter_nil. by rewrite app_nil_r.
Qed.

(** X2.  The buffer of a subscriber after a sequence of [publish] calls holds the
    newest 256 of what it held followed by the published events of its run, in
    the order of publication; events of other runs never enter it. *)
Theorem publish_all_keeps_newest_in_order
    (ops : list BrokerOp) (es : list Event) (run_id : string) (h : nat) (q : Queue.t) :
  queue_of (broker_after ops) run_id h = Some q →
  ∃ q', queue_of (publish_all es (broker_after ops)) run_id h = Some q'
        ∧ Queue.items q'
          = newest 256 (Queue.items q ++ filter (λ e, ev_run_id e = run_id) es).
Proof.
  intros Hq.
  destruct (publish_all_queue es _ run_id h q (broker_after_ok ops) Hq)
    as (q' & ? & _ & ?).
  by exists q'.
Qed.

Lemma next_event_queue_of run_id h b :
  EventBroker.next_event run_id h b
  = match queue_of b run_id h with
    | Some q =>
        match Queue.items q with
        | [] => None
        | e :: rest =>
            Some (e, {| EventBroker.subscribers :=
                          <[run_id :=
                              <[h := {| Queue.maxsize := Queue.maxsize q;
                                        Queue.items := rest |}]>
                                (default ∅ (EventBroker.subscribers b !! run_id))]>
                            (EventBroker.subscribers b);
                        EventBroker.next_handle := EventBroker.next_handle b |})
        end
    | None => None
    end.
Proof.
  unfold EventBroker.next_event, queue_of.
  destruct (EventBroker.subscribers b !! run_id) as [qs|]; [|done]. cbn.
  destruct (qs !! h) as [q|]; [|done]. cbn. unfold Queue.get_nowait.
  by destruct (Queue.items q).
Qed.

Lemma drain_items fuel run_id h b q :
  queue_of b run_id h = Some q →
  (length (Queue.items q) ≤ fuel)%nat →
  (drain fuel run_id h b).1 = Queue.items q
  ∧ EventBroker.next_event run_id h (drain fuel run_id h b).2 = None.
Proof.
  revert b q. induction fuel as [|fuel IH]; intros b q Hq Hl.
  - destruct (Queue.items q) as [|] eqn:Hi; [|cbn in Hl; lia]. cbn.
    by rewrite next_event_queue_of, Hq, Hi.
  - cbn. rewrite next_event_queue_of, Hq.
    destruct (Queue.items q) as [|e rest] eqn:Hi.
    + cbn. by rewrite next_event_queue_of, Hq, Hi.
    + match goal with
      | |- context [drain fuel run_id h ?b1] =>
          destruct (IH b1 {| Queue.maxsize := Queue.maxsize q; Queue.items := rest |})
            as (H1 & H2)
      end.
      * unfold queue_of. cbn. rewrite lookup_insert_eq. cbn.
        by rewrite lookup_insert_eq.
      * cbn in *. lia.
      * destruct (drain fuel run_id h _) as [es b'']. cbn in *. by rewrite H1.
Qed.

(** X3.  Events reach a subscriber in the order they were published, and only
    those published after it subscribed: a new subscriber that takes what is
    in its queue after a sequence of [publish] calls gets the newest 256 of
    the events of its run in that sequence, oldest first, whatever the broker
    went through before; its queue is empty afterwards. *)
Theorem new_subscriber_gets_later_events_in_order
    (ops : list BrokerOp) (es : list Event) (run_id : string) (fuel : nat) :
  (256 ≤ fuel)%nat →
  let sub := EventBroker.subscribe run_id (broker_after ops) in
  let b2 := publish_all es sub.2 in
  (drain fuel run_id sub.1 b2).1 = newest 256 (filter (λ e, ev_run_id e = run_id) es)
  ∧ EventBroker.next_event run_id sub.1 (drain fuel run_id sub.1 b2).2 = None.
Proof.
  intros Hfuel sub b2.
  assert (broker_ok sub.2) as Hok1 by apply subscribe_ok, broker_after_ok.
  assert (queue_of sub.2 run_id sub.1 = Some (Queue.make 256)) as Hq.
  { unfold queue_of. cbn. rewrite lookup_insert_eq. cbn. by rewrite lookup_insert_eq. }
  destruct (publish_all_queue es sub.2 run_id sub.1 _ Hok1 Hq) as (q' & Hq' & _ & Hi).
  cbn [Queue.items Queue.make app] in Hi.
  assert (queue_ok q') as [_ Hl]
    by (eapply queue_of_ok; [by apply (publish_all_ok es)|done]).
  destruct (drain_items fuel run_id sub.1 b2 q' Hq') as (H1 & H3); [lia|].
  by rewrite H1, Hi.
Qed.

Lemma handles_fresh_init : handles_fresh EventBroker.init.
Proof.
  intros run_id h [q Hq]. unfold queue_of in Hq. cbn in Hq.
  by rewrite lookup_empty in Hq.
Qed.

Lemma subscribe_queue_of run_id b rid h :
  queue_of (EventBroker.subscribe run_id b).2 rid h
  = (if decide (rid = run_id ∧ h = EventBroker.next_handle b)
     then Some (Queue.make 256) else queue_of b rid h).
Proof.
  unfold queue_of. cbn. destruct (decide (run_id = rid)) as [Heq|Hne].
  - subst rid. rewrite lookup_insert_eq. cbn.
    destruct (decide (EventBroker.next_handle b = h)) as [Hh|Hh].
    + subst h. rewrite lookup_insert_eq. by rewrite decide_True.
    + rewrite lookup_insert_ne by done.
      rewrite decide_False by (by intros [_ ?]).
      by destruct (EventBroker.subscribers b !! run_id).
  - rewrite lookup_insert_ne by done. rewrite decide_False by (by intros [? _]).
    done.
Qed.

Lemma unsubscribe_queue_of run_id h0 b rid h :
  queue_of (EventBroker.unsubscribe run_id h0 b) rid h
  = (if decide (rid = run_id ∧ h = h0) then None else queue_of b rid h).
Proof.
  unfold queue_of. cbn. destruct (decide (run_id = rid)) as [Heq|Hne].
  - subst rid. rewrite lookup_insert_eq. cbn.
    destruct (decide (h0 = h)) as [Hh|Hh].
    + subst h. rewrite lookup_delete_eq. by rewrite decide_True.
    + rewrite lookup_delete_ne by done.
      rewrite decide_False by (by intros [_ ?]).
      by destruct (EventBroker.subscribers b !! run_id).
  - rewrite lookup_insert_ne by done. rewrite decide_False by (by intros [? _]).
    done.
Qed.

Lemma next_event_queue_of_other run_id h b e b' rid h' :
  EventBroker.next_event run_id h b = Some (e, b') →
  EventBroker.next_handle b' = EventBroker.next_handle b
  ∧ (is_Some (queue_of b' rid h') ↔ is_Some (queue_of b rid h')).
Proof.
  rewrite next_event_queue_of.
  destruct (queue_of b run_id h) as [q|] eqn:Hq; [|done].
  destruct (Queue.items q) as [|x rest]; [done|]. intros [= <- <-]. cbn.
  split; [done|]. unfold queue_of in *. cbn.
  destruct (decide (run_id = rid)) as [Heq|Hne].
  - subst rid. rewrite lookup_insert_eq. cbn. destruct (decide (h = h')) as [Hh|Hh].
    + subst h'. rewrite lookup_insert_eq. rewrite Hq. split; by eauto.
    + rewrite lookup_insert_ne by done.
      by destruct (EventBroker.subscribers b !! run_id).
  - by rewrite lookup_insert_ne.
Qed.

Lemma handles_fresh_after (ops : list BrokerOp) : handles_fresh (broker_after ops).
Proof.
  unfold broker_after. induction ops as [|op ops IH] using rev_ind.
  - apply handles_fresh_init.
  - rewrite foldl_app. cbn. set (b := foldl broker_apply EventBroker.init ops) in *.
    destruct op as [rid|ev|rid h|rid h]; cbn [broker_apply]; intros r h'.
    + rewrite subscribe_queue_of. cbn. case_decide as Hc.
      * destruct Hc as [_ ->]. lia.
      * intros Hs. specialize (IH r h' Hs). lia.
    + rewrite publish_queue_of. intros Hs.
      assert (EventBroker.next_handle (EventBroker.publish ev b)
              = EventBroker.next_handle b) as ->
        by (unfold EventBroker.publish; by destruct (_ !! _)).
      apply (IH r h'). case_decide; [|done]. by apply fmap_is_Some in Hs.
    + destruct (EventBroker.next_event rid h b) as [[e b']|] eqn:Hn; [|by apply IH].
      destruct (next_event_queue_of_other _ _ _ _ _ r h' Hn) as (-> & Hiff).
      intros Hs. apply (IH r h'). by apply Hiff.
    + rewrite unsubscribe_queue_of. case_decide; [by intros []|]. apply (IH r h').
Qed.

(** X4.  Subscribing and unsubscribing touch no other subscriber: in a broker that
    was only used through its operations, [subscribe] hands out a queue object
    that is new and empty and leaves every queue that was there as it is; the
    [finally] block of that subscriber removes this queue and nothing else, so
    that [publish] no longer reaches it. *)
Theorem subscribe_then_unsubscribe_restores
    (ops : list BrokerOp) (run_id : string) :
  let b := broker_after ops in
  let sub := EventBroker.subscribe run_id b in
  let b2 := EventBroker.unsubscribe run_id sub.1 sub.2 in
  queue_of b run_id sub.1 = None
  ∧ queue_of sub.2 run_id sub.1 = Some (Queue.make 256)
  ∧ (∀ rid h', (rid, h') ≠ (run_id, sub.1) → queue_of sub.2 rid h' = queue_of b rid h')
  ∧ (∀ rid h', queue_of b2 rid h' = queue_of b rid h')
  ∧ (∀ event, queue_of (EventBroker.publish event b2) run_id sub.1 = None).
Proof.
  intros b sub b2. subst b2 sub.
  change (EventBroker.subscribe run_id b).1 with (EventBroker.next_handle b).
  assert (queue_of b run_id (EventBroker.next_handle b) = None) as Hnone.
  { destruct (queue_of b run_id (EventBroker.next_handle b)) as [q|] eqn:Hq; [|done].
    pose proof (handles_fresh_after ops run_id _ (mk_is_Some _ _ Hq)) as Hlt.
    fold b in Hlt. lia. }
  split; [done|]. split; [|split; [|split]].
  - rewrite subscribe_queue_of. by rewrite decide_True.
  - intros rid h' Hne. rewrite subscribe_queue_of.
    rewrite decide_False; [done|]. intros [Hr Hh]. apply Hne. by rewrite Hr, Hh.
  - intros rid h'. rewrite unsubscribe_queue_of, subscribe_queue_of.
    case_decide as Hc; [|done]. destruct Hc as [-> ->]. done.
  - intros event. rewrite publish_queue_of.
    destruct (decide (ev_run_id event = run_id));
      rewrite unsubscribe_queue_of, decide_True by done; done.
Qed.

End broker_sequences.

(** ** Replanning: the nodes downstream of a failure *)

Section reflection_facts.

Implicit Types (edges : list Edge) (adj : gmap string (list string))
  (queue : list string) (seen : gset string).

Lemma adjacency_snoc edges e :
  ReflectionService.adjacency (edges ++ [e])
  = <[edge_source e :=
        default [] (ReflectionService.adjacency edges !! edge_source e)
        ++ [edge_target e]]> (ReflectionService.adjacency edges).
Proof. unfold ReflectionService.adjacency. by rewrite foldl_app. Qed.

Lemma adjacency_children edges a b :
  b ∈ default [] (ReflectionService.adjacency edges !! a) ↔ edge_rel edges a b.
Proof.
  unfold edge_rel. induction edges as [|e edges IH] using rev_ind.
  - cbn. rewrite lookup_empty. cbn. split; intros H; by apply elem_of_nil in H.
  - rewrite adjacency_snoc, elem_of_app, list_elem_of_singleton.
    destruct (decide (edge_source e = a)) as [Ha|Ha].
    + subst a. rewrite lookup_insert_eq. cbn.
      rewrite elem_of_app, list_elem_of_singleton, IH.
      split; (intros [?|Hb]; [by left|right]).
      * subst b. by destruct e.
      * by rewrite <- Hb.
    + rewrite lookup_insert_ne by done. rewrite IH.
      split; [by left|]. intros [?|Hb]; [done|]. subst e. done.
Qed.

(** One pass of the [for child in adjacency.get(current, [])] loop. *)
Lemma visit_children (cs : list string) queue seen :
  ∃ news,
    foldl (λ '(q, s) child,
             if decide (child ∈ s) then (q, s) else (q ++ [child], {[child]} ∪ s))
          (queue, seen) cs
    = (queue ++ news, seen ∪ list_to_set cs)
    ∧ NoDup news
    ∧ ∀ x, x ∈ news ↔ x ∈ cs ∧ x ∉ seen.
Proof.
  revert queue seen. induction cs as [|c cs IH]; intros queue seen.
  - exists []. cbn. rewrite app_nil_r, union_empty_r_L.
    split; [done|]. split; [constructor|]. intros x.
    split; [by intros ?%elem_of_nil | by intros [?%elem_of_nil _]].
  - cbn [foldl]. destruct (decide (c ∈ seen)) as [Hc|Hc].
    + destruct (IH queue seen) as (news & -> & Hnd & Hnews). exists news.
      split; [f_equal; apply leibniz_equiv; intros x;
              rewrite list_to_set_cons, !elem_of_union, elem_of_singleton;
              split; [tauto | intros [?|[->|?]]; tauto]|].
      split; [done|]. intros x.
      rewrite Hnews, elem_of_cons. split; [by intros [? ?]; split; [right|]|].
      intros [[->|?] ?]; done.
    + destruct (IH (queue ++ [c]) ({[c]} ∪ seen)) as (news & -> & Hnd & Hnews).
      exists (c :: news). split; [|split].
      * rewrite <- app_assoc. f_equal. apply leibniz_equiv. intros x.
        rewrite list_to_set_cons, !elem_of_union, elem_of_singleton. tauto.
      * constructor; [|done]. rewrite Hnews, elem_of_union, elem_of_singleton.
        tauto.
      * intros x. rewrite !elem_of_cons, Hnews.
        destruct (decide (x = c)) as [->|Hx]; [by split; [intros _; split; [left|]|left]|].
        split.
        -- intros [?|[? Hn]]; [done|]. split; [by right|].
           rewrite elem_of_union in Hn. tauto.
        -- intros [[?|?] ?]; [done|]. right. split; [done|].
           rewrite elem_of_union, elem_of_singleton. tauto.
Qed.

(** The ids reachable from a set of ids along the edges. *)
Let reach (edges : list Edge) (init : gset string) (x : string) : Prop :=
  ∃ f, f ∈ init ∧ rtc (edge_rel edges) f x.

Let targets (edges : list Edge) : gset string :=
  list_to_set (edge_target <$> edges).

Lemma child_is_target edges a b : edge_rel edges a b → b ∈ targets edges.
Proof.
  intros H. unfold targets. rewrite elem_of_list_to_set, list_elem_of_fmap.
  by exists {| edge_source := a; edge_target := b |}.
Qed.

Lemma bfs_reach edges (init : gset string) fuel queue seen :
  (∀ x, x ∈ queue → x ∈ seen) →
  init ⊆ seen →
  (∀ x, x ∈ seen → reach edges init x) →
  (∀ x, x ∈ seen → x ∉ queue → ∀ c, edge_rel edges x c → c ∈ seen) →
  (length queue + size (targets edges ∖ seen) ≤ fuel)%nat →
  ∀ x, x ∈ ReflectionService.bfs fuel (ReflectionService.adjacency edges) queue seen
       ↔ reach edges init x.
Proof.
  revert queue seen. induction fuel as [|fuel IH]; intros queue seen H1 H2 H3 H4 H5.
  - assert (queue = []) as -> by (destruct queue; [done|cbn in H5; lia]).
    cbn. intros x. split; [apply H3|]. intros (f & Hf & Hrtc).
    apply (rtc_ind_r (R := edge_rel edges) (λ z, z ∈ seen) f); [by apply H2| |done].
    intros y z _ Hyz Hy. eapply H4; [done| |done]. by intros ?%elem_of_nil.
  - destruct queue as [|current rest].
    + cbn. intros x. split; [apply H3|]. intros (f & Hf & Hrtc).
      apply (rtc_ind_r (R := edge_rel edges) (λ z, z ∈ seen) f); [by apply H2| |done].
      intros y z _ Hyz Hy. eapply H4; [done| |done]. by intros ?%elem_of_nil.
    + cbn [ReflectionService.bfs].
      destruct (visit_children
                  (default [] (ReflectionService.adjacency edges !! current)) rest seen)
        as (news & Heq & Hnd & Hnews).
      rewrite Heq.
      set (cs := default [] (ReflectionService.adjacency edges !! current)) in *.
      assert (∀ c, c ∈ cs ↔ edge_rel edges current c) as Hcs
        by (intros c; apply adjacency_children).
      assert (current ∈ seen) as Hcur by (apply H1; left).
      apply IH.
      * intros x. rewrite elem_of_app, elem_of_union, elem_of_list_to_set, Hnews.
        intros [Hx|[Hx _]]; [left; apply H1; by right | by right].
      * intros x Hx. apply elem_of_union. left. by apply H2.
      * intros x. rewrite elem_of_union, elem_of_list_to_set.
        intros [Hx|Hx]; [by apply H3|].
        destruct (H3 current Hcur) as (f & Hf & Hrtc). exists f. split; [done|].
        eapply rtc_r; [done|]. by apply Hcs.
      * intros x. rewrite elem_of_union, elem_of_list_to_set, elem_of_app, Hnews.
        intros Hx Hnq c Hc. rewrite elem_of_union, elem_of_list_to_set.
        destruct (decide (x = current)) as [->|Hxc]; [right; by apply Hcs|].
        destruct (decide (x ∈ seen)) as [Hs|Hs].
        -- left. eapply (H4 x); [done| |done].
           intros [?|?]%elem_of_cons; [done|]. apply Hnq. by left.
        -- destruct Hx as [?|Hx]; [done|]. exfalso. apply Hnq. by right.
      * rewrite length_app.
        assert (list_to_set news ## targets edges ∖ (seen ∪ list_to_set cs)) as Hdisj.
        { intros x. rewrite elem_of_list_to_set, Hnews, elem_of_difference,
            elem_of_union, elem_of_list_to_set. intros [? _] [_ Hn]. apply Hn. by right. }
        assert (list_to_set news ∪ targets edges ∖ (seen ∪ list_to_set cs)
                ⊆ targets edges ∖ seen) as Hsub.
        { intros x. rewrite elem_of_union, elem_of_list_to_set, Hnews,
            !elem_of_difference, elem_of_union.
          intros [[Hx Hn]|[Hx Hn]].
          - split; [|done]. eapply child_is_target. by apply Hcs.
          - split; [done|]. intros ?. apply Hn. by left. }
        apply subseteq_size in Hsub. rewrite size_union in Hsub by done.
        rewrite size_list_to_set in Hsub by done. cbn in H5. lia.
Qed.

Lemma size_list_to_set_le (l : list string) :
  (size (list_to_set l : gset string) ≤ length l)%nat.
Proof.
  induction l as [|x l IH]; cbn.
  - rewrite size_empty. lia.
  - rewrite size_union_alt, size_singleton.
    assert (size (list_to_set l ∖ {[x]} : gset string)
            ≤ size (list_to_set l : gset string))%nat
      by (by apply subseteq_size, subseteq_difference_l).
    lia.
Qed.

Lemma failed_ids_elem dag id :
  id ∈ failed_ids_of dag
  ↔ ∃ f, f ∈ dag_nodes dag ∧ node_status f = STEP_FAILED ∧ node_id f = id.
Proof.
  unfold failed_ids_of. rewrite elem_of_list_to_set, list_elem_of_fmap.
  split.
  - intros (f & -> & Hf). apply list_elem_of_filter in Hf as [? ?]. by exists f.
  - intros (f & ? & ? & <-). exists f. split; [done|]. by apply list_elem_of_filter.
Qed.

Lemma skip_failed_descendants_nodes (state : State) :
  let dag := st_dag state in
  let state' := ReflectionService._skip_failed_descendants state in
  dag_nodes (st_dag state')
  = (λ n, if bool_decide (node_status n = PENDING
                          ∧ node_id n ∈ ReflectionService.bfs
                                          (size (failed_ids_of dag) + length (dag_edges dag))
                                          (ReflectionService.adjacency (dag_edges dag))
                                          (elements (failed_ids_of dag))
                                          (failed_ids_of dag))
          then skipped_node dag n else n) <$> dag_nodes dag
  ∧ (∀ id, id ∈ ReflectionService.bfs
                  (size (failed_ids_of dag) + length (dag_edges dag))
                  (ReflectionService.adjacency (dag_edges dag))
                  (elements (failed_ids_of dag)) (failed_ids_of dag)
           ↔ downstream_of_failed dag id)
  ∧ dag_edges (st_dag state') = dag_edges dag
  ∧ dag_contracts (st_dag state') = dag_contracts dag.
Proof.
  intros dag state'.
  assert (∀ id, id ∈ ReflectionService.bfs
                  (size (failed_ids_of dag) + length (dag_edges dag))
                  (ReflectionService.adjacency (dag_edges dag))
                  (elements (failed_ids_of dag)) (failed_ids_of dag)
           ↔ downstream_of_failed dag id) as Hbfs.
  { intros id.
    rewrite (bfs_reach (dag_edges dag) (failed_ids_of dag)).
    - unfold reach, downstream_of_failed. split.
      + intros (f & Hf & Hrtc). apply failed_ids_elem in Hf as (n & ? & ? & <-).
        by exists n.
      + intros (n & ? & ? & Hrtc). exists (node_id n). split; [|done].
        apply failed_ids_elem. by exists n.
    - intros x. by rewrite elem_of_elements.
    - done.
    - intros x Hx. exists x. by split.
    - intros x Hx Hn. exfalso. apply Hn. by apply elem_of_elements.
    - assert (size (targets (dag_edges dag) ∖ failed_ids_of dag)
              ≤ length (dag_edges dag))%nat as Hsz;
        [|change (length (elements (failed_ids_of dag)))
            with (size (failed_ids_of dag)); lia].
      etrans; [apply subseteq_size, subseteq_difference_l; reflexivity|].
      unfold targets. etrans; [apply size_list_to_set_le|]. by rewrite length_fmap. }
  split; [|split; [done|]].
  - subst state'. unfold ReflectionService._skip_failed_descendants.
    fold dag. change (list_to_set (node_id <$> filter _ (dag_nodes dag)))
      with (failed_ids_of dag).
    case_decide as Hempty.
    + etrans; [symmetry; apply list_fmap_id|]. apply list_fmap_ext.
      intros i n Hn. cbn. rewrite bool_decide_eq_false_2; [done|].
      intros [_ Hin]. apply Hbfs in Hin as (f & Hf & Hs & _).
      assert (node_id f ∈ failed_ids_of dag) as Hin
        by (apply failed_ids_elem; by exists f).
      rewrite Hempty in Hin. by apply elem_of_empty in Hin.
    + cbn [st_dag set_dag dag_nodes dag_set_nodes]. apply list_fmap_ext.
      intros i n Hn. repeat case_bool_decide; cbn [andb]; try done; exfalso; tauto.
  - subst state'. unfold ReflectionService._skip_failed_descendants.
    by case_decide.
Qed.

(** X5.  What [_skip_failed_descendants] does to each node: a pending node whose
    id is the id of a failed node, or can be reached from the id of a failed
    node along the edges of the DAG, becomes skipped, with an error that
    names the failed nodes; every other node, the edges and the contracts stay
    as they are.  The dependencies listed in [depends_on] play no part. *)
Theorem skip_failed_descendants_follows_edges (state : State) :
  let dag := st_dag state in
  let dag' := st_dag (ReflectionService._skip_failed_descendants state) in
  length (dag_nodes dag') = length (dag_nodes dag)
  ∧ (∀ i n, dag_nodes dag !! i = Some n →
       (node_status n = PENDING ∧ downstream_of_failed dag (node_id n) →
        dag_nodes dag' !! i = Some (skipped_node dag n))
       ∧ (¬ (node_status n = PENDING ∧ downstream_of_failed dag (node_id n)) →
          dag_nodes dag' !! i = Some n))
  ∧ dag_edges dag' = dag_edges dag
  ∧ dag_contracts dag' = dag_contracts dag.
Proof.
  intros dag dag'.
  destruct (skip_failed_descendants_nodes state) as (Hnodes & Hbfs & He & Hc).
  fold dag dag' in Hnodes, Hbfs, He, Hc.
  split; [by rewrite Hnodes, length_fmap|]. split; [|done].
  intros i n Hn. rewrite Hnodes, list_lookup_fmap, Hn. cbn.
  split; intros Hcase.
  - rewrite bool_decide_eq_true_2; [done|]. destruct Hcase as [? Hd].
    split; [done|]. by apply Hbfs.
  - rewrite bool_decide_eq_false_2; [done|]. intros [? Hd]. apply Hcase.
    split; [done|]. by apply Hbfs.
Qed.

End reflection_facts.

(** ** What a reflection leaves behind *)

Lemma skip_failed_descendants_run_id (state : State) :
  st_run_id (ReflectionService._skip_failed_descendants state) = st_run_id state
  ∧ st_should_finish (ReflectionService._skip_failed_descendants state)
    = st_should_finish state
  ∧ st_finish_status (ReflectionService._skip_failed_descendants state)
    = st_finish_status state
  ∧ st_finish_reason (ReflectionService._skip_failed_descendants state)
    = st_finish_reason state.
Proof. unfold ReflectionService._skip_failed_descendants. by case_decide. Qed.

(** X6.  Every reflection is recorded.  When reflection is needed, [reflect]
    appends one diagnostic to the diagnostics of the run, with the reason, the
    failure mode and the action taken, emits a [reflection] event with the
    same diagnostic as its last event, and clears [reflection_needed],
    [reflection_reason] and [failure_mode].  The action is [replanned] for
    the mode [schema_error], [adjusted_parameters] for [low_confidence] and
    [terminated] for every other mode; [terminated] ends the run, as failed
    with the reason [reflection_terminated] unless it was already to end as
    failed or canceled.  The step rows are not touched.  When reflection is
    not needed, [reflect] does nothing. *)
Theorem reflect_records_its_diagnostic (state : State) (w : World) :
  let res := ReflectionService.reflect state w in
  let mode := py_or (st_failure_mode state) "other" in
  let action := ReflectionService._decide_action mode in
  let diagnostic :=
    {| diag_reason := py_or (st_reflection_reason state) "Reflection requested";
       diag_failure_mode := mode;
       diag_action_taken := ReflectionAction_value action |} in
  (st_reflection_needed state = false → res = (state, w))
  ∧ (st_reflection_needed state = true →
     (∀ run, runs w !! st_run_id state = Some run →
        run_diagnostics <$> runs res.2 !! st_run_id state
        = Some (run_diagnostics run ++ [diagnostic]))
     ∧ (∃ e, last (events res.2) = Some e
             ∧ ev_run_id e = st_run_id state
             ∧ ev_event_type e = "reflection"
             ∧ ev_payload e = PReflection diagnostic)
     ∧ st_reflection_needed res.1 = false
     ∧ st_reflection_reason res.1 = None
     ∧ st_failure_mode res.1 = None
     ∧ steps res.2 = steps w
     ∧ action = (if decide (mode = "schema_error") then REPLANNED
                 else if decide (mode = "low_confidence") then ADJUSTED_PARAMETERS
                 else TERMINATED)
     ∧ (action = TERMINATED →
        st_should_finish res.1 = true
        ∧ (if bool_decide (st_finish_status state = Some FAILED
                           ∨ st_finish_status state = Some CANCELED)
           then st_finish_status res.1 = st_finish_status state
                ∧ st_finish_reason res.1 = st_finish_reason state
           else st_finish_status res.1 = Some FAILED
                ∧ st_finish_reason res.1 = Some "reflection_terminated"))
     ∧ (action ≠ TERMINATED →
        st_should_finish res.1 = st_should_finish state
        ∧ st_finish_status res.1 = st_finish_status state
        ∧ st_finish_reason res.1 = st_finish_reason state)).
Proof.
  intros res mode action diagnostic. subst res.
  unfold ReflectionService.reflect. split; [by intros ->|]. intros ->.
  cbn [negb]. fold mode. fold action. fold diagnostic.
  assert (action = (if decide (mode = "schema_error") then REPLANNED
                    else if decide (mode = "low_confidence") then ADJUSTED_PARAMETERS
                    else TERMINATED)) as Haction.
  { unfold action, ReflectionService._decide_action.
    case_bool_decide as Hm; [by destruct Hm as [-> | ->]|].
    repeat case_decide; done. }
  destruct (skip_failed_descendants_run_id state) as (Hid & Hsf & Hfs & Hfr).
  destruct action eqn:Ha;
    cbn [fst snd st_run_id set_reflection_model_preference set_should_finish];
    rewrite ?Hid.
  - split; [|split; [|split; [|split; [|split; [|split; [|split; [|split]]]]]]];
      try done.
    + intros run Hrun. unfold Repository.append_run_diagnostic, Repository.get_run.
      cbn. rewrite Hrun. cbn. by rewrite lookup_alter_eq, Hrun.
    + eexists. split; [apply last_snoc|]. by repeat split.
    + unfold Repository.append_run_diagnostic. cbn.
      by destruct (Repository.get_run _ _).
  - split; [|split; [|split; [|split; [|split; [|split; [|split; [|split]]]]]]];
      try done.
    + intros run Hrun. unfold Repository.append_run_diagnostic, Repository.get_run.
      rewrite Hrun. cbn. by rewrite lookup_alter_eq, Hrun.
    + eexists. split; [apply last_snoc|]. by repeat split.
    + unfold Repository.append_run_diagnostic.
      by destruct (Repository.get_run _ _).
  - assert (∀ st : State, st_run_id st = st_run_id state →
              (∀ run, runs w !! st_run_id state = Some run →
                 run_diagnostics
                   <$> runs (_emit_event (st_run_id st) None "reflection"
                               (PReflection diagnostic)
                               (Repository.append_run_diagnostic (st_run_id st)
                                  diagnostic w)) !! st_run_id state
                 = Some (run_diagnostics run ++ [diagnostic]))
              ∧ (∃ e, last (events (_emit_event (st_run_id st) None "reflection"
                                      (PReflection diagnostic)
                                      (Repository.append_run_diagnostic (st_run_id st)
                                         diagnostic w))) = Some e
                      ∧ ev_run_id e = st_run_id state
                      ∧ ev_event_type e = "reflection"
                      ∧ ev_payload e = PReflection diagnostic)
              ∧ steps (_emit_event (st_run_id st) None "reflection"
                         (PReflection diagnostic)
                         (Repository.append_run_diagnostic (st_run_id st)
                            diagnostic w)) = steps w) as Hw.
    { intros st ->. split; [|split].
      - intros run Hrun. unfold Repository.append_run_diagnostic, Repository.get_run.
        rewrite Hrun. cbn. by rewrite lookup_alter_eq, Hrun.
      - eexists. split; [apply last_snoc|]. by repeat split.
      - unfold Repository.append_run_diagnostic.
        by destruct (Repository.get_run _ _). }
    change (st_finish_status (set_should_finish true state))
      with (st_finish_status state).
    case_bool_decide as Hfin; cbn [fst snd];
      (match goal with
       | |- context [_emit_event (st_run_id ?st)] =>
           destruct (Hw st eq_refl) as (H1 & H2 & H3)
       end);
      (split; [done|]; split; [done|]; split; [done|]; split; [done|];
       split; [done|]; split; [done|]; split; [done|]; split; [|done]);
      intros _; by repeat split.
Qed.

(** ** The monitor with a reflection interval of zero *)

(** X7.  [evaluate] raises in one situation only.  When [evaluate] raises,
    the reflection interval is 0 and the step counter is positive: the
    exception is the one of [step_counter % interval]; with an interval other
    than 0 [evaluate] returns a state.  And it does raise when the interval is
    0 after the first step of a run that is to go on: the run is stored and
    not asked to cancel, within its timeout and its budget, a node is runnable
    and the step counter is positive and below [max_steps]. *)
Theorem evaluate_raises_only_for_zero_interval (state : State) (w : World) :
  let interval := reflection_interval_steps (st_constraints state) in
  let elapsed := Z.quot (now w - st_run_started_monotonic state) 1000 in
  (∀ msg, MonitorService.evaluate state w = Raise msg →
     interval = 0 ∧ 0 < st_step_counter state)
  ∧ (interval ≠ 0 → ∃ state', MonitorService.evaluate state w = Ok state')
  ∧ (∀ run, runs w !! st_run_id state = Some run →
       cancel_requested run = false →
       elapsed < timeout_s (st_constraints state) →
       total_usd run < budget_usd (st_constraints state) →
       MonitorService._has_runnable_nodes (st_dag state) = true →
       0 < st_step_counter state < max_steps (st_constraints state) →
       interval = 0 →
       ∃ msg, MonitorService.evaluate state w = Raise msg).
Proof.
  intros interval elapsed. subst interval elapsed. split; [|split].
  - intros msg H. unfold MonitorService.evaluate in H.
    repeat match type of H with
           | context [match ?x with _ => _ end] => destruct x eqn:?
           end; try discriminate H.
    split; [done|].
    match goal with
    | Hp : bool_decide (0 < _) = true |- _ => by apply bool_decide_eq_true_1 in Hp
    end.
  - intros Hint. rewrite evaluate_cascade by done. by eexists.
  - intros run Hrun Hc Ht Hb Hr [Hpos Hmax] Hint.
    rewrite evaluate_cascade_zero by done.
    pose proof Hr as Hex. unfold MonitorService._has_runnable_nodes in Hex.
    apply has_runnable_true in Hr as (j & m & Hj & Hm).
    unfold ExecutorService.runnable in Hm. apply andb_true_iff in Hm as [Hp _].
    apply bool_decide_eq_true_1 in Hp.
    assert (m ∈ dag_nodes (st_dag state)) as Hin by (by eapply list_elem_of_lookup_2).
    assert (node_has PENDING (dag_nodes (st_dag state)) = true) as Hpend.
    { unfold node_has. apply existsb_exists. exists m.
      split; [by apply list_elem_of_In | by apply bool_decide_eq_true_2]. }
    assert (forallb (λ n, bool_decide (node_status n = STEP_COMPLETED
                                       ∨ node_status n = SKIPPED))
              (dag_nodes (st_dag state)) = false) as Hall.
    { destruct (forallb _ _) eqn:Hf; [|done]. rewrite forallb_forall in Hf.
      apply list_elem_of_In, Hf, bool_decide_eq_true_1 in Hin.
      rewrite Hp in Hin. by destruct Hin. }
    unfold spec_rules, Repository.get_run. rewrite Hrun.
    cbn [fmap option_fmap option_map default from_option id lookup list_lookup
         rule_guard].
    rewrite Hc, Hall, Hex, Hpend.
    rewrite (bool_decide_eq_false_2 (Some run = None)) by done.
    rewrite (bool_decide_eq_false_2 (timeout_s _ ≤ _)) by lia.
    rewrite (bool_decide_eq_false_2 (budget_usd _ ≤ _)) by lia.
    rewrite (bool_decide_eq_false_2 (max_steps _ ≤ _)) by lia.
    rewrite (bool_decide_eq_true_2 (0 < _)) by lia. by eexists.
Qed.

(** ** The executor: a step that succeeds, a step that may not call the model *)

Section executor_paths.

Context (settings : Settings) (provider : LLMProvider).

Lemma upsert_step_frame q w :
  llm_calls (Repository.upsert_step q w) = llm_calls w
  ∧ templates (Repository.upsert_step q w) = templates w
  ∧ broker (Repository.upsert_step q w) = broker w.
Proof. unfold Repository.upsert_step. by destruct (decide (step_id q = "")). Qed.

(** The world and the state after [prepare]. *)
Lemma prepare_effects state request_id i n w :
  let key := (st_run_id state, node_id n) in
  let res := ExecutorService.prepare state request_id (i, n) w in
  let p := res.1.1 in
  let st1 := res.1.2 in
  let w1 := res.2 in
  pr_attempts p = from_option (λ r0, row_attempts r0 + 1) 1 (steps w !! key)
  ∧ pr_max_retries p
    = get_default
        (c_max_retries (default empty_contract (dag_contracts (st_dag state) !! node_id n)))
        2
  ∧ pr_started_at p = now w
  ∧ st_dag st1
    = dag_set_nodes (<[i := node_set_status STEP_RUNNING n]> (dag_nodes (st_dag state)))
        (st_dag state)
  ∧ st_task st1 = st_task state
  ∧ st_failure_mode st1 = st_failure_mode state
  ∧ st_reflection_needed st1 = st_reflection_needed state
  ∧ llm_calls w1 = llm_calls w
  ∧ cost_ledger w1 = cost_ledger w
  ∧ now w1 = now w
  ∧ runs w1 = alter (apply_patch (patch_dag (st_dag st1))) (st_run_id state) (runs w)
  ∧ ∃ r, steps w1 = <[key := r]> (steps w) ∧ row_status r = STEP_RUNNING.
Proof.
  unfold ExecutorService.prepare, Repository.get_step_by_node. cbn.
  destruct (steps w !! (st_run_id state, node_id n)) as [r|]; cbn.
  - match goal with
    | |- context [Repository.upsert_step ?p ?w'] =>
        unfold Repository.upsert_step; destruct (decide (step_id p = "")); cbn
    end; repeat split; by eexists.
  - repeat split; by eexists.
Qed.

(** X8.  A step that succeeds.  When [execute_next] finds a node, the contract of
    the node allows [llm.generate] and the provider answers within the
    timeout of the contract, the step row of the node is completed with one
    more attempt than the row had before (1 for a new row), the output and the
    cost; the node is completed with that output and no error; one cost entry
    is added to the ledger and the totals of the run grow by the same amounts;
    the provider was called once and the step counter is one higher. *)
Theorem execute_next_completes_the_step
    (state : State) (request_id : string) (i : nat) (n : Node) (w : World)
    (resp : LLMCallResult) (ms : Z) :
  let contract := default empty_contract (dag_contracts (st_dag state) !! node_id n) in
  let preference := ExecutorService.model_preference_of state contract in
  let model := ModelRouter.for_step settings preference EXECUTOR in
  let cost := CostEstimator.estimate settings model (llm_prompt_tokens resp)
                (llm_completion_tokens resp) in
  let payload :=
    {| cp_provider := llm_provider resp; cp_model := model;
       cp_prompt_tokens := llm_prompt_tokens resp;
       cp_completion_tokens := llm_completion_tokens resp;
       cp_total_tokens := llm_prompt_tokens resp + llm_completion_tokens resp;
       cp_usd := ce_usd cost |} in
  let output :=
    {| out_summary := llm_content resp;
       out_confidence := if decide (preference = "expensive") then 85 else 70;
       out_model := llm_model resp; out_provider := llm_provider resp;
       out_node_id := node_id n |} in
  let key := (st_run_id state, node_id n) in
  let res := ExecutorService.execute_next settings provider state request_id w in
  ExecutorService._next_runnable_node (st_dag state) = Some (i, n) →
  "llm.generate" ∈ get_default (c_allowed_tools contract) ["llm.generate"] →
  provider (llm_calls w) model = Responds resp ms →
  ms < get_default (c_timeout_s contract) 30 * 1000 →
  (∃ r, steps res.2 !! key = Some r
        ∧ row_status r = STEP_COMPLETED
        ∧ row_attempts r = from_option (λ r0, row_attempts r0 + 1) 1 (steps w !! key)
        ∧ row_max_retries r = get_default (c_max_retries contract) 2
        ∧ row_started_at r = Some (now w)
        ∧ row_ended_at r = Some (now w + Z.max 0 ms)
        ∧ row_output r = Some output ∧ row_error r = None
        ∧ row_cost r = Some payload)
  ∧ (∀ key', key' ≠ key → steps res.2 !! key' = steps w !! key')
  ∧ dag_nodes (st_dag res.1)
    = <[i := node_set_last_error None
               (node_set_last_output (Some output)
                  (node_set_status STEP_COMPLETED n))]> (dag_nodes (st_dag state))
  ∧ (∃ entry, cost_ledger res.2 = cost_ledger w ++ [entry]
              ∧ cost_run_id entry = st_run_id state
              ∧ cost_model entry = model
              ∧ cost_prompt_tokens entry = llm_prompt_tokens resp
              ∧ cost_completion_tokens entry = llm_completion_tokens resp
              ∧ cost_total_tokens entry
                = llm_prompt_tokens resp + llm_completion_tokens resp
              ∧ cost_usd entry = ce_usd cost
              ∧ cm_phase (cost_metadata entry) = "step_execution"
              ∧ cm_node_id (cost_metadata entry) = Some (node_id n))
  ∧ (∀ run, runs w !! st_run_id state = Some run →
       ∃ run', runs res.2 !! st_run_id state = Some run'
               ∧ total_prompt_tokens run'
                 = total_prompt_tokens run + llm_prompt_tokens resp
               ∧ total_completion_tokens run'
                 = total_completion_tokens run + llm_completion_tokens resp
               ∧ total_tokens run'
                 = total_tokens run
                   + (llm_prompt_tokens resp + llm_completion_tokens resp)
               ∧ total_usd run' = total_usd run + ce_usd cost
               ∧ run_dag run' = st_dag res.1
               ∧ run_status run' = run_status run)
  ∧ llm_calls res.2 = S (llm_calls w)
  ∧ st_step_counter res.1 = st_step_counter state + 1
  ∧ st_reflection_needed res.1 = st_reflection_needed state
  ∧ (ev_event_type <$> drop (length (events w)) (events res.2))
    = ["step_started"; "step_finished"].
Proof.
  intros contract preference model cost payload output key res Hnext Htool Hresp Hms.
  subst res. unfold ExecutorService.execute_next. rewrite Hnext.
  pose proof (prepare_effects state request_id i n w) as Hp.
  pose proof (prepare_spec state request_id i n w) as Hq.
  destruct (ExecutorService.prepare state request_id (i, n) w) as [[p st1] w1].
  cbn [fst snd] in Hp, Hq.
  destruct Hp as (Hatt & Hmax & Hstart & Hdag & Htask & Hfm & Hrn & Hcalls & Hledger
                  & Hnow & Hruns & r1 & Hsteps & _).
  destruct Hq as (Hnode & Hcontract & _ & Hrun & Hsc & Hhint & e1 & Hev1 & _ & Hty1 & _).
  fold contract in Hcontract, Hmax. fold key in Hatt, Hsteps.
  assert (ExecutorService.model_preference_of st1 (pr_contract p) = preference) as Hpref
    by (unfold preference, ExecutorService.model_preference_of;
        by rewrite Hhint, Hcontract).
  assert (ExecutorService.attempt settings provider st1 (pr_contract p)
            (node_id (pr_node p).2) w1
          = (inl (model, resp, output), advance ms (count_llm_call w1))) as ->.
  { unfold ExecutorService.attempt. rewrite Hcontract, Hnode.
    rewrite bool_decide_eq_false_2 by (by intros ?).
    rewrite <- Hcontract, Hpref, Hcontract. fold model. rewrite Hcalls, Hresp.
    rewrite bool_decide_eq_true_2 by done.
    unfold validate_output_with_contract. cbn [node_id node_set_status snd].
    rewrite bool_decide_eq_true_2 by (cbn; case_decide; lia). done. }
  unfold ExecutorService.complete. rewrite Hnode.
  cbn [node_id node_set_status fst snd].
  assert (cost = {| ce_prompt_tokens := llm_prompt_tokens resp;
                    ce_completion_tokens := llm_completion_tokens resp;
                    ce_total_tokens := llm_prompt_tokens resp + llm_completion_tokens resp;
                    ce_usd := ce_usd cost |}) as Hcost.
  { unfold cost, CostEstimator.estimate.
    by destruct (CostEstimator._rates_for_model settings model). }
  fold cost. rewrite Hcost.
  cbn [ce_prompt_tokens ce_completion_tokens ce_total_tokens ce_usd]. fold payload.
  rewrite Hrun.
  set (w2 := advance ms (count_llm_call w1)).
  assert (steps w2 = steps w1 ∧ runs w2 = runs w1 ∧ cost_ledger w2 = cost_ledger w1
          ∧ events w2 = events w1 ∧ llm_calls w2 = S (llm_calls w1)
          ∧ now w2 = now w1 + Z.max 0 ms) as (Hst2 & Hru2 & Hle2 & Hev2 & Hca2 & Hno2)
    by done.
  unfold utc_now_iso.
  match goal with
  | |- context [Repository.upsert_step ?q w2] =>
      destruct (upsert_step_steps q w2) as (r2 & Hs2 & Hm2 & _);
      destruct (upsert_step_other q w2) as (Hr2 & He2 & Hl2 & Hn2);
      destruct (upsert_step_frame q w2) as (Hc2 & _);
      set (w3 := Repository.upsert_step q w2) in *
  end.
  destruct Hm2 as (? & ? & ? & ? & ? & _ & ? & ? & ? & _).
  cbn [step_status step_attempts step_max_retries step_started_at step_ended_at
       step_output step_error step_cost step_run_id step_node_id] in *.
  cbn [fst snd st_dag set_dag set_step_counter st_step_counter st_run_id
       st_reflection_needed dag_nodes dag_set_nodes].
  rewrite Hrn, Hsc.
  split; [|split; [|split; [|split; [|split; [|split; [|split; [|split]]]]]]].
  - exists r2. cbn. rewrite ?Hrun, Hs2, Hst2, Hsteps, ?Hrun, lookup_insert_eq.
    rewrite Hatt, Hmax, Hstart in *. rewrite Hno2, Hnow in *. by repeat split.
  - intros key' Hne. cbn. rewrite ?Hrun, Hs2, Hst2, Hsteps, ?Hrun.
    by rewrite !lookup_insert_ne.
  - rewrite Hdag. cbn. by rewrite list_insert_insert_eq.
  - eexists. cbn. rewrite Hl2, Hle2, Hledger. split; [reflexivity|].
    by repeat split.
  - intros run Hrunrow. cbn. rewrite Hr2, Hru2, Hruns, ?Hrun.
    rewrite !lookup_alter_eq, Hrunrow. cbn. eexists. split; [reflexivity|].
    by repeat split.
  - cbn. by rewrite Hc2, Hca2, Hcalls.
  - done.
  - done.
  - cbn. rewrite He2, Hev2, Hev1. rewrite <- app_assoc.
    rewrite drop_app_length. cbn. by rewrite Hty1.
Qed.

(** What an attempt that fails is: the contract does not allow the tool and
    the provider is not called, or the provider is called and takes the whole
    timeout, or it is called and raises in time. *)
Lemma attempt_failure state contract nid w err w' :
  ExecutorService.attempt settings provider state contract nid w = (inr err, w') →
  let tools := get_default (c_allowed_tools contract) ["llm.generate"] in
  (see_code err = TOOL_NOT_ALLOWED ∧ see_details err = DAllowedTools tools
   ∧ ("llm.generate" ∉ tools) ∧ w' = w)
  ∨ ((see_code err = TIMEOUT ∨ see_code err = EXECUTION_ERROR)
     ∧ "llm.generate" ∈ tools
     ∧ ∃ ms, w' = advance ms (count_llm_call w)).
Proof.
  unfold ExecutorService.attempt. intros H.
  case_bool_decide as Htool.
  { injection H as <- <-. left. by repeat split. }
  right.
  destruct (provider _ _) as [resp ms|msg ms]; case_bool_decide as Hms.
  - unfold validate_output_with_contract in H.
    rewrite bool_decide_eq_true_2 in H by (cbn; case_decide; lia). done.
  - injection H as <- <-. split; [by left|]. split; [done|]. by eexists.
  - injection H as <- <-. split; [by right|]. split; [done|]. by eexists.
  - injection H as <- <-. split; [by left|]. split; [done|]. by eexists.
Qed.

(** The world and the state after [_handle_step_error]. *)
Lemma handle_step_error_effects state step i n attempts max_retries started_at error w :
  let key := (st_run_id state, node_id n) in
  let res := ExecutorService._handle_step_error state step (i, n) attempts max_retries
               started_at error w in
  let retry := bool_decide (attempts ≤ max_retries) in
  cost_ledger res.2 = cost_ledger w
  ∧ llm_calls res.2 = llm_calls w
  ∧ runs res.2 = alter (apply_patch (patch_dag (st_dag res.1))) (st_run_id state) (runs w)
  ∧ (∃ r, steps res.2 = <[key := r]> (steps w)
          ∧ row_status r = (if retry then PENDING else STEP_FAILED)
          ∧ row_attempts r = attempts ∧ row_max_retries r = max_retries
          ∧ row_error r = Some (ExecutorService.structured_error error)
          ∧ row_output r = None ∧ row_cost r = None)
  ∧ st_failure_mode res.1
    = (if retry then st_failure_mode state
       else Some (mapped_failure_mode (see_code error)))
  ∧ st_run_id res.1 = st_run_id state.
Proof.
  unfold ExecutorService._handle_step_error.
  case_bool_decide as Hle; cbn [fst snd];
    match goal with
    | |- context [Repository.upsert_step ?q w] =>
        destruct (upsert_step_steps q w) as (r & Hs & Hm & _);
        destruct (upsert_step_other q w) as (Hr & He & Hl & Hn);
        destruct (upsert_step_frame q w) as (Hc & _);
        set (w1 := Repository.upsert_step q w) in *
    end;
    destruct Hm as (? & ? & ? & _ & _ & _ & ? & ? & ? & _); cbn in *;
    rewrite ?Hs, ?Hr, ?Hl, ?Hc, ?map_failure_mode_value; repeat split; by eexists.
Qed.

(** The world and the state after [complete]. *)
Lemma complete_effects state request_id p model resp out w :
  let key := (st_run_id state, node_id (pr_node p).2) in
  let res := ExecutorService.complete settings state request_id p model resp out w in
  (∃ r, steps res.2 = <[key := r]> (steps w)
        ∧ row_status r = STEP_COMPLETED
        ∧ row_attempts r = pr_attempts p ∧ row_max_retries r = pr_max_retries p)
  ∧ st_failure_mode res.1 = st_failure_mode state.
Proof.
  unfold ExecutorService.complete. destruct (pr_node p) as [i n]. cbn [fst snd].
  match goal with
  | |- context [Repository.upsert_step ?q w] =>
      destruct (upsert_step_steps q w) as (r & Hs & Hm & _);
      set (w1 := Repository.upsert_step q w) in *
  end.
  destruct Hm as (? & ? & ? & _). cbn in *. rewrite Hs.
  split; [|done]. by exists r.
Qed.

(** X9.  Billing follows completion.  After a tick of the executor that found a
    node, the step row of the node is completed, or the attempt failed and
    nothing was billed: the row is pending or failed with an error and no
    cost, and the cost ledger and the totals of the run are what they were.
    The error code of a failed attempt is [tool_not_allowed], [timeout] or
    [execution_error], never [schema_error]; it is [tool_not_allowed] exactly
    when the contract does not list [llm.generate], and then the provider was
    not called. *)
Theorem execute_next_bills_only_completed_steps
    (state : State) (request_id : string) (i : nat) (n : Node) (w : World) :
  let contract := default empty_contract (dag_contracts (st_dag state) !! node_id n) in
  let tools := get_default (c_allowed_tools contract) ["llm.generate"] in
  let key := (st_run_id state, node_id n) in
  let res := ExecutorService.execute_next settings provider state request_id w in
  ExecutorService._next_runnable_node (st_dag state) = Some (i, n) →
  ∃ r, steps res.2 !! key = Some r
    ∧ (row_status r = STEP_COMPLETED
       ∨ ((row_status r = PENDING ∨ row_status r = STEP_FAILED)
          ∧ row_output r = None ∧ row_cost r = None
          ∧ (∃ code e,
               row_error r = Some e ∧ err_code e = FailureCode_value code
               ∧ (code = TOOL_NOT_ALLOWED ∨ code = TIMEOUT ∨ code = EXECUTION_ERROR)
               ∧ (code = TOOL_NOT_ALLOWED ↔ "llm.generate" ∉ tools)
               ∧ llm_calls res.2
                 = (if decide (code = TOOL_NOT_ALLOWED) then llm_calls w
                    else S (llm_calls w)))
          ∧ cost_ledger res.2 = cost_ledger w
          ∧ (∀ run, runs w !! st_run_id state = Some run →
               ∃ run', runs res.2 !! st_run_id state = Some run'
                       ∧ total_prompt_tokens run' = total_prompt_tokens run
                       ∧ total_completion_tokens run' = total_completion_tokens run
                       ∧ total_tokens run' = total_tokens run
                       ∧ total_usd run' = total_usd run)
          ∧ (st_failure_mode res.1 = st_failure_mode state
             ∨ st_failure_mode res.1 = Some "timeout"
             ∨ st_failure_mode res.1 = Some "other"))).
Proof.
  intros contract tools key res Hnext.
  subst res. unfold ExecutorService.execute_next. rewrite Hnext.
  pose proof (prepare_effects state request_id i n w) as Hp.
  pose proof (prepare_spec state request_id i n w) as Hq.
  destruct (ExecutorService.prepare state request_id (i, n) w) as [[p st1] w1].
  cbn [fst snd] in Hp, Hq.
  destruct Hp as (Hatt & Hmax & Hstart & Hdag & Htask & Hfm & Hrn & Hcalls & Hledger
                  & Hnow & Hruns & r1 & Hsteps & _).
  destruct Hq as (Hnode & Hcontract & _ & Hrun & _).
  fold contract in Hcontract. fold key in Hsteps.
  destruct (ExecutorService.attempt settings provider st1 (pr_contract p)
              (node_id (pr_node p).2) w1) as [[[[model resp] out]|err] w2] eqn:Hatt2.
  - destruct (complete_effects st1 request_id p model resp out w2)
      as ((r & Hs & Hst & _) & _).
    exists r. rewrite Hs, Hnode, Hrun. cbn [snd node_id node_set_status]. fold key.
    rewrite lookup_insert_eq. split; [done|]. by left.
  - pose proof (attempt_failure _ _ _ _ _ _ Hatt2) as Hfail.
    rewrite Hcontract in Hfail. cbn zeta in Hfail. fold tools in Hfail.
    rewrite Hnode.
    destruct (handle_step_error_effects st1 (pr_step_id p) i
                (node_set_status STEP_RUNNING n) (pr_attempts p) (pr_max_retries p)
                (pr_started_at p) err w2)
      as (Hl & Hc & Hr & (r & Hs & Hst & _ & _ & Herr & Hout & Hcost) & Hmode & _).
    cbn [node_id node_set_status] in Hs. rewrite Hrun in Hs, Hr. fold key in Hs.
    exists r. rewrite Hs, lookup_insert_eq. split; [done|]. right.
    assert (steps w2 = steps w1 ∧ runs w2 = runs w1 ∧ cost_ledger w2 = cost_ledger w1
            ∧ llm_calls w2
              = (if decide (see_code err = TOOL_NOT_ALLOWED) then llm_calls w1
                 else S (llm_calls w1))) as (Hs2 & Hr2 & Hl2 & Hc2).
    { destruct Hfail as [(Hcode & _ & _ & ->)|([Hcode|Hcode] & _ & ms & ->)];
        rewrite Hcode; by repeat split. }
    split; [|split; [done|]; split; [done|]; split; [|split; [|split]]].
    + rewrite Hst. case_bool_decide; [by left | by right].
    + exists (see_code err), (ExecutorService.structured_error err).
      split; [done|]. split; [done|]. split; [|split].
      * destruct Hfail as [(? & _)|([?|?] & _)]; tauto.
      * destruct Hfail as [(Hcode & _ & ? & _)|(Hcode & ? & _)]; [tauto|].
        split; [|done]. intros Ht. rewrite Ht in Hcode. by destruct Hcode.
      * by rewrite Hc, Hc2, Hcalls.
    + by rewrite Hl, Hl2, Hledger.
    + intros run Hrunrow. rewrite Hr, Hr2, Hruns, !lookup_alter_eq, Hrunrow. cbn.
      eexists. split; [reflexivity|]. by repeat split.
    + rewrite Hmode. case_bool_decide; [left; by rewrite Hfm|right].
      destruct Hfail as [(-> & _)|([->| ->] & _)]; cbn; tauto.
Qed.

(** X10.  One tick keeps the bound on the attempts.  When the step row of the node
    that [execute_next] picks is new, or has at most [max_retries] attempts
    (as a row has that waits for a scheduled retry or was reset by
    [reset_step]), the row has at most [max_retries + 1] attempts after the
    tick, and at most [max_retries] when the tick leaves it pending. *)
Theorem execute_next_keeps_attempts_bound
    (state : State) (request_id : string) (i : nat) (n : Node) (w : World) :
  let contract := default empty_contract (dag_contracts (st_dag state) !! node_id n) in
  let max_retries := get_default (c_max_retries contract) 2 in
  let key := (st_run_id state, node_id n) in
  let res := ExecutorService.execute_next settings provider state request_id w in
  ExecutorService._next_runnable_node (st_dag state) = Some (i, n) →
  0 ≤ max_retries →
  (∀ r0, steps w !! key = Some r0 → row_attempts r0 ≤ max_retries) →
  ∃ r, steps res.2 !! key = Some r
       ∧ row_max_retries r = max_retries
       ∧ row_attempts r = from_option (λ r0, row_attempts r0 + 1) 1 (steps w !! key)
       ∧ row_attempts r ≤ max_retries + 1
       ∧ (row_status r = PENDING → row_attempts r ≤ max_retries)
       ∧ (row_status r = STEP_FAILED → row_attempts r = max_retries + 1)
       ∧ (row_status r = PENDING ∨ row_status r = STEP_COMPLETED
          ∨ row_status r = STEP_FAILED).
Proof.
  intros contract max_retries key res Hnext Hmax0 Hrow.
  subst res. unfold ExecutorService.execute_next. rewrite Hnext.
  pose proof (prepare_effects state request_id i n w) as Hp.
  pose proof (prepare_spec state request_id i n w) as Hq.
  destruct (ExecutorService.prepare state request_id (i, n) w) as [[p st1] w1].
  cbn [fst snd] in Hp, Hq.
  destruct Hp as (Hatt & Hmax & _ & _ & _ & _ & _ & _ & _ & _ & _ & r1 & Hsteps & _).
  destruct Hq as (Hnode & Hcontract & _ & Hrun & _).
  fold contract in Hmax. fold max_retries in Hmax. fold key in Hsteps, Hatt.
  assert (pr_attempts p ≤ max_retries + 1) as Hbound.
  { rewrite Hatt. destruct (steps w !! key) as [r0|] eqn:Hr0; cbn; [|lia].
    specialize (Hrow r0 eq_refl). lia. }
  destruct (ExecutorService.attempt settings provider st1 (pr_contract p)
              (node_id (pr_node p).2) w1) as [[[[model resp] out]|err] w2] eqn:Hatt2.
  - destruct (complete_effects st1 request_id p model resp out w2)
      as ((r & Hs & Hst & Ha & Hm) & _).
    assert (steps w2 = steps w1) as Hs2.
    { unfold ExecutorService.attempt in Hatt2. case_bool_decide; [done|].
      destruct (provider _ _); case_bool_decide; try done.
      destruct (validate_output_with_contract _) as [[[] []] ?]; try done.
      by injection Hatt2 as _ _ _ <-. }
    exists r. rewrite Hs, Hnode, Hrun. cbn [snd node_id node_set_status]. fold key.
    rewrite lookup_insert_eq, Ha, Hm, Hst, Hmax, <- Hatt.
    repeat split; try done. by right; left.
  - rewrite Hnode.
    destruct (handle_step_error_effects st1 (pr_step_id p) i
                (node_set_status STEP_RUNNING n) (pr_attempts p) (pr_max_retries p)
                (pr_started_at p) err w2)
      as (_ & _ & _ & (r & Hs & Hst & Ha & Hm & _) & _).
    cbn [node_id node_set_status] in Hs. rewrite Hrun in Hs. fold key in Hs.
    exists r. rewrite Hs, lookup_insert_eq, Ha, Hm, Hmax, <- Hatt.
    case_bool_decide as Hle; rewrite Hmax in Hle; rewrite Hst.
    + split; [done|]. split; [done|]. split; [done|]. split; [lia|].
      split; [done|]. split; [done|]. by left.
    + split; [done|]. split; [done|]. split; [done|]. split; [lia|].
      split; [done|]. split; [intros _; lia|]. by right; right.
Qed.

End executor_paths.

(** ** The planner *)

Section planner_facts.

Context (settings : Settings) (provider : LLMProvider).

#[local] Instance updated_ge_total : Total updated_ge.
Proof. intros a b. unfold updated_ge. lia. Qed.

#[local] Instance updated_ge_trans : Transitive updated_ge.
Proof. intros a b c. unfold updated_ge. lia. Qed.

(** [list_workflow_templates] lists the stored templates, one that was
    updated last first. *)
Lemma list_workflow_templates_head w id t :
  head (Repository.list_workflow_templates w) = Some (id, t) →
  templates w !! id = Some t
  ∧ ∀ id' t', templates w !! id' = Some t' → tpl_updated_at t' ≤ tpl_updated_at t.
Proof.
  unfold Repository.list_workflow_templates. intros Hhead.
  pose proof (StronglySorted_merge_sort updated_ge (map_to_list (templates w))) as Hs.
  pose proof (merge_sort_Permutation updated_ge (map_to_list (templates w))) as Hp.
  destruct (merge_sort updated_ge (map_to_list (templates w))) as [|x l]; [done|].
  injection Hhead as ->. split.
  - apply elem_of_map_to_list. rewrite <- Hp. by left.
  - intros id' t' Ht'. apply elem_of_map_to_list in Ht'. rewrite <- Hp in Ht'.
    apply elem_of_cons in Ht' as [[= -> ->]|Hin]; [done|].
    apply StronglySorted_inv in Hs as [_ Hall]. rewrite Forall_forall in Hall.
    by apply (Hall (id', t')).
Qed.

(** The template [plan] works from: the one the run names when it is stored,
    else the first of [list_workflow_templates]. *)
Lemma plan_template run w t :
  (∃ tid, run_template_id run = Some tid ∧ tid ≠ "" ∧ templates w !! tid = Some t)
  ∨ ((∀ tid, run_template_id run = Some tid → tid ≠ "" → templates w !! tid = None)
     ∧ ∃ id, head (Repository.list_workflow_templates w) = Some (id, t)) →
  match
    match run_template_id run with
    | Some tid => if decide (tid = "") then None
                  else Repository.get_workflow_template tid w
    | None => None
    end
  with
  | Some t => Some t
  | None => snd <$> head (Repository.list_workflow_templates w)
  end = Some t.
Proof.
  unfold Repository.get_workflow_template.
  intros [(tid & -> & Hne & Ht)|(Hnone & id & Hhead)].
  - rewrite decide_False by done. by rewrite Ht.
  - rewrite Hhead. destruct (run_template_id run) as [tid|]; [|done].
    case_decide; [done|]. by rewrite Hnone.
Qed.

(** X11.  Planning a run that has no DAG yet, when the provider answers.  The DAG
    is the graph of the template with every node pending and without output
    or error, the contracts of the template and the answer as planner notes;
    the template is the one the run names or, when the run names none that is
    stored, one that was updated last.  The call is billed at the rates of the
    cheap model, to the ledger and to the totals of the run; the run row gets
    the DAG; [planning_started] and [planning_finished] are emitted; no step
    row is touched. *)
Theorem plan_instantiates_the_template
    (run_id : string) (run : Run) (request_id : string) (w : World)
    (t : Template) (resp : LLMCallResult) (ms : Z) :
  let model := llm_cheap_model settings in
  let cost := CostEstimator.estimate settings model (llm_prompt_tokens resp)
                (llm_completion_tokens resp) in
  let res := PlannerService.plan settings provider run_id run request_id w in
  dag_nodes (run_dag run) = [] →
  (∃ tid, run_template_id run = Some tid ∧ tid ≠ "" ∧ templates w !! tid = Some t)
  ∨ ((∀ tid, run_template_id run = Some tid → tid ≠ "" → templates w !! tid = None)
     ∧ ∃ id, head (Repository.list_workflow_templates w) = Some (id, t)) →
  provider (llm_calls w) model = Responds resp ms →
  (∃ dag, res.1 = Ok dag
     ∧ dag_nodes dag
       = (λ n, node_set_last_error None
                 (node_set_last_output None (node_set_status PENDING n)))
           <$> tpl_graph_nodes t
     ∧ dag_edges dag = tpl_graph_edges t
     ∧ dag_contracts dag = tpl_contracts t
     ∧ dag_planner_notes dag = Some (llm_content resp)
     ∧ (∀ r, runs w !! run_id = Some r →
          ∃ r', runs res.2 !! run_id = Some r'
                ∧ run_dag r' = dag
                ∧ run_status r' = run_status r
                ∧ total_prompt_tokens r' = total_prompt_tokens r + llm_prompt_tokens resp
                ∧ total_completion_tokens r'
                  = total_completion_tokens r + llm_completion_tokens resp
                ∧ total_tokens r'
                  = total_tokens r + (llm_prompt_tokens resp + llm_completion_tokens resp)
                ∧ total_usd r' = total_usd r + ce_usd cost))
  ∧ (∃ entry, cost_ledger res.2 = cost_ledger w ++ [entry]
              ∧ cost_run_id entry = run_id ∧ cost_step_id entry = None
              ∧ cost_model entry = llm_model resp
              ∧ cost_prompt_tokens entry = llm_prompt_tokens resp
              ∧ cost_completion_tokens entry = llm_completion_tokens resp
              ∧ cost_total_tokens entry
                = llm_prompt_tokens resp + llm_completion_tokens resp
              ∧ cost_usd entry = ce_usd cost
              ∧ cm_phase (cost_metadata entry) = "planning")
  ∧ llm_calls res.2 = S (llm_calls w)
  ∧ steps res.2 = steps w
  ∧ (ev_event_type <$> drop (length (events w)) (events res.2))
    = ["planning_started"; "planning_finished"]
  ∧ ((∀ tid, run_template_id run = Some tid → tid ≠ "" → templates w !! tid = None) →
     ∀ id' t', templates w !! id' = Some t' → tpl_updated_at t' ≤ tpl_updated_at t).
Proof.
  intros model cost res Hempty Ht Hresp. subst res.
  assert (cost = {| ce_prompt_tokens := llm_prompt_tokens resp;
                    ce_completion_tokens := llm_completion_tokens resp;
                    ce_total_tokens := llm_prompt_tokens resp + llm_completion_tokens resp;
                    ce_usd := ce_usd cost |}) as Hcost.
  { unfold cost, CostEstimator.estimate.
    by destruct (CostEstimator._rates_for_model settings model). }
  unfold PlannerService.plan.
  rewrite bool_decide_eq_false_2 by (by intros ?).
  match goal with
  | |- context [_emit_event run_id None "planning_started" ?pl w] =>
      set (w1 := _emit_event run_id None "planning_started" pl w)
  end.
  assert (templates w1 = templates w ∧ runs w1 = runs w ∧ steps w1 = steps w
          ∧ cost_ledger w1 = cost_ledger w ∧ llm_calls w1 = llm_calls w
          ∧ events w1 = events w ++ [emitted run_id None "planning_started"
                                       (PPlanningStarted (run_task run)
                                          (run_template_id run)) w])
    as (Ht1 & Hr1 & Hs1 & Hl1 & Hc1 & He1) by done.
  assert (Repository.list_workflow_templates w1 = Repository.list_workflow_templates w)
    as Hlist by (unfold Repository.list_workflow_templates; by rewrite Ht1).
  rewrite (plan_template run w1 t); last first.
  { unfold Repository.get_workflow_template in *. rewrite Hlist, Ht1. exact Ht. }
  cbn [ModelRouter.for_workload]. fold model. rewrite Hc1, Hresp.
  fold cost. rewrite Hcost.
  cbn [ce_prompt_tokens ce_completion_tokens ce_total_tokens ce_usd fst snd].
  split; [|split; [|split; [|split; [|split]]]].
  - eexists. split; [reflexivity|]. cbn. repeat split.
    intros r Hr. cbn. rewrite ?Hr1, !lookup_alter_eq, Hr. cbn.
    eexists. split; [reflexivity|]. by repeat split.
  - eexists. cbn. rewrite ?Hl1. split; [reflexivity|]. by repeat split.
  - cbn. by rewrite ?Hc1.
  - cbn. by rewrite ?Hs1.
  - cbn. rewrite ?He1, <- app_assoc, drop_app_length. done.
  - intros Hnone id' t' Ht'.
    destruct Ht as [(tid & Htid & Hne & Hsome)|(_ & id & Hhead)].
    + by rewrite (Hnone tid Htid Hne) in Hsome.
    + by eapply list_workflow_templates_head.
Qed.

End planner_facts.

(** ** A worker whose planning fails *)

Section planning_errors.

Context (settings : Settings) (provider : LLMProvider).

Lemma list_workflow_templates_nonempty w :
  templates w ≠ ∅ → ∃ x, head (Repository.list_workflow_templates w) = Some x.
Proof.
  intros Hne. unfold Repository.list_workflow_templates.
  destruct (merge_sort updated_ge (map_to_list (templates w))) as [|x l] eqn:Hs;
    [|by eexists].
  exfalso. apply Hne. apply map_to_list_empty_iff. apply Permutation_nil_r.
  by rewrite <- (merge_sort_Permutation updated_ge), Hs.
Qed.

(** What [plan] leaves behind when it raises. *)
Lemma plan_raise_effects run_id run request_id w msg :
  dag_nodes (run_dag run) = [] →
  (templates w = ∅ ∧ msg = "No workflow template available")
  ∨ (templates w ≠ ∅
     ∧ ∃ ms, provider (llm_calls w) (llm_cheap_model settings) = Raises msg ms) →
  let res := PlannerService.plan settings provider run_id run request_id w in
  res.1 = Raise msg
  ∧ runs res.2 = runs w ∧ steps res.2 = steps w ∧ cost_ledger res.2 = cost_ledger w
  ∧ events res.2
    = events w ++ [emitted run_id None "planning_started"
                     (PPlanningStarted (run_task run) (run_template_id run)) w].
Proof.
  intros Hempty Hcause res. subst res. unfold PlannerService.plan.
  rewrite bool_decide_eq_false_2 by (by intros ?).
  match goal with
  | |- context [_emit_event run_id None "planning_started" ?pl w] =>
      set (w1 := _emit_event run_id None "planning_started" pl w)
  end.
  assert (templates w1 = templates w ∧ runs w1 = runs w ∧ steps w1 = steps w
          ∧ cost_ledger w1 = cost_ledger w ∧ llm_calls w1 = llm_calls w
          ∧ events w1 = events w ++ [emitted run_id None "planning_started"
                                       (PPlanningStarted (run_task run)
                                          (run_template_id run)) w])
    as (Ht1 & Hr1 & Hs1 & Hl1 & Hc1 & He1) by done.
  clearbody w1.
  destruct Hcause as [[Hnone ->]|[Hsome [ms Hraise]]].
  - assert (Repository.list_workflow_templates w1 = []) as ->.
    { unfold Repository.list_workflow_templates.
      by rewrite Ht1, Hnone, map_to_list_empty. }
    unfold Repository.get_workflow_template. rewrite Ht1, Hnone.
    assert (match run_template_id run with
            | Some tid => if decide (tid = "") then None
                          else (∅ : gmap string Template) !! tid
            | None => None
            end = None) as ->.
    { destruct (run_template_id run); [|done]. case_decide; [done|].
      by rewrite lookup_empty. }
    done.
  - rewrite <- Ht1 in Hsome.
    destruct (list_workflow_templates_nonempty w1 Hsome) as [x Hx]. rewrite Hx.
    match goal with
    | |- context [match ?t with Some _ => _ | None => _ end] =>
        assert (∃ tpl, t = Some tpl) as [tpl ->]
    end.
    { destruct (run_template_id run) as [tid|]; [|by eexists].
      case_decide; [by eexists|].
      destruct (Repository.get_workflow_template tid w1); by eexists. }
    cbn [ModelRouter.for_workload]. rewrite Hc1, Hraise. done.
Qed.

(** The worker up to the handler of the exception. *)
Lemma run_loop_planning_error fuel run_id request_id w run msg :
  runs w !! run_id = Some run →
  run_status run = CREATED ∨ run_status run = RUNNING →
  dag_nodes (run_dag run) = [] →
  (templates w = ∅ ∧ msg = "No workflow template available")
  ∨ (templates w ≠ ∅
     ∧ ∃ ms, provider (llm_calls w) (llm_cheap_model settings) = Raises msg ms) →
  ∃ w2 e1 e2,
    TaskflowOrchestrator._run_loop (S fuel) settings provider run_id request_id w
    = (true, TaskflowOrchestrator._run_loop_except run_id msg w2)
    ∧ runs w2
      = <[run_id := apply_patch
                      {| p_status := Some RUNNING;
                         p_started_at :=
                           Some (Some (get_default (run_started_at run) (now w)));
                         p_ended_at := None; p_cancel_requested := None;
                         p_dag := None; p_diagnostics := None |} run]> (runs w)
    ∧ steps w2 = steps w ∧ cost_ledger w2 = cost_ledger w
    ∧ events w2 = events w ++ [e1; e2]
    ∧ ev_event_type e1 = "run_started" ∧ ev_event_type e2 = "planning_started".
Proof.
  intros Hrun Hstatus Hempty Hcause.
  unfold TaskflowOrchestrator._run_loop, TaskflowOrchestrator._run_loop_begin.
  unfold Repository.get_run at 1. rewrite Hrun.
  rewrite bool_decide_eq_false_2; last first.
  { intros [H|[H|H]]; destruct Hstatus as [Hs|Hs]; congruence. }
  cbv zeta.
  match goal with
  | |- context [_emit_event run_id None "run_started" ?pl ?wu] =>
      set (w1 := _emit_event run_id None "run_started" pl wu)
  end.
  set (run1 := apply_patch
                 {| p_status := Some RUNNING;
                    p_started_at :=
                      Some (Some (get_default (run_started_at run) (now w)));
                    p_ended_at := None; p_cancel_requested := None;
                    p_dag := None; p_diagnostics := None |} run).
  assert (runs w1 = <[run_id := run1]> (runs w)) as Hr1.
  { subst w1 run1. cbn. apply map_eq. intros i. rewrite lookup_alter.
    case_decide as Heq.
    - subst i. by rewrite lookup_insert_eq, Hrun.
    - by rewrite lookup_insert_ne. }
  assert (templates w1 = templates w ∧ steps w1 = steps w
          ∧ cost_ledger w1 = cost_ledger w ∧ llm_calls w1 = llm_calls w
          ∧ ∃ e, events w1 = events w ++ [e] ∧ ev_event_type e = "run_started")
    as (Ht1 & Hs1 & Hl1 & Hc1 & e1 & He1 & Hty1)
    by (repeat split; by eexists).
  set (state := TaskflowOrchestrator.initial_state settings run_id run request_id w1).
  assert (st_run_id state = run_id) as Hid by done.
  assert (st_request_id state = request_id) as Hreq by done.
  clearbody w1 state.
  cbn [TaskflowOrchestrator.ainvoke TaskflowOrchestrator.graph_step].
  unfold TaskflowOrchestrator._plan_node, Repository.get_run.
  rewrite Hid, Hreq, Hr1, lookup_insert_eq.
  assert ((templates w1 = ∅ ∧ msg = "No workflow template available")
          ∨ (templates w1 ≠ ∅
             ∧ ∃ ms, provider (llm_calls w1) (llm_cheap_model settings)
                     = Raises msg ms)) as Hcause1 by (by rewrite Ht1, Hc1).
  pose proof (plan_raise_effects run_id run1 request_id w1 msg Hempty Hcause1)
    as (Hp & Hr2 & Hs2 & Hl2 & He2).
  destruct (PlannerService.plan settings provider run_id run1 request_id w1)
    as [res2 w2].
  cbn [fst snd] in Hp, Hr2, Hs2, Hl2, He2. subst res2.
  eexists w2, e1, _. split; [reflexivity|].
  rewrite Hr2, Hs2, Hl2, He2, Hr1, Hs1, Hl1, He1, <- app_assoc.
  by repeat split.
Qed.

(** X12.  A run whose planning fails ends failed.  When the worker of a run that is
    created or running and has no DAG finds no template in the store, or the
    provider raises on the planner call, the exception leaves the loop of the
    graph and the handler of [_run_loop] marks the run failed: the end date is
    set, the diagnostics of the run are replaced by the one diagnostic of the
    handler, which carries the message of the exception, and [run_finished]
    is emitted with the reason [orchestrator_exception].  No step row and no
    cost entry is written, and the cancel flag of the run is left as it
    was. *)
Theorem planning_error_fails_the_run
    (fuel : nat) (run_id request_id : string) (w : World) (run : Run) (msg : string) :
  let res := TaskflowOrchestrator._run_loop (S fuel) settings provider run_id
               request_id w in
  runs w !! run_id = Some run →
  run_status run = CREATED ∨ run_status run = RUNNING →
  dag_nodes (run_dag run) = [] →
  (templates w = ∅ ∧ msg = "No workflow template available")
  ∨ (templates w ≠ ∅
     ∧ ∃ ms, provider (llm_calls w) (llm_cheap_model settings) = Raises msg ms) →
  res.1 = true
  ∧ (∃ run', runs res.2 !! run_id = Some run'
       ∧ run_status run' = FAILED
       ∧ run_started_at run' = Some (get_default (run_started_at run) (now w))
       ∧ run_ended_at run' = Some (now res.2)
       ∧ run_diagnostics run'
         = [{| diag_reason := "Unhandled orchestrator error: " +:+ msg;
               diag_failure_mode := "other";
               diag_action_taken := "terminated" |}]
       ∧ run_dag run' = run_dag run
       ∧ cancel_requested run' = cancel_requested run
       ∧ total_usd run' = total_usd run)
  ∧ steps res.2 = steps w
  ∧ cost_ledger res.2 = cost_ledger w
  ∧ (ev_event_type <$> drop (length (events w)) (events res.2))
    = ["run_started"; "planning_started"; "run_finished"]
  ∧ (ev_payload <$> last (events res.2))
    = Some (PRunFinished FAILED "orchestrator_exception").
Proof.
  intros res Hrun Hstatus Hempty Hcause. subst res.
  destruct (run_loop_planning_error fuel run_id request_id w run msg
              Hrun Hstatus Hempty Hcause)
    as (w2 & e1 & e2 & -> & Hr2 & Hs2 & Hl2 & He2 & Hty1 & Hty2).
  cbn [fst snd]. split; [done|].
  unfold TaskflowOrchestrator._run_loop_except.
  split; [|split; [|split; [|split]]].
  - cbn. rewrite lookup_alter_eq, Hr2, lookup_insert_eq. cbn.
    eexists. split; [reflexivity|]. cbn. by repeat split.
  - cbn. by rewrite Hs2.
  - cbn. by rewrite Hl2.
  - cbn. rewrite He2, <- !app_assoc, drop_app_length. cbn. by rewrite Hty1, Hty2.
  - cbn. by rewrite last_snoc.
Qed.

End planning_errors.

(** ** The retry of one step *)

Section retry_facts.

Implicit Types (w : World) (r : StepRow).

(** [get_step] by the id of a row, when no other row has that id. *)
Lemma get_step_unique w sid key r :
  steps w !! key = Some r → row_id r = sid →
  (∀ k r', steps w !! k = Some r' → row_id r' = sid → k = key) →
  ∃ s, Repository.get_step sid w = Some s
       ∧ step_run_id s = key.1 ∧ step_node_id s = key.2.
Proof.
  intros Hr Hid Huniq. unfold Repository.get_step, Repository.all_steps.
  destruct (filter (λ s, step_id s = sid)
              ((λ kr, _decode_step kr.1 kr.2) <$> map_to_list (steps w)))
    as [|s l] eqn:Hf.
  - exfalso. assert (_decode_step key r ∈ @nil Step) as Hin; [|by apply elem_of_nil in Hin].
    rewrite <- Hf. apply list_elem_of_filter. split; [done|].
    apply list_elem_of_fmap. exists (key, r). split; [done|].
    by apply elem_of_map_to_list.
  - exists s. split; [done|].
    assert (s ∈ s :: l) as Hin by (by left). rewrite <- Hf in Hin.
    apply list_elem_of_filter in Hin as [Hsid Hin].
    apply list_elem_of_fmap in Hin as ([k r'] & -> & Hin).
    apply elem_of_map_to_list in Hin. cbn in *.
    by rewrite (Huniq k r' Hin Hsid).
Qed.

(** X13.  [retry_run(run_id, step_id)] with a step id.  When the run has a step row
    with that id, the row becomes pending with [attempts = 0] and its start,
    end, output, error and cost cleared, whatever its status was; no other
    step row changes; the node of the step is pending again without output
    and error; the run is running with its end and its cancel flag cleared;
    [run_retry_requested] is emitted.  When the run has no step row with that
    id, [retry_run] answers false and changes nothing.  The node of
    the step is looked up by the id of the step in the whole steps table,
    where ids are taken to be unique. *)
Theorem retry_run_of_a_step_resets_its_attempts
    (run_id sid request_id : string) (w : World) (run : Run) :
  let res := TaskflowOrchestrator.retry_run run_id (Some sid) request_id w in
  sid ≠ "" →
  runs w !! run_id = Some run →
  (∀ node r,
     steps w !! (run_id, node) = Some r → row_id r = sid →
     (∀ k r', steps w !! k = Some r' → row_id r' = sid → k = (run_id, node)) →
     res.1 = true
     ∧ (∃ r', steps res.2 !! (run_id, node) = Some r'
              ∧ row_id r' = sid ∧ row_status r' = PENDING ∧ row_attempts r' = 0
              ∧ row_max_retries r' = row_max_retries r
              ∧ row_started_at r' = None ∧ row_ended_at r' = None
              ∧ row_output r' = None ∧ row_error r' = None ∧ row_cost r' = None)
     ∧ (∀ k, k ≠ (run_id, node) → steps res.2 !! k = steps w !! k)
     ∧ (∃ run', runs res.2 !! run_id = Some run'
                ∧ run_status run' = RUNNING ∧ run_ended_at run' = None
                ∧ cancel_requested run' = false
                ∧ dag_nodes (run_dag run')
                  = (λ n, if decide (node_id n = node)
                          then TaskflowOrchestrator.reset_node n else n)
                      <$> dag_nodes (run_dag run))
     ∧ (∃ e, events res.2 = events w ++ [e]
             ∧ ev_run_id e = run_id
             ∧ ev_event_type e = "run_retry_requested"
             ∧ ev_payload e = PRunRetryRequested (Some sid) request_id))
  ∧ ((∀ node r, steps w !! (run_id, node) = Some r → row_id r ≠ sid) →
     res = (false, w)).
Proof.
  intros res Hsid Hrun. subst res. unfold TaskflowOrchestrator.retry_run.
  unfold Repository.get_run. rewrite Hrun. rewrite decide_False by done.
  unfold Repository.reset_step. cbv beta iota zeta.
  pose (hit := λ (k : string * string) (r : StepRow),
                 bool_decide (k.1 = run_id) && bool_decide (row_id r = sid)).
  match goal with
  | |- context [TaskflowOrchestrator._reset_node_for_step_retry _ _ ?x] =>
      set (w1 := x)
  end.
  assert (∀ k, steps w1 !! k
               = (λ r, if hit k r then Repository.reset_row r else r) <$> steps w !! k)
    as Hsteps.
  { intros k. subst w1. cbn [steps set_steps]. rewrite map_lookup_imap.
    by destruct (steps w !! k). }
  assert (runs w1 = runs w) as Hruns by done.
  assert (events w1 = events w) as Hevents by done.
  clearbody w1. split.
  - intros node r Hr Hid Huniq.
    assert (hit (run_id, node) r = true) as Hhit
      by (unfold hit; cbn; by rewrite !bool_decide_eq_true_2).
    assert (∀ k r', steps w !! k = Some r' → k ≠ (run_id, node) → hit k r' = false)
      as Hmiss.
    { intros k r' Hk Hne. unfold hit. destruct (bool_decide (k.1 = run_id)); [|done].
      cbn. apply bool_decide_eq_false_2. intros Hid'. by apply Hne, (Huniq k r'). }
    rewrite bool_decide_eq_true_2; last first.
    { intros Hnil.
      assert (((run_id, node), r) ∈ @nil ((string * string) * StepRow)) as Hin;
        [|by apply elem_of_nil in Hin].
      rewrite <- Hnil. apply list_elem_of_filter. split; [done|].
      by apply elem_of_map_to_list. }
    destruct (get_step_unique w1 sid (run_id, node) (Repository.reset_row r))
      as (s & Hget & _ & Hnode).
    { rewrite Hsteps, Hr. cbn. by rewrite Hhit. }
    { done. }
    { intros k r'. rewrite Hsteps. intros Hk Hid'.
      destruct (steps w !! k) as [r0|] eqn:Hk0; [|done]. cbn in Hk.
      injection Hk as <-. apply (Huniq k r0 Hk0).
      by destruct (hit k r0). }
    cbv beta iota zeta.
    unfold TaskflowOrchestrator._reset_node_for_step_retry. rewrite Hget, Hnode.
    cbn [fst snd]. split; [done|]. split; [|split; [|split]].
    + exists (Repository.reset_row r). split; [|by repeat split].
      change (steps (_emit_event _ _ _ _ _)) with (steps w1).
      rewrite Hsteps, Hr. cbn. by rewrite Hhit.
    + intros k Hne. change (steps (_emit_event _ _ _ _ _)) with (steps w1).
      rewrite Hsteps. destruct (steps w !! k) as [r0|] eqn:Hk0; [|done].
      cbn. by rewrite (Hmiss k r0 Hk0 Hne).
    + cbn. rewrite lookup_alter_eq, Hruns, Hrun. cbn. eexists. split; [done|].
      by repeat split.
    + eexists. cbn. rewrite Hevents. split; [reflexivity|]. by repeat split.
  - intros Hnone. rewrite bool_decide_eq_false_2; [done|].
    intros Hne. apply Hne.
    destruct (filter _ _) as [|[k r] l] eqn:Hf; [done|]. exfalso.
    assert ((k, r) ∈ (k, r) :: l) as Hin by (by left). rewrite <- Hf in Hin.
    apply list_elem_of_filter in Hin as [Hhit Hin]. apply elem_of_map_to_list in Hin.
    cbn in Hhit. unfold hit in Hhit. apply andb_true_iff in Hhit as [H1 H2].
    apply bool_decide_eq_true_1 in H1, H2. destruct k as [k1 k2]. cbn in H1. subst k1.
    by apply (Hnone k2 r).
Qed.

End retry_facts.

(** ** The run a worker works on *)

Section run_id_facts.

Context (settings : Settings).

(** The nodes of the graph keep the run id of the state. *)
Lemma execute_next_run_id provider state request_id w :
  st_run_id (ExecutorService.execute_next settings provider state request_id w).1
  = st_run_id state.
Proof.
  unfold ExecutorService.execute_next.
  destruct (ExecutorService._next_runnable_node _) as [[i n]|]; [|done].
  unfold ExecutorService.prepare.
  destruct (Repository.get_step_by_node _ _ _); cbn [uuid4];
    (destruct (ExecutorService.attempt _ _ _ _ _ _) as [[[[model resp] out]|err] w2];
     [done|]);
    unfold ExecutorService._handle_step_error; cbn [pr_node];
    by case_bool_decide.
Qed.

Lemma evaluate_run_id state w state' :
  MonitorService.evaluate state w = Ok state' → st_run_id state' = st_run_id state.
Proof.
  unfold MonitorService.evaluate. intros H.
  repeat match type of H with
         | context [match ?x with _ => _ end] => destruct x
         end; by inversion H.
Qed.

Lemma reflect_run_id state w :
  st_run_id (ReflectionService.reflect state w).1 = st_run_id state.
Proof.
  unfold ReflectionService.reflect.
  destruct (st_reflection_needed state); cbn [negb]; [|done].
  destruct (ReflectionService._decide_action _); cbn.
  - unfold ReflectionService._skip_failed_descendants. by case_decide.
  - done.
  - by case_bool_decide.
Qed.

Lemma finish_run_id state w :
  st_run_id (TaskflowOrchestrator._finish_node state w).1 = st_run_id state.
Proof. unfold TaskflowOrchestrator._finish_node. by case_decide. Qed.

Lemma run_loop_begin_run_id run_id request_id w state :
  (TaskflowOrchestrator._run_loop_begin settings run_id request_id w).1 = Some state →
  st_run_id state = run_id.
Proof.
  unfold TaskflowOrchestrator._run_loop_begin.
  destruct (Repository.get_run _ _); [|done]. case_bool_decide; [done|].
  by intros [= <-].
Qed.

End run_id_facts.

(** ** The totals of a run and its ledger entries *)

Create HintDb books.

Section ledger_facts.

Context (settings : Settings) (w0 : World).

Implicit Types (w : World) (s : System).

Lemma books_ok_quiet id w w' :
  cost_ledger w' = cost_ledger w →
  (∀ i, run_totals <$> runs w' !! i = run_totals <$> runs w !! i) →
  (next_uuid w ≤ next_uuid w')%nat →
  books_ok w0 id w → books_ok w0 id w'.
Proof.
  intros Hl Hr Hn [(Hb & Hc & Hf) [Hid Hmon]].
  assert (∀ i, is_Some (runs w' !! i) ↔ is_Some (runs w !! i)) as Hdom.
  { intros i. specialize (Hr i). rewrite <- !not_eq_None_Some.
    destruct (runs w' !! i), (runs w !! i); naive_solver. }
  split; [split; [|split]|split].
  - intros i r' Hi. pose proof (Hr i) as Hri. rewrite Hi in Hri.
    destruct (runs w !! i) as [r|] eqn:Hi'; [|done].
    injection Hri as H1 H2 H3 H4. destruct (Hb i r Hi') as (B1 & B2 & B3 & B4).
    unfold run_billed, ledger_sum, Repository.list_cost_entries in *.
    rewrite Hl. by rewrite H1, H2, H3, H4.
  - intros c. rewrite Hl, Hdom. apply Hc.
  - intros i. rewrite Hdom. intros Hi. destruct (Hf i Hi) as (k & Hk & ->).
    exists k. split; [lia|done].
  - by apply Hdom.
  - intros i Hi. by apply Hdom, Hmon.
Qed.

Lemma books_ok_update_run id run_id fields w :
  books_ok w0 id w → books_ok w0 id (Repository.update_run run_id fields w).
Proof.
  apply books_ok_quiet; [done| |done]. intros i. cbn. rewrite lookup_alter.
  case_decide as Heq; [subst i|done]. by destruct (runs w !! run_id).
Qed.

Lemma books_ok_upsert_step id p w :
  books_ok w0 id w → books_ok w0 id (Repository.upsert_step p w).
Proof.
  apply books_ok_quiet; unfold Repository.upsert_step;
    destruct (decide (step_id p = "")); cbn; try done; lia.
Qed.

Lemma books_ok_emit id run_id step event_type payload w :
  books_ok w0 id w → books_ok w0 id (_emit_event run_id step event_type payload w).
Proof. apply books_ok_quiet; cbn; try done; lia. Qed.

Lemma books_ok_append_diagnostic id run_id d w :
  books_ok w0 id w → books_ok w0 id (Repository.append_run_diagnostic run_id d w).
Proof.
  intros H. unfold Repository.append_run_diagnostic.
  destruct (Repository.get_run run_id w); [|done]. by apply books_ok_update_run.
Qed.

Lemma books_ok_advance id ms w : books_ok w0 id w → books_ok w0 id (advance ms w).
Proof. by apply books_ok_quiet. Qed.

Lemma books_ok_count_llm_call id w : books_ok w0 id w → books_ok w0 id (count_llm_call w).
Proof. by apply books_ok_quiet. Qed.

Lemma books_ok_uuid4 id w : books_ok w0 id w → books_ok w0 id (uuid4 w).2.
Proof. apply books_ok_quiet; cbn; try done; lia. Qed.

Lemma books_ok_set_steps id f w : books_ok w0 id w → books_ok w0 id (set_steps f w).
Proof. by apply books_ok_quiet. Qed.

Lemma ledger_sum_snoc f run_id w w' c :
  cost_ledger w' = cost_ledger w ++ [c] →
  ledger_sum f run_id w'
  = ledger_sum f run_id w + (if decide (cost_run_id c = run_id) then f c else 0).
Proof.
  intros Hl. unfold ledger_sum, Repository.list_cost_entries. rewrite Hl.
  rewrite filter_app. generalize (filter (λ c0, cost_run_id c0 = run_id) (cost_ledger w)).
  intros l. rewrite filter_cons, filter_nil.
  induction l as [|x l IH]; cbn [app foldr].
  - case_decide; cbn; lia.
  - rewrite IH. lia.
Qed.

(** The two statements that bill a call: one ledger entry, and the same
    amounts on the totals of the run. *)
Lemma books_ok_bill id step app provider model p c t usd md w :
  books_ok w0 id w →
  books_ok w0 id
    (Repository.increment_run_totals id p c t usd
       (Repository.create_cost_entry id step app provider model p c t usd md w)).
Proof.
  intros [(Hb & Hc & Hf) [Hid Hmon]].
  set (w1 := Repository.create_cost_entry id step app provider model p c t usd md w).
  assert (∃ e, cost_ledger w1 = cost_ledger w ++ [e] ∧ cost_run_id e = id
               ∧ cost_prompt_tokens e = p ∧ cost_completion_tokens e = c
               ∧ cost_total_tokens e = t ∧ cost_usd e = usd)
    as (e & Hl & He & Hp & Hcc & Ht & Hu) by (eexists; by repeat split).
  assert (runs w1 = runs w) as Hr1 by done.
  assert (next_uuid w1 = S (next_uuid w)) as Hn1 by done.
  clearbody w1.
  set (w2 := Repository.increment_run_totals id p c t usd w1).
  assert (cost_ledger w2 = cost_ledger w ++ [e]) as Hl2 by done.
  assert (runs w2 = alter (Repository.add_totals p c t usd) id (runs w)) as Hr2
    by (cbn; by rewrite Hr1).
  assert (next_uuid w2 = S (next_uuid w)) as Hn2 by done.
  clearbody w2. clear Hl Hr1 Hn1 w1.
  split; [split; [|split]|split]; rewrite ?Hr2, ?Hn2.
  - intros i r'. rewrite lookup_alter. case_decide as Heq.
    + subst i. destruct (runs w !! id) as [r|] eqn:Hi; [|done]. cbn.
      intros [= <-]. destruct (Hb id r Hi) as (B1 & B2 & B3 & B4).
      unfold run_billed.
      cbn [Repository.add_totals total_prompt_tokens total_completion_tokens
           total_tokens total_usd].
      rewrite !(ledger_sum_snoc _ id w w2 e) by done.
      rewrite !decide_True by done. lia.
    + intros Hi. destruct (Hb i r' Hi) as (B1 & B2 & B3 & B4).
      unfold run_billed.
      rewrite !(ledger_sum_snoc _ i w w2 e) by done.
      rewrite !decide_False by congruence. lia.
  - intros x. rewrite Hl2, elem_of_app, list_elem_of_singleton.
    intros [Hx | ->].
    + apply Hc in Hx. destruct Hx as [r Hr]. rewrite lookup_alter.
      case_decide as Heq; [|by rewrite Hr].
      first [rewrite Heq in * | rewrite <- Heq in *]. rewrite Hr. by eexists.
    + rewrite He, lookup_alter, decide_True by done.
      destruct Hid as [r ->]. by eexists.
  - intros i. rewrite lookup_alter. intros Hi.
    assert (is_Some (runs w !! i)) as Hi'.
    { case_decide; [by subst i|done]. }
    destruct (Hf i Hi') as (k & Hk & ->). exists k. split; [lia|done].
  - rewrite lookup_alter, decide_True by done. destruct Hid as [r ->]. by eexists.
  - intros i Hi. apply Hmon in Hi. rewrite lookup_alter.
    case_decide; [subst i|done]. destruct Hi as [r ->]. by eexists.
Qed.

#[local] Hint Resolve books_ok_update_run books_ok_upsert_step books_ok_emit
  books_ok_append_diagnostic books_ok_advance books_ok_count_llm_call
  books_ok_uuid4 books_ok_set_steps books_ok_bill : books.

Lemma books_ok_estimate_bill id step app provider model model' p c md w :
  let cost := CostEstimator.estimate settings model p c in
  books_ok w0 id w →
  books_ok w0 id
    (Repository.increment_run_totals id (ce_prompt_tokens cost)
       (ce_completion_tokens cost) (ce_total_tokens cost) (ce_usd cost)
       (Repository.create_cost_entry id step app provider model'
          (ce_prompt_tokens cost) (ce_completion_tokens cost)
          (ce_total_tokens cost) (ce_usd cost) md w)).
Proof. intros cost. apply books_ok_bill. Qed.

Lemma books_ok_prepare state request_id node w :
  books_ok w0 (st_run_id state) w →
  books_ok w0 (st_run_id state) (ExecutorService.prepare state request_id node w).2.
Proof.
  intros H. unfold ExecutorService.prepare. destruct node as [i n].
  destruct (Repository.get_step_by_node _ _ _); cbn [snd fst uuid4 st_run_id set_dag
    set_progress_made]; auto 10 with books.
  apply books_ok_emit, books_ok_upsert_step, books_ok_update_run.
  by apply (books_ok_uuid4 _ w).
Qed.

Lemma books_ok_attempt id provider state contract nid w :
  books_ok w0 id w →
  books_ok w0 id (ExecutorService.attempt settings provider state contract nid w).2.
Proof.
  intros H. unfold ExecutorService.attempt. case_bool_decide; [done|].
  destruct (provider _ _); case_bool_decide; cbn [snd]; auto with books.
  destruct (validate_output_with_contract _) as [[[] []] ?]; cbn [snd];
    auto with books.
Qed.

Lemma books_ok_complete state request_id p model resp out w :
  books_ok w0 (st_run_id state) w →
  books_ok w0 (st_run_id state)
    (ExecutorService.complete settings state request_id p model resp out w).2.
Proof.
  intros H. unfold ExecutorService.complete. destruct (pr_node p) as [i n].
  cbn [snd st_run_id set_dag set_step_counter].
  apply books_ok_emit, books_ok_update_run, books_ok_bill, books_ok_upsert_step, H.
Qed.

Lemma books_ok_handle_step_error state step node attempts max_retries started_at
    error w :
  books_ok w0 (st_run_id state) w →
  books_ok w0 (st_run_id state)
    (ExecutorService._handle_step_error state step node attempts max_retries
       started_at error w).2.
Proof.
  intros H. unfold ExecutorService._handle_step_error. destruct node as [i n].
  case_bool_decide; cbn [snd]; auto 10 with books.
Qed.

Lemma books_ok_execute_next provider state request_id w :
  books_ok w0 (st_run_id state) w →
  books_ok w0 (st_run_id state)
    (ExecutorService.execute_next settings provider state request_id w).2.
Proof.
  intros H. unfold ExecutorService.execute_next.
  destruct (ExecutorService._next_runnable_node _) as [[i n]|]; [|done].
  pose proof (books_ok_prepare state request_id (i, n) w H) as H1.
  pose proof (prepare_spec state request_id i n w) as (_ & _ & _ & Hid & _).
  destruct (ExecutorService.prepare _ _ _ _) as [[p st1] w1]. cbn in H1, Hid.
  rewrite <- Hid in *.
  pose proof (books_ok_attempt (st_run_id st1) provider st1 (pr_contract p)
                (node_id (pr_node p).2) w1 H1) as H2.
  destruct (ExecutorService.attempt _ _ _ _ _ _) as [[[[model resp] out]|err] w2];
    cbn in H2.
  - by apply books_ok_complete.
  - by apply books_ok_handle_step_error.
Qed.

Lemma books_ok_plan provider run_id run request_id w :
  books_ok w0 run_id w →
  books_ok w0 run_id (PlannerService.plan settings provider run_id run request_id w).2.
Proof.
  intros H. unfold PlannerService.plan. case_bool_decide; [done|].
  match goal with
  | |- context [match ?t with Some _ => _ | None => _ end] =>
      destruct t as [tpl|]; [|by apply books_ok_emit]
  end.
  destruct (provider _ _) as [resp ms|msg ms]; cbn [snd]; auto 10 with books.
Qed.

Lemma books_ok_reflect id state w :
  books_ok w0 id w → books_ok w0 id (ReflectionService.reflect state w).2.
Proof.
  intros H. unfold ReflectionService.reflect.
  destruct (st_reflection_needed state); [|done]. cbn [negb].
  destruct (ReflectionService._decide_action _); cbn [snd];
    auto 6 with books.
Qed.

Lemma books_ok_cancel_step id w step :
  books_ok w0 id w → books_ok w0 id (TaskflowOrchestrator.cancel_step w step).
Proof.
  intros H. unfold TaskflowOrchestrator.cancel_step.
  destruct (negb _); [done|]. by apply books_ok_upsert_step.
Qed.

Lemma books_ok_finish id state w :
  books_ok w0 id w → books_ok w0 id (TaskflowOrchestrator._finish_node state w).2.
Proof.
  intros H. unfold TaskflowOrchestrator._finish_node.
  case_decide; cbn [snd TaskflowOrchestrator._mark_open_steps_canceled];
    [|by auto with books].
  apply books_ok_emit, books_ok_update_run.
  match goal with |- context [foldl _ w ?l] => generalize l end. intros l.
  revert w H. induction l as [|x l IH]; intros w H; [exact H|].
  cbn [foldl]. apply IH. by apply books_ok_cancel_step.
Qed.

(** One pass of the loop of a worker keeps the books and the run id. *)
Lemma books_ok_graph_step provider current state w :
  let res := TaskflowOrchestrator.graph_step settings provider current state w in
  books_ok w0 (st_run_id state) w →
  books_ok w0 (st_run_id state) res.2
  ∧ ∀ next state', res.1 = Ok (next, state') → st_run_id state' = st_run_id state.
Proof.
  intros res H. subst res.
  destruct current; cbn [TaskflowOrchestrator.graph_step].
  - unfold TaskflowOrchestrator._plan_node.
    destruct (Repository.get_run _ _) as [run|];
      [|split; [done|]; by intros ?? [= <- <-]].
    pose proof (books_ok_plan provider (st_run_id state) run (st_request_id state) w H).
    destruct (PlannerService.plan _ _ _ _ _ _) as [[dag|msg] w1];
      (split; [done|]); [by intros ?? [= <- <-] | done].
  - unfold TaskflowOrchestrator._execute_step_node.
    pose proof (books_ok_execute_next provider state (st_request_id state) w H).
    pose proof (execute_next_run_id settings provider state (st_request_id state) w).
    destruct (ExecutorService.execute_next _ _ _ _ _).
    split; [done|]. by intros ?? [= <- <-].
  - unfold TaskflowOrchestrator._monitor_node.
    destruct (MonitorService.evaluate state w) as [st1|msg] eqn:He; [|done].
    apply evaluate_run_id in He. split; [by apply books_ok_update_run|].
    by intros ?? [= <- <-].
  - unfold TaskflowOrchestrator._reflect_node.
    pose proof (books_ok_reflect (st_run_id state) state w H).
    pose proof (reflect_run_id state w).
    destruct (ReflectionService.reflect state w).
    split; [by apply books_ok_update_run|]. by intros ?? [= <- <-].
  - pose proof (books_ok_finish (st_run_id state) state w H).
    pose proof (finish_run_id state w).
    destruct (TaskflowOrchestrator._finish_node state w).
    split; [done|]. by intros ?? [= <- <-].
  - split; [done|]. by intros ?? [= <- <-].
Qed.

Lemma books_ok_run_loop_begin id run_id request_id w :
  books_ok w0 id w →
  books_ok w0 id (TaskflowOrchestrator._run_loop_begin settings run_id request_id w).2.
Proof.
  intros H. unfold TaskflowOrchestrator._run_loop_begin.
  destruct (Repository.get_run _ _); [|done]. case_bool_decide; [done|].
  by apply books_ok_emit, books_ok_update_run.
Qed.

Lemma books_ok_run_loop_except id run_id message w :
  books_ok w0 id w → books_ok w0 id (TaskflowOrchestrator._run_loop_except run_id message w).
Proof. intros H. by apply books_ok_emit, books_ok_update_run. Qed.

Lemma books_ok_retry_run id run_id step request_id w :
  books_ok w0 id w →
  books_ok w0 id (TaskflowOrchestrator.retry_run run_id step request_id w).2.
Proof.
  intros H. unfold TaskflowOrchestrator.retry_run.
  destruct (Repository.get_run _ _) as [run|]; [|done].
  destruct step as [sid|]; [case_decide|]; cbn [snd Repository.reset_failed_steps];
    try (by apply books_ok_emit, books_ok_update_run, books_ok_set_steps).
  cbn [Repository.reset_step]. case_bool_decide; [|done].
  by apply books_ok_emit, books_ok_update_run, books_ok_set_steps.
Qed.

End ledger_facts.

(** ** The books of the whole system *)

Section ledger_system.

Context (settings : Settings).

Implicit Types (w : World) (s : System).

Lemma uuid_inj (a b : nat) : "uuid-" +:+ pretty a = "uuid-" +:+ pretty b → a = b.
Proof. intros H. by apply (inj (String.app "uuid-")), (inj pretty) in H. Qed.

Lemma ledger_sum_none f id w :
  (∀ c, c ∈ cost_ledger w → cost_run_id c ≠ id) → ledger_sum f id w = 0.
Proof.
  intros H. unfold ledger_sum, Repository.list_cost_entries.
  induction (cost_ledger w) as [|c l IH]; [done|].
  rewrite filter_cons, decide_False by (apply H; by left).
  apply IH. intros c' Hc'. apply H. by right.
Qed.

Lemma ledger_ok_create_run task template_id constraints request_id s :
  ledger_ok (sys_world s) →
  let res := uuid4 (sys_world s) in
  let w := _emit_event res.1 None "run_created"
             (PRunCreated task template_id request_id)
             (Repository.create_run res.1 task template_id constraints
                (Some request_id) res.2) in
  books_ok (sys_world s) res.1 w.
Proof.
  intros (Hb & Hc & Hf) res w. subst res w. cbn [uuid4 fst snd].
  set (id := "uuid-" +:+ pretty (next_uuid (sys_world s))).
  assert (runs (sys_world s) !! id = None) as Hfresh.
  { apply eq_None_not_Some. intros Hi. destruct (Hf id Hi) as (k & Hk & Heq).
    apply uuid_inj in Heq. lia. }
  unfold Repository.create_run. cbn [runs]. rewrite Hfresh.
  match goal with |- books_ok _ _ ?w => set (w' := w) end.
  assert (cost_ledger w' = cost_ledger (sys_world s)) as Hl by done.
  assert (∃ r0, runs w' = <[id := r0]> (runs (sys_world s))
                ∧ run_totals r0 = (0, 0, 0, 0)) as (r0 & Hr & Ht)
    by (eexists; split; [reflexivity|done]).
  assert (next_uuid (sys_world s) < next_uuid w')%nat as Hn by (cbn; lia).
  clearbody w'.
  assert (∀ f i, ledger_sum f i w' = ledger_sum f i (sys_world s)) as Hsum.
  { intros f i. unfold ledger_sum, Repository.list_cost_entries. by rewrite Hl. }
  split; [split; [|split]|split]; rewrite ?Hr.
  - intros i r. destruct (decide (id = i)) as [<-|Hne].
    + rewrite lookup_insert_eq. intros [= <-]. injection Ht as T1 T2 T3 T4.
      unfold run_billed. rewrite !Hsum, T1, T2, T3, T4.
      rewrite !ledger_sum_none; [done|..]; intros c Hcin Heq;
        apply Hc in Hcin; rewrite Heq, Hfresh in Hcin; by destruct Hcin.
    + rewrite lookup_insert_ne by done. intros Hi.
      destruct (Hb i r Hi) as (B1 & B2 & B3 & B4).
      unfold run_billed. rewrite !Hsum. by repeat split.
  - intros c. rewrite Hl. intros Hcin. apply Hc in Hcin.
    destruct (decide (id = cost_run_id c)) as [<-|Hne];
      [by rewrite lookup_insert_eq | by rewrite lookup_insert_ne].
  - intros i. destruct (decide (id = i)) as [<-|Hne].
    + intros _. exists (next_uuid (sys_world s)). split; [lia|done].
    + rewrite lookup_insert_ne by done. intros Hi.
      destruct (Hf i Hi) as (k & Hk & ->). exists k. split; [lia|done].
  - by rewrite lookup_insert_eq.
  - intros i Hi. destruct (decide (id = i)) as [<-|Hne];
      [by rewrite lookup_insert_eq | by rewrite lookup_insert_ne].
Qed.


Lemma books_ok_start w id : ledger_ok w → is_Some (runs w !! id) → books_ok w id w.
Proof. intros H Hid. split; [done|]. by split. Qed.

Lemma workers_ok_moved s w' tasks' :
  workers_ok s →
  (∀ i, is_Some (runs (sys_world s) !! i) → is_Some (runs w' !! i)) →
  (∀ id t, tasks' !! id = Some t →
     sys_tasks s !! id = Some t
     ∨ (is_Some (runs w' !! id)
        ∧ ∀ current state, t = Looping current state → st_run_id state = id)) →
  workers_ok {| sys_world := w'; sys_tasks := tasks' |}.
Proof.
  intros H Hmon Ht id t Hid. cbn in Hid. destruct (Ht id t Hid) as [Hold|Hnew]; [|done].
  destruct (H id t Hold) as [Hr Hst]. split; [by apply Hmon | done].
Qed.

Lemma workers_ok_start_run run_id request_id s :
  workers_ok s → is_Some (runs (sys_world s) !! run_id) →
  workers_ok (Workers.start_run run_id request_id s).
Proof.
  intros H Hr. unfold Workers.start_run.
  destruct (sys_tasks s !! run_id) eqn:Ht; [done|].
  apply (workers_ok_moved s); [done|done|].
  intros id t. destruct (decide (run_id = id)) as [<-|Hne].
  - rewrite lookup_insert_eq. intros [= <-]. right. split; [done|]. by intros ?? ?.
  - rewrite lookup_insert_ne by done. by left.
Qed.

Lemma workers_ok_delete run_id s w' :
  workers_ok s →
  (∀ i, is_Some (runs (sys_world s) !! i) → is_Some (runs w' !! i)) →
  workers_ok {| sys_world := w'; sys_tasks := delete run_id (sys_tasks s) |}.
Proof.
  intros H Hmon. apply (workers_ok_moved s); [done|done|].
  intros id t Hid. left. apply lookup_delete_Some in Hid. by destruct Hid.
Qed.

Lemma workers_ok_looping run_id current state s w' :
  workers_ok s →
  (∀ i, is_Some (runs (sys_world s) !! i) → is_Some (runs w' !! i)) →
  is_Some (runs w' !! run_id) → st_run_id state = run_id →
  workers_ok {| sys_world := w';
                sys_tasks := <[run_id := Looping current state]> (sys_tasks s) |}.
Proof.
  intros H Hmon Hr Hst. apply (workers_ok_moved s); [done|done|].
  intros id t. destruct (decide (run_id = id)) as [<-|Hne].
  - rewrite lookup_insert_eq. intros [= <-]. right. split; [done|].
    by intros ?? [= <- <-].
  - rewrite lookup_insert_ne by done. by left.
Qed.

Lemma system_ok_perform s a :
  ledger_ok (sys_world s) ∧ workers_ok s →
  ledger_ok (sys_world (perform settings s a)) ∧ workers_ok (perform settings s a).
Proof.
  intros [H Hw]. destruct a as [task tid cs rid|run_id rid|run_id step rid|id tpl
                               |run_id provider|ms]; cbn [perform].
  - unfold RunsRouter.create_run. destruct (_ : bool); [done|].
    pose proof (ledger_ok_create_run task tid cs rid s H) as (Hl & Hid & Hmon).
    cbn [uuid4 fst snd] in Hl, Hid, Hmon. cbn [uuid4].
    rewrite totals_ok_start_run. cbn [sys_world]. split; [done|].
    apply workers_ok_start_run; [|done]. by apply (workers_ok_moved s); [| |left].
  - unfold RunsRouter.cancel_run.
    destruct (Repository.get_run _ _) as [run|] eqn:Hrun; [|done].
    cbn [default from_option id sys_world].
    assert (books_ok (sys_world s) run_id
              (_emit_event run_id None "cancel_requested" (PCancelRequested rid)
                 (TaskflowOrchestrator.request_cancel run_id (sys_world s))))
      as (Hl & Hid & Hmon).
    { apply books_ok_emit, books_ok_update_run, books_ok_start; [done|].
      unfold Repository.get_run in Hrun. by rewrite Hrun. }
    split; [done|]. by apply (workers_ok_moved s); [| |left].
  - unfold RunsRouter.retry_run, Workers.retry_run.
    destruct (Repository.get_run _ _) as [run|] eqn:Hrun; [|done].
    assert (books_ok (sys_world s) run_id (sys_world s)) as Hb.
    { apply books_ok_start; [done|]. unfold Repository.get_run in Hrun.
      by rewrite Hrun. }
    pose proof (books_ok_retry_run (sys_world s) run_id run_id step rid (sys_world s) Hb)
      as (Hl & Hid & Hmon).
    destruct (TaskflowOrchestrator.retry_run _ _ _ _) as [[] w1]; [|done].
    cbn [default from_option id snd] in *. rewrite totals_ok_start_run.
    split; [done|]. apply workers_ok_start_run; [|done].
    by apply (workers_ok_moved s); [| |left].
  - split; [exact H|]. by apply (workers_ok_moved s); [| |left].
  - unfold Workers.turn.
    destruct (sys_tasks s !! run_id) as [[rid|current state]|] eqn:Ht; [| |done].
    + destruct (Hw run_id _ Ht) as [Hr _].
      pose proof (books_ok_run_loop_begin settings (sys_world s) run_id run_id rid
                    (sys_world s) (books_ok_start _ _ H Hr)) as (Hl & Hid & Hmon).
      pose proof (run_loop_begin_run_id settings run_id rid (sys_world s)) as Hst.
      destruct (TaskflowOrchestrator._run_loop_begin _ _ _ _) as [[st|] w1];
        cbn [fst snd sys_world] in *; (split; [done|]).
      * apply workers_ok_looping; try done. by apply Hst.
      * by apply workers_ok_delete.
    + destruct (Hw run_id _ Ht) as [Hr Hst]. specialize (Hst _ _ eq_refl).
      assert (books_ok (sys_world s) (st_run_id state) (sys_world s)) as Hb
        by (rewrite Hst; by apply books_ok_start).
      pose proof (books_ok_graph_step settings (sys_world s) provider current state
                    (sys_world s) Hb) as [(Hl & Hid & Hmon) Hnext].
      rewrite Hst in Hid.
      assert (workers_ok {| sys_world := sys_world s;
                            sys_tasks := delete run_id (sys_tasks s) |}) as Hend
        by (by apply workers_ok_delete).
      destruct current; try (split; [exact H | exact Hend]);
        destruct (TaskflowOrchestrator.graph_step _ _ _ _ _) as [[[next st]|msg] w1];
        cbn [fst snd sys_world] in *;
        try (split; [done|]; apply workers_ok_looping; try done;
             rewrite <- Hst; by eapply Hnext).
      all: assert (books_ok (sys_world s) run_id
                     (TaskflowOrchestrator._run_loop_except run_id msg w1))
             as (Hl' & Hid' & Hmon')
             by (by apply books_ok_emit, books_ok_update_run);
           split; [done|]; by apply workers_ok_delete.
  - split; [exact H|]. by apply (workers_ok_moved s); [| |left].
Qed.

(** X14.  The totals of a run are what its ledger entries add up to.  After every
    history of requests and worker turns on an empty store, each of the four
    totals of every run row is the sum of that column over the cost entries of
    the run, and every cost entry belongs to a stored run.  A call is billed
    by one ledger entry and one increment of the same amounts, the planner's
    and the executor's alike; nothing else writes a total or the ledger. *)
Theorem run_totals_equal_ledger_sums (history : list Action) :
  let w := sys_world (system_after settings history) in
  (∀ run_id r, runs w !! run_id = Some r →
     total_prompt_tokens r = ledger_sum cost_prompt_tokens run_id w
     ∧ total_completion_tokens r = ledger_sum cost_completion_tokens run_id w
     ∧ total_tokens r = ledger_sum cost_total_tokens run_id w
     ∧ total_usd r = ledger_sum cost_usd run_id w)
  ∧ (∀ c, c ∈ cost_ledger w → is_Some (runs w !! cost_run_id c)).
Proof.
  intros w. subst w.
  assert (ledger_ok (sys_world (system_after settings history))
          ∧ workers_ok (system_after settings history)) as [(Hb & Hc & _) _];
    [|by split].
  unfold system_after. induction history as [|a history IH] using rev_ind.
  - split; [split; [|split]|]; cbn [foldl empty_system sys_world sys_tasks].
    + intros id r Hr. cbn in Hr. by rewrite lookup_empty in Hr.
    + intros c Hc. cbn in Hc. by apply elem_of_nil in Hc.
    + intros id [r Hr]. cbn in Hr. by rewrite lookup_empty in Hr.
    + intros id t Ht. cbn in Ht. by rewrite lookup_empty in Ht.
  - rewrite foldl_app. cbn [foldl]. by apply system_ok_perform.
Qed.

End ledger_system.

(** ** Nothing leaves the store *)

Create HintDb grows.

Section grows_facts.

Context (settings : Settings).

Implicit Types (w : World) (s : System).

Lemma grows_refl w : grows w w.
Proof.
  split; [|split; [|split; [|split; [|split]]]]; try done.
  - exists []. rewrite app_nil_r. split; [done|]. split; constructor.
  - intros id r Hr. by exists r.
Qed.

Lemma strongly_sorted_app_between (l1 l2 : list Event) (t : Z) :
  StronglySorted created_le l1 → StronglySorted created_le l2 →
  Forall (λ e, ev_created_at e ≤ t) l1 → Forall (λ e, t ≤ ev_created_at e) l2 →
  StronglySorted created_le (l1 ++ l2).
Proof.
  intros H1 H2 Hb1 Hb2. induction H1 as [|x l1 Hs IH Hx]; [done|].
  cbn. apply Forall_cons in Hb1 as [Hxt Hb1]. constructor; [by apply IH|].
  apply Forall_app. split; [done|].
  eapply Forall_impl; [exact Hb2|]. intros e He. unfold created_le. cbn in *. lia.
Qed.

Lemma grows_trans w1 w2 w3 : grows w1 w2 → grows w2 w3 → grows w1 w3.
Proof.
  intros ((l1 & He1 & Hb1 & Hs1) & Hl1 & Hr1 & Hst1 & Ht1 & Hn1)
         ((l2 & He2 & Hb2 & Hs2) & Hl2 & Hr2 & Hst2 & Ht2 & Hn2).
  split; [|split; [|split; [|split; [|split]]]].
  - exists (l1 ++ l2). rewrite He2, He1, app_assoc. split; [done|]. split.
    + apply Forall_app. split.
      * eapply Forall_impl; [exact Hb1|]. cbn. intros e ?. lia.
      * eapply Forall_impl; [exact Hb2|]. cbn. intros e ?. lia.
    + apply (strongly_sorted_app_between l1 l2 (now w2)); try done.
      * eapply Forall_impl; [exact Hb1|]. cbn. intros e ?. lia.
      * eapply Forall_impl; [exact Hb2|]. cbn. intros e ?. lia.
  - by etrans.
  - intros id r Hr. destruct (Hr1 id r Hr) as (r' & Hr' & A1 & A2 & A3 & A4 & A5).
    destruct (Hr2 id r' Hr') as (r'' & Hr'' & B1 & B2 & B3 & B4 & B5).
    exists r''. split; [done|]. repeat split; congruence.
  - intros k Hk. by apply Hst2, Hst1.
  - intros k Hk. by apply Ht2, Ht1.
  - lia.
Qed.

(** An operation that leaves events, ledger and clock alone. *)
Lemma grows_rows w0 w w' :
  events w' = events w → cost_ledger w' = cost_ledger w → now w' = now w →
  (∀ id r, runs w !! id = Some r →
     ∃ r', runs w' !! id = Some r'
           ∧ run_task r' = run_task r
           ∧ run_template_id r' = run_template_id r
           ∧ run_constraints r' = run_constraints r
           ∧ run_created_at r' = run_created_at r
           ∧ run_metadata r' = run_metadata r) →
  (∀ k, is_Some (steps w !! k) → is_Some (steps w' !! k)) →
  (∀ id, is_Some (templates w !! id) → is_Some (templates w' !! id)) →
  grows w0 w → grows w0 w'.
Proof.
  intros He Hl Hn Hr Hs Ht H. apply (grows_trans w0 w w'); [done|].
  split; [|split; [|split; [|split; [|split]]]]; try done.
  - exists []. rewrite app_nil_r. split; [done|]. split; constructor.
  - by rewrite Hl.
  - lia.
Qed.

Lemma grows_alter_run w0 (f : Run → Run) run_id w :
  (∀ r, run_task (f r) = run_task r ∧ run_template_id (f r) = run_template_id r
        ∧ run_constraints (f r) = run_constraints r
        ∧ run_created_at (f r) = run_created_at r
        ∧ run_metadata (f r) = run_metadata r) →
  grows w0 w → grows w0 (set_runs (alter f run_id (runs w)) w).
Proof.
  intros Hf. apply grows_rows; try done.
  intros id r Hr. cbn. rewrite lookup_alter. case_decide as Heq.
  - subst id. rewrite Hr. cbn. eexists. split; [done|]. apply Hf.
  - by exists r.
Qed.

Lemma grows_update_run w0 run_id fields w :
  grows w0 w → grows w0 (Repository.update_run run_id fields w).
Proof. by apply grows_alter_run. Qed.

Lemma grows_increment w0 run_id p c t usd w :
  grows w0 w → grows w0 (Repository.increment_run_totals run_id p c t usd w).
Proof. by apply grows_alter_run. Qed.

Lemma grows_append_diagnostic w0 run_id d w :
  grows w0 w → grows w0 (Repository.append_run_diagnostic run_id d w).
Proof.
  intros H. unfold Repository.append_run_diagnostic.
  destruct (Repository.get_run run_id w); [|done]. by apply grows_update_run.
Qed.

Lemma grows_upsert_step w0 p w :
  grows w0 w → grows w0 (Repository.upsert_step p w).
Proof.
  apply grows_rows; unfold Repository.upsert_step;
    destruct (decide (step_id p = "")); cbn; try done;
    try (intros id r Hr; by exists r);
    intros k Hk;
    (destruct (decide ((step_run_id p, step_node_id p) = k)) as [<-|Hne];
     [by rewrite lookup_insert_eq | by rewrite lookup_insert_ne]).
Qed.

Lemma grows_reset w0 (f : string * string → StepRow → StepRow) w :
  grows w0 w → grows w0 (set_steps (map_imap (λ k r, Some (f k r)) (steps w)) w).
Proof.
  apply grows_rows; try done.
  - intros id r Hr. by exists r.
  - intros k [r Hk]. cbn. rewrite map_lookup_imap, Hk. by eexists.
Qed.

Lemma grows_emit w0 run_id step event_type payload w :
  grows w0 w → grows w0 (_emit_event run_id step event_type payload w).
Proof.
  intros H. eapply grows_trans; [exact H|].
  split; [|split; [|split; [|split; [|split]]]]; try done.
  - eexists [_]. split; [reflexivity|]. split.
    + constructor; [|done]. cbn. lia.
    + repeat constructor.
  - intros id r Hr. by exists r.
Qed.

Lemma grows_create_cost_entry w0 run_id step app provider model p c t usd md w :
  grows w0 w →
  grows w0 (Repository.create_cost_entry run_id step app provider model p c t usd md w).
Proof.
  intros H. eapply grows_trans; [exact H|].
  split; [|split; [|split; [|split; [|split]]]]; try done.
  - exists []. rewrite app_nil_r. split; [done|]. split; constructor.
  - by eexists.
  - intros id r Hr. by exists r.
Qed.

Lemma grows_advance w0 ms w : grows w0 w → grows w0 (advance ms w).
Proof.
  intros H. eapply grows_trans; [exact H|].
  split; [|split; [|split; [|split; [|split]]]]; try done.
  - exists []. rewrite app_nil_r. split; [done|]. split; constructor.
  - intros id r Hr. by exists r.
  - cbn. lia.
Qed.

Lemma grows_count_llm_call w0 w : grows w0 w → grows w0 (count_llm_call w).
Proof. apply grows_rows; try done. intros id r Hr. by exists r. Qed.

Lemma grows_uuid4 w0 w : grows w0 w → grows w0 (uuid4 w).2.
Proof. apply grows_rows; try done. intros id r Hr. by exists r. Qed.

Lemma grows_create_run w0 run_id task template_id constraints metadata w :
  grows w0 w →
  grows w0 (Repository.create_run run_id task template_id constraints metadata w).
Proof.
  unfold Repository.create_run. destruct (runs w !! run_id) eqn:Hrun; [done|].
  apply grows_rows; try done.
  intros id r Hr. cbn. destruct (decide (run_id = id)) as [<-|Hne].
  - by rewrite Hrun in Hr.
  - rewrite lookup_insert_ne by done. by exists r.
Qed.

Lemma grows_upsert_workflow_template w0 id payload w :
  grows w0 w → grows w0 (Repository.upsert_workflow_template id payload w).
Proof.
  apply grows_rows; try done.
  - intros i r Hr. by exists r.
  - intros i Hi. cbn. destruct (decide (id = i)) as [<-|Hne];
      [by rewrite lookup_insert_eq | by rewrite lookup_insert_ne].
Qed.

#[local] Hint Resolve grows_update_run grows_increment grows_append_diagnostic
  grows_upsert_step grows_reset grows_emit grows_create_cost_entry grows_advance
  grows_count_llm_call grows_uuid4 grows_create_run : grows.

Lemma grows_prepare w0 state request_id node w :
  grows w0 w → grows w0 (ExecutorService.prepare state request_id node w).2.
Proof.
  intros H. unfold ExecutorService.prepare. destruct node as [i n].
  destruct (Repository.get_step_by_node _ _ _); cbn [snd fst uuid4];
    auto 10 with grows.
Qed.

Lemma grows_attempt w0 provider state contract nid w :
  grows w0 w →
  grows w0 (ExecutorService.attempt settings provider state contract nid w).2.
Proof.
  intros H. unfold ExecutorService.attempt. case_bool_decide; [done|].
  destruct (provider _ _); case_bool_decide; cbn [snd]; auto with grows.
  destruct (validate_output_with_contract _) as [[[] []] ?]; cbn [snd];
    auto with grows.
Qed.

Lemma grows_complete w0 state request_id p model resp out w :
  grows w0 w →
  grows w0 (ExecutorService.complete settings state request_id p model resp out w).2.
Proof.
  intros H. unfold ExecutorService.complete. destruct (pr_node p) as [i n].
  cbn [snd]. auto 10 with grows.
Qed.

Lemma grows_handle_step_error w0 state step node attempts max_retries started_at
    error w :
  grows w0 w →
  grows w0 (ExecutorService._handle_step_error state step node attempts max_retries
              started_at error w).2.
Proof.
  intros H. unfold ExecutorService._handle_step_error. destruct node as [i n].
  case_bool_decide; cbn [snd]; auto 10 with grows.
Qed.

Lemma grows_execute_next w0 provider state request_id w :
  grows w0 w →
  grows w0 (ExecutorService.execute_next settings provider state request_id w).2.
Proof.
  intros H. unfold ExecutorService.execute_next.
  destruct (ExecutorService._next_runnable_node _) as [node|]; [|done].
  pose proof (grows_prepare w0 state request_id node w H) as H1.
  destruct (ExecutorService.prepare _ _ _ _) as [[p st1] w1]. cbn in H1.
  pose proof (grows_attempt w0 provider st1 (pr_contract p)
                (node_id (pr_node p).2) w1 H1) as H2.
  destruct (ExecutorService.attempt _ _ _ _ _ _) as [[[[model resp] out]|err] w2];
    cbn in H2.
  - by apply grows_complete.
  - by apply grows_handle_step_error.
Qed.

Lemma grows_plan w0 provider run_id run request_id w :
  grows w0 w →
  grows w0 (PlannerService.plan settings provider run_id run request_id w).2.
Proof.
  intros H. unfold PlannerService.plan. case_bool_decide; [done|].
  match goal with
  | |- context [match ?t with Some _ => _ | None => _ end] =>
      destruct t as [tpl|]; [|by apply grows_emit]
  end.
  destruct (provider _ _) as [resp ms|msg ms]; cbn [snd]; auto 10 with grows.
Qed.

Lemma grows_reflect w0 state w :
  grows w0 w → grows w0 (ReflectionService.reflect state w).2.
Proof.
  intros H. unfold ReflectionService.reflect.
  destruct (st_reflection_needed state); [|done]. cbn [negb].
  destruct (ReflectionService._decide_action _); cbn [snd];
    auto 6 with grows.
Qed.

Lemma grows_cancel_step w0 w step :
  grows w0 w → grows w0 (TaskflowOrchestrator.cancel_step w step).
Proof.
  intros H. unfold TaskflowOrchestrator.cancel_step.
  destruct (negb _); [done|]. by apply grows_upsert_step.
Qed.

Lemma grows_finish w0 state w :
  grows w0 w → grows w0 (TaskflowOrchestrator._finish_node state w).2.
Proof.
  intros H. unfold TaskflowOrchestrator._finish_node.
  case_decide; cbn [snd TaskflowOrchestrator._mark_open_steps_canceled];
    [|by auto with grows].
  apply grows_emit, grows_update_run.
  match goal with |- context [foldl _ w ?l] => generalize l end. intros l.
  revert w H. induction l as [|x l IH]; intros w H; [exact H|].
  cbn [foldl]. apply IH. by apply grows_cancel_step.
Qed.

Lemma grows_graph_step w0 provider current state w :
  grows w0 w →
  grows w0 (TaskflowOrchestrator.graph_step settings provider current state w).2.
Proof.
  intros H. destruct current; cbn [TaskflowOrchestrator.graph_step]; [| | | | |done].
  - unfold TaskflowOrchestrator._plan_node.
    destruct (Repository.get_run _ _) as [run|]; [|done].
    pose proof (grows_plan w0 provider (st_run_id state) run (st_request_id state) w H).
    by destruct (PlannerService.plan _ _ _ _ _ _) as [[dag|msg] w1].
  - unfold TaskflowOrchestrator._execute_step_node.
    pose proof (grows_execute_next w0 provider state (st_request_id state) w H).
    by destruct (ExecutorService.execute_next _ _ _ _ _).
  - unfold TaskflowOrchestrator._monitor_node.
    destruct (MonitorService.evaluate state w); [by apply grows_update_run | done].
  - unfold TaskflowOrchestrator._reflect_node.
    pose proof (grows_reflect w0 state w H).
    destruct (ReflectionService.reflect state w). by apply grows_update_run.
  - pose proof (grows_finish w0 state w H).
    by destruct (TaskflowOrchestrator._finish_node state w).
Qed.

Lemma grows_run_loop_begin w0 run_id request_id w :
  grows w0 w →
  grows w0 (TaskflowOrchestrator._run_loop_begin settings run_id request_id w).2.
Proof.
  intros H. unfold TaskflowOrchestrator._run_loop_begin.
  destruct (Repository.get_run _ _); [|done]. case_bool_decide; [done|].
  by apply grows_emit, grows_update_run.
Qed.

Lemma grows_run_loop_except w0 run_id message w :
  grows w0 w → grows w0 (TaskflowOrchestrator._run_loop_except run_id message w).
Proof. intros H. by apply grows_emit, grows_update_run. Qed.

Lemma grows_retry_run w0 run_id step request_id w :
  grows w0 w →
  grows w0 (TaskflowOrchestrator.retry_run run_id step request_id w).2.
Proof.
  intros H. unfold TaskflowOrchestrator.retry_run.
  destruct (Repository.get_run _ _) as [run|]; [|done].
  destruct step as [sid|]; [case_decide|]; cbn [snd Repository.reset_failed_steps];
    try (by apply grows_emit, grows_update_run, grows_reset).
  cbn [Repository.reset_step]. case_bool_decide; [|done].
  by apply grows_emit, grows_update_run, grows_reset.
Qed.

Lemma grows_perform s a : grows (sys_world s) (sys_world (perform settings s a)).
Proof.
  pose proof (grows_refl (sys_world s)) as H.
  destruct a as [task tid cs rid|run_id rid|run_id step rid|id tpl
                |run_id provider|ms]; cbn [perform].
  - unfold RunsRouter.create_run. destruct (_ : bool); [done|].
    cbn [uuid4]. rewrite totals_ok_start_run. cbn [sys_world].
    apply grows_emit, grows_create_run. by apply (grows_uuid4 _ (sys_world s)).
  - unfold RunsRouter.cancel_run. destruct (Repository.get_run _ _); [|done].
    cbn [default from_option id sys_world]. apply grows_emit.
    by apply (grows_update_run _ run_id _ (sys_world s)).
  - unfold RunsRouter.retry_run, Workers.retry_run.
    destruct (Repository.get_run _ _); [|done].
    pose proof (grows_retry_run (sys_world s) run_id step rid (sys_world s) H) as Hr.
    destruct (TaskflowOrchestrator.retry_run _ _ _ _) as [[] w1]; [|done].
    cbn [default from_option id]. by rewrite totals_ok_start_run.
  - by apply grows_upsert_workflow_template.
  - unfold Workers.turn. destruct (sys_tasks s !! run_id) as [[rid|current state]|];
      [| |done].
    + pose proof (grows_run_loop_begin (sys_world s) run_id rid (sys_world s) H) as Hb.
      by destruct (TaskflowOrchestrator._run_loop_begin _ _ _ _) as [[st|] w1].
    + pose proof (grows_graph_step (sys_world s) provider current state (sys_world s) H)
        as Hg.
      destruct current; try done;
        destruct (TaskflowOrchestrator.graph_step _ _ _ _ _) as [[[next st]|msg] w1];
        cbn in *; try done; by apply grows_run_loop_except.
  - by apply grows_advance.
Qed.

Lemma grows_history (history more : list Action) :
  grows (sys_world (system_after settings history))
        (sys_world (system_after settings (history ++ more))).
Proof.
  unfold system_after. induction more as [|a more IH] using rev_ind.
  - rewrite app_nil_r. apply grows_refl.
  - rewrite app_assoc, foldl_app. cbn [foldl].
    eapply grows_trans; [exact IH|]. apply grows_perform.
Qed.

(** X15.  Nothing leaves the store.  Whatever requests and worker turns follow a
    history, the events and the cost entries stored after the history keep
    their places at the head of their tables; every run stored then is still
    stored, with the task, the template id, the constraints, the creation
    date and the metadata it was created with; every step row and every
    template stored then still has a row; and the clock has not gone back. *)
Theorem store_only_grows (history more : list Action) :
  let w := sys_world (system_after settings history) in
  let w' := sys_world (system_after settings (history ++ more)) in
  events w `prefix_of` events w'
  ∧ cost_ledger w `prefix_of` cost_ledger w'
  ∧ (∀ id r, runs w !! id = Some r →
       ∃ r', runs w' !! id = Some r'
             ∧ run_task r' = run_task r
             ∧ run_template_id r' = run_template_id r
             ∧ run_constraints r' = run_constraints r
             ∧ run_created_at r' = run_created_at r
             ∧ run_metadata r' = run_metadata r)
  ∧ (∀ k, is_Some (steps w !! k) → is_Some (steps w' !! k))
  ∧ (∀ id, is_Some (templates w !! id) → is_Some (templates w' !! id))
  ∧ now w ≤ now w'.
Proof.
  intros w w'. destruct (grows_history history more)
    as ((l & He & _) & Hl & Hr & Hs & Ht & Hn).
  split; [by exists l|]. done.
Qed.

End grows_facts.

(** ** Who writes the status of a run *)

Create HintDb kept.

Section status_facts.

Context (settings : Settings) (provider : LLMProvider) (w0 : World).

Implicit Types (w : World).

Lemma kept_same_runs w w' :
  runs w' = runs w → run_status_kept w0 w → run_status_kept w0 w'.
Proof. intros Heq H id run Hr. rewrite Heq. by apply H. Qed.

Lemma kept_alter (f : Run → Run) run_id w :
  (∀ r, run_status (f r) = run_status r
        ∧ cancel_requested (f r) = cancel_requested r
        ∧ run_started_at (f r) = run_started_at r
        ∧ run_ended_at (f r) = run_ended_at r) →
  run_status_kept w0 w → run_status_kept w0 (set_runs (alter f run_id (runs w)) w).
Proof.
  intros Hf H id run Hr. destruct (H id run Hr) as (r1 & Hr1 & A1 & A2 & A3 & A4).
  cbn. rewrite lookup_alter. case_decide as Heq.
  - subst id. rewrite Hr1. cbn. eexists. split; [done|].
    destruct (Hf r1) as (B1 & B2 & B3 & B4). repeat split; congruence.
  - by exists r1.
Qed.

Lemma kept_update_dag run_id dag w :
  run_status_kept w0 w →
  run_status_kept w0 (Repository.update_run run_id (patch_dag dag) w).
Proof. by apply kept_alter. Qed.

Lemma kept_increment run_id p c t usd w :
  run_status_kept w0 w →
  run_status_kept w0 (Repository.increment_run_totals run_id p c t usd w).
Proof. by apply kept_alter. Qed.

Lemma kept_append_diagnostic run_id d w :
  run_status_kept w0 w →
  run_status_kept w0 (Repository.append_run_diagnostic run_id d w).
Proof.
  intros H. unfold Repository.append_run_diagnostic.
  destruct (Repository.get_run run_id w); [|done]. by apply kept_alter.
Qed.

Lemma kept_upsert_step p w :
  run_status_kept w0 w → run_status_kept w0 (Repository.upsert_step p w).
Proof. apply kept_same_runs. apply upsert_step_other. Qed.

Lemma kept_emit run_id step event_type payload w :
  run_status_kept w0 w →
  run_status_kept w0 (_emit_event run_id step event_type payload w).
Proof. by apply kept_same_runs. Qed.

Lemma kept_create_cost_entry run_id step app prov model p c t usd md w :
  run_status_kept w0 w →
  run_status_kept w0
    (Repository.create_cost_entry run_id step app prov model p c t usd md w).
Proof. by apply kept_same_runs. Qed.

Lemma kept_advance ms w : run_status_kept w0 w → run_status_kept w0 (advance ms w).
Proof. by apply kept_same_runs. Qed.

Lemma kept_count_llm_call w :
  run_status_kept w0 w → run_status_kept w0 (count_llm_call w).
Proof. by apply kept_same_runs. Qed.

Lemma kept_uuid4 w : run_status_kept w0 w → run_status_kept w0 (uuid4 w).2.
Proof. by apply kept_same_runs. Qed.

#[local] Hint Resolve kept_update_dag kept_increment kept_append_diagnostic
  kept_upsert_step kept_emit kept_create_cost_entry kept_advance
  kept_count_llm_call kept_uuid4 : kept.

Lemma kept_prepare state request_id node w :
  run_status_kept w0 w →
  run_status_kept w0 (ExecutorService.prepare state request_id node w).2.
Proof.
  intros H. unfold ExecutorService.prepare. destruct node as [i n].
  destruct (Repository.get_step_by_node _ _ _); cbn [snd fst uuid4];
    auto 10 with kept.
Qed.

Lemma kept_attempt state contract nid w :
  run_status_kept w0 w →
  run_status_kept w0 (ExecutorService.attempt settings provider state contract nid w).2.
Proof.
  intros H. unfold ExecutorService.attempt. case_bool_decide; [done|].
  destruct (provider _ _); case_bool_decide; cbn [snd]; auto with kept.
  destruct (validate_output_with_contract _) as [[[] []] ?]; cbn [snd];
    auto with kept.
Qed.

Lemma kept_complete state request_id p model resp out w :
  run_status_kept w0 w →
  run_status_kept w0
    (ExecutorService.complete settings state request_id p model resp out w).2.
Proof.
  intros H. unfold ExecutorService.complete. destruct (pr_node p) as [i n].
  cbn [snd]. auto 10 with kept.
Qed.

Lemma kept_handle_step_error state step node attempts max_retries started_at error w :
  run_status_kept w0 w →
  run_status_kept w0
    (ExecutorService._handle_step_error state step node attempts max_retries
       started_at error w).2.
Proof.
  intros H. unfold ExecutorService._handle_step_error. destruct node as [i n].
  case_bool_decide; cbn [snd]; auto 10 with kept.
Qed.

Lemma kept_execute_next state request_id w :
  run_status_kept w0 w →
  run_status_kept w0
    (ExecutorService.execute_next settings provider state request_id w).2.
Proof.
  intros H. unfold ExecutorService.execute_next.
  destruct (ExecutorService._next_runnable_node _) as [node|]; [|done].
  pose proof (kept_prepare state request_id node w H) as H1.
  destruct (ExecutorService.prepare _ _ _ _) as [[p st1] w1]. cbn in H1.
  pose proof (kept_attempt st1 (pr_contract p) (node_id (pr_node p).2) w1 H1) as H2.
  destruct (ExecutorService.attempt _ _ _ _ _ _) as [[[[model resp] out]|err] w2];
    cbn in H2.
  - by apply kept_complete.
  - by apply kept_handle_step_error.
Qed.

Lemma kept_plan run_id run request_id w :
  run_status_kept w0 w →
  run_status_kept w0
    (PlannerService.plan settings provider run_id run request_id w).2.
Proof.
  intros H. unfold PlannerService.plan. case_bool_decide; [done|].
  match goal with
  | |- context [match ?t with Some _ => _ | None => _ end] =>
      destruct t as [tpl|]; [|by apply kept_emit]
  end.
  destruct (provider _ _) as [resp ms|msg ms]; cbn [snd]; auto 10 with kept.
Qed.

Lemma kept_reflect state w :
  run_status_kept w0 w → run_status_kept w0 (ReflectionService.reflect state w).2.
Proof.
  intros H. unfold ReflectionService.reflect.
  destruct (st_reflection_needed state); [|done]. cbn [negb].
  destruct (ReflectionService._decide_action _); cbn [snd];
    auto 6 with kept.
Qed.

Lemma kept_graph_step current state w :
  current ≠ finish →
  run_status_kept w0 w →
  run_status_kept w0
    (TaskflowOrchestrator.graph_step settings provider current state w).2.
Proof.
  intros Hcur H.
  destruct current; cbn [TaskflowOrchestrator.graph_step]; [| | | |done|done].
  - unfold TaskflowOrchestrator._plan_node.
    destruct (Repository.get_run _ _) as [run|]; [|done].
    pose proof (kept_plan (st_run_id state) run (st_request_id state) w H).
    by destruct (PlannerService.plan _ _ _ _ _ _) as [[dag|msg] w1].
  - unfold TaskflowOrchestrator._execute_step_node.
    pose proof (kept_execute_next state (st_request_id state) w H).
    by destruct (ExecutorService.execute_next _ _ _ _ _).
  - unfold TaskflowOrchestrator._monitor_node.
    destruct (MonitorService.evaluate state w); [by apply kept_update_dag | done].
  - unfold TaskflowOrchestrator._reflect_node.
    pose proof (kept_reflect state w H).
    destruct (ReflectionService.reflect state w). by apply kept_update_dag.
Qed.

End status_facts.

Section cancel_facts.

Context (settings : Settings) (provider : LLMProvider).

Implicit Types (w : World).

Lemma kept_refl w : run_status_kept w w.
Proof. intros id run Hr. by exists run. Qed.

(** X17.  Only the finish node ends a run.  A pass of the loop of a worker through
    the plan, execute, monitor or reflect node leaves the status, the cancel
    flag, the start and the end of every run row as they are, whatever the
    provider does and whether or not the node raises. *)
Theorem only_the_finish_node_ends_a_run
    (current : GraphNode) (state : State) (w : World) (id : string) (run : Run) :
  let res := TaskflowOrchestrator.graph_step settings provider current state w in
  current ≠ finish →
  runs w !! id = Some run →
  ∃ run', runs res.2 !! id = Some run'
          ∧ run_status run' = run_status run
          ∧ cancel_requested run' = cancel_requested run
          ∧ run_started_at run' = run_started_at run
          ∧ run_ended_at run' = run_ended_at run.
Proof.
  intros res Hcur Hrun.
  by apply (kept_graph_step settings provider w current state w Hcur (kept_refl w)).
Qed.

Lemma cancel_steps_runs l w :
  runs (foldl TaskflowOrchestrator.cancel_step w l) = runs w
  ∧ events (foldl TaskflowOrchestrator.cancel_step w l) = events w
  ∧ now (foldl TaskflowOrchestrator.cancel_step w l) = now w.
Proof.
  revert w. induction l as [|s l IH]; intros w; [done|].
  cbn [foldl]. destruct (IH (TaskflowOrchestrator.cancel_step w s)) as (-> & -> & ->).
  unfold TaskflowOrchestrator.cancel_step. destruct (negb _); [done|].
  match goal with
  | |- context [Repository.upsert_step ?p w] =>
      destruct (upsert_step_other p w) as (-> & -> & _ & ->)
  end.
  done.
Qed.

(** The monitor on a run whose cancel flag is set. *)
Lemma evaluate_cancel state w run :
  runs w !! st_run_id state = Some run → cancel_requested run = true →
  MonitorService.evaluate state w = Ok (set_finish CANCELED "cancel_requested" state).
Proof.
  intros Hrun Hc. unfold MonitorService.evaluate, Repository.get_run.
  by rewrite Hrun, Hc.
Qed.

(** The finish node of a run that ends canceled. *)
Lemma finish_canceled state w run :
  let res := TaskflowOrchestrator._finish_node state w in
  st_finish_status state = Some CANCELED →
  runs w !! st_run_id state = Some run →
  (∃ run', runs res.2 !! st_run_id state = Some run'
     ∧ run_status run' = CANCELED
     ∧ cancel_requested run' = false
     ∧ run_ended_at run' = Some (now res.2)
     ∧ ∀ n, n ∈ dag_nodes (run_dag run') →
            TaskflowOrchestrator.is_open (node_status n) = false)
  ∧ (∀ node r, steps res.2 !! (st_run_id state, node) = Some r →
               terminal (row_status r))
  ∧ (∃ e, last (events res.2) = Some e
          ∧ ev_run_id e = st_run_id state
          ∧ ev_event_type e = "run_finished"
          ∧ ev_payload e
            = PRunFinished CANCELED (py_or (st_finish_reason state) "unknown")).
Proof.
  intros res Hc Hrun. subst res. unfold TaskflowOrchestrator._finish_node.
  rewrite Hc. cbn [get_default]. rewrite decide_True by done.
  cbn [TaskflowOrchestrator._mark_open_steps_canceled st_run_id set_dag st_dag snd].
  destruct (cancel_steps_runs (Repository.list_steps (st_run_id state) w) w)
    as (Hr & He & Hn).
  split; [|split].
  - cbn. rewrite lookup_alter_eq, Hr, Hrun. cbn. eexists. split; [reflexivity|].
    cbn. rewrite Hn. split; [done|]. split; [done|].
    split; [unfold utc_now_iso; by rewrite Hn|].
    intros n Hin. apply list_elem_of_fmap in Hin as (n0 & -> & _).
    destruct (TaskflowOrchestrator.is_open (node_status n0)) eqn:Hopen; [done|].
    exact Hopen.
  - intros node r Hs. cbn in Hs.
    apply cancel_steps_lookup in Hs as [->|[Hs Hl]].
    + unfold terminal. tauto.
    + apply not_open_terminal.
      apply (Hl (_decode_step (st_run_id state, node) r));
        [by apply list_steps_elem | done].
  - eexists. split; [apply last_snoc|]. by repeat split.
Qed.

(** X18.  A cancel request that the monitor reads ends the run as canceled.
    When the cancel flag of the run is set in the store at a pass of the
    worker through the monitor node, the pass does not raise and hands to the
    finish node a state that is to finish as canceled, by [cancel_requested].
    The pass through the finish node with that state, on any store that holds
    the run, whatever was written to it meanwhile, leaves the run row canceled
    with its cancel flag cleared and its end date set, no node of its DAG and
    no step row of the run pending or running, and [run_finished] with the
    status canceled and the reason [cancel_requested] as the last event.  The
    flag has to be set when the monitor reads it: [retry_run] clears it. *)
Theorem cancel_read_by_the_monitor_ends_the_run_canceled
    (state : State) (w : World) (run : Run) :
  runs w !! st_run_id state = Some run →
  cancel_requested run = true →
  ∃ state' w1,
    TaskflowOrchestrator.graph_step settings provider monitor state w
    = (Ok (finish, state'), w1)
    ∧ st_run_id state' = st_run_id state
    ∧ st_finish_status state' = Some CANCELED
    ∧ st_finish_reason state' = Some "cancel_requested"
    ∧ ∀ w' run',
        runs w' !! st_run_id state = Some run' →
        let res := TaskflowOrchestrator.graph_step settings provider finish
                     state' w' in
        (∃ state'', res.1 = Ok (END, state''))
        ∧ (∃ run'', runs res.2 !! st_run_id state = Some run''
             ∧ run_status run'' = CANCELED
             ∧ cancel_requested run'' = false
             ∧ run_ended_at run'' = Some (now res.2)
             ∧ ∀ n, n ∈ dag_nodes (run_dag run'') →
                    TaskflowOrchestrator.is_open (node_status n) = false)
        ∧ (∀ node r, steps res.2 !! (st_run_id state, node) = Some r →
                     terminal (row_status r))
        ∧ (∃ e, last (events res.2) = Some e
                ∧ ev_run_id e = st_run_id state
                ∧ ev_event_type e = "run_finished"
                ∧ ev_payload e = PRunFinished CANCELED "cancel_requested").
Proof.
  intros Hrun Hc.
  exists (set_finish CANCELED "cancel_requested" state),
         (Repository.update_run (st_run_id state) (patch_dag (st_dag state)) w).
  split.
  { cbn [TaskflowOrchestrator.graph_step].
    unfold TaskflowOrchestrator._monitor_node.
    by rewrite (evaluate_cancel state w run Hrun Hc). }
  split; [done|]. split; [done|]. split; [done|].
  intros w' run' Hr' res. subst res.
  set (st2 := set_finish CANCELED "cancel_requested" state).
  pose proof (finish_canceled st2 w' run' eq_refl Hr') as Hfin.
  cbn [TaskflowOrchestrator.graph_step].
  destruct (TaskflowOrchestrator._finish_node st2 w') as [st3 w3].
  cbn [fst snd] in *. destruct Hfin as (H1 & H2 & H3).
  split; [by eexists|]. split; [exact H1|]. split; [exact H2 | exact H3].
Qed.

End cancel_facts.

(** ** The further properties on concrete runs *)

(** A subscriber with an empty buffer that is sent one event of its run. *)
Lemma publish_all_witness :
  let b := broker_after [OpSubscribe Scenario.run] in
  queue_of b Scenario.run 0 = Some (Queue.make 256)
  ∧ ∃ q', queue_of (publish_all [sample_event] b) Scenario.run 0 = Some q'
          ∧ Queue.items q' = [sample_event].
Proof.
  cbv zeta.
  assert (queue_of (broker_after [OpSubscribe Scenario.run]) Scenario.run 0
          = Some (Queue.make 256)) as Hq by (by vm_compute).
  split; [exact Hq|].
  destruct (publish_all_keeps_newest_in_order [OpSubscribe Scenario.run]
              [sample_event] Scenario.run 0 _ Hq) as (q' & H1 & H2).
  exists q'. split; [exact H1|]. rewrite H2. reflexivity.
Defined.

(** A subscriber that joins after one event and is sent two more. *)
Lemma new_subscriber_witness :
  let sub := EventBroker.subscribe Scenario.run
               (broker_after [OpSubscribe Scenario.run; OpPublish sample_event]) in
  (256 ≤ 256)%nat
  ∧ (drain 256 Scenario.run sub.1 (publish_all [sample_event; sample_event] sub.2)).1
    = [sample_event; sample_event].
Proof.
  cbv zeta. assert (256 ≤ 256)%nat as Hf by lia. split; [exact Hf|].
  destruct (new_subscriber_gets_later_events_in_order
              [OpSubscribe Scenario.run; OpPublish sample_event]
              [sample_event; sample_event] Scenario.run 256 Hf) as [H1 _].
  rewrite H1. reflexivity.
Defined.

(** The monitor after the first step of a run with an interval of 0. *)
Lemma evaluate_zero_interval_witness :
  ∃ msg,
    MonitorService.evaluate Cases.zero_interval (Scenario.world_after Cases.created)
    = Raise msg.
Proof.
  destruct (runs (Scenario.world_after Cases.created) !! Scenario.run)
    as [run|] eqn:Hrun; [|vm_compute in Hrun; discriminate Hrun].
  assert (cancel_requested run = false ∧ total_usd run = 0) as [Hc Hu].
  { vm_compute in Hrun. injection Hrun as <-. split; reflexivity. }
  apply (proj2 (proj2 (evaluate_raises_only_for_zero_interval Cases.zero_interval
                         (Scenario.world_after Cases.created))) run Hrun Hc).
  - vm_compute. reflexivity.
  - rewrite Hu. reflexivity.
  - vm_compute. reflexivity.
  - split; reflexivity.
  - reflexivity.
Defined.

(** The first step of the chain, answered at once. *)
Lemma execute_next_completes_witness :
  let state := sample_state chain_dag in
  let res := ExecutorService.execute_next default_settings Scenario.answers state
               "req" empty_world in
  ExecutorService._next_runnable_node (st_dag state)
  = Some (0%nat, Scenario.node "a" [])
  ∧ Scenario.answers (llm_calls empty_world) "mock-cheap" = Responds Cases.answer 0
  ∧ 0 < 30 * 1000
  ∧ llm_calls res.2 = 1%nat
  ∧ st_step_counter res.1 = 1
  ∧ (ev_event_type <$> events res.2) = ["step_started"; "step_finished"].
Proof.
  cbv zeta.
  assert (ExecutorService._next_runnable_node (st_dag (sample_state chain_dag))
          = Some (0%nat, Scenario.node "a" [])) as Hnext by (by vm_compute).
  assert (0 < 30 * 1000) as Hms by lia.
  split; [exact Hnext|]. split; [reflexivity|]. split; [exact Hms|].
  destruct (execute_next_completes_the_step default_settings Scenario.answers
              (sample_state chain_dag) "req" 0 (Scenario.node "a" []) empty_world
              Cases.answer 0 Hnext)
    as (_ & _ & _ & _ & _ & Hcalls & Hcount & _ & Hev).
  - apply list_elem_of_singleton. reflexivity.
  - reflexivity.
  - exact Hms.
  - split; [exact Hcalls|]. split; [exact Hcount|]. exact Hev.
Defined.

(** A step whose contract allows no tool. *)
Lemma execute_next_bills_witness :
  let state := sample_state failing_dag in
  let res := ExecutorService.execute_next default_settings Scenario.answers state
               "req" empty_world in
  ExecutorService._next_runnable_node (st_dag state)
  = Some (0%nat, Scenario.node "a" [])
  ∧ ∃ r, steps res.2 !! (Scenario.run, "a") = Some r
         ∧ (row_status r = STEP_COMPLETED
            ∨ ((row_status r = PENDING ∨ row_status r = STEP_FAILED)
               ∧ cost_ledger res.2 = cost_ledger empty_world)).
Proof.
  cbv zeta.
  assert (ExecutorService._next_runnable_node (st_dag (sample_state failing_dag))
          = Some (0%nat, Scenario.node "a" [])) as Hnext by (by vm_compute).
  split; [exact Hnext|].
  destruct (execute_next_bills_only_completed_steps default_settings Scenario.answers
              (sample_state failing_dag) "req" 0 (Scenario.node "a" []) empty_world
              Hnext) as (r & Hr & [Hc|(Hs & _ & _ & _ & Hl & _)]).
  - exists r. split; [exact Hr|]. left. exact Hc.
  - exists r. split; [exact Hr|]. right. split; [exact Hs | exact Hl].
Defined.

(** The second attempt of the step of [Scenario.stopped_by_max_steps]. *)
Lemma execute_next_attempts_witness :
  let state := sample_state failing_dag in
  let w := Scenario.world_after Scenario.stopped_by_max_steps in
  let res := ExecutorService.execute_next default_settings Scenario.answers state
               "req" w in
  ExecutorService._next_runnable_node (st_dag state)
  = Some (0%nat, Scenario.node "a" [])
  ∧ 0 ≤ 2
  ∧ (∀ r0, steps w !! (Scenario.run, "a") = Some r0 → row_attempts r0 ≤ 2)
  ∧ ∃ r, steps res.2 !! (Scenario.run, "a") = Some r
         ∧ row_attempts r ≤ 2 + 1.
Proof.
  cbv zeta.
  assert (ExecutorService._next_runnable_node (st_dag (sample_state failing_dag))
          = Some (0%nat, Scenario.node "a" [])) as Hnext by (by vm_compute).
  assert (0 ≤ 2) as Hmax by lia.
  assert (∀ r0, steps (Scenario.world_after Scenario.stopped_by_max_steps)
                !! (Scenario.run, "a") = Some r0 → row_attempts r0 ≤ 2) as Hrows.
  { intros r0 Hr0. vm_compute in Hr0. injection Hr0 as <-. vm_compute.
    intros H. discriminate H. }
  split; [exact Hnext|]. split; [exact Hmax|]. split; [exact Hrows|].
  destruct (execute_next_keeps_attempts_bound default_settings Scenario.answers
              (sample_state failing_dag) "req" 0 (Scenario.node "a" [])
              (Scenario.world_after Scenario.stopped_by_max_steps)
              Hnext Hmax Hrows) as (r & Hr & _ & _ & Hb & _).
  exists r. split; [exact Hr | exact Hb].
Defined.

(** The plan of a run over the one stored template. *)
Lemma plan_instantiates_witness :
  let w := Scenario.world_after Cases.created in
  ∃ run, runs w !! Scenario.run = Some run
    ∧ dag_nodes (run_dag run) = []
    ∧ head (Repository.list_workflow_templates w) = Some ("t", Scenario.chain_template)
    ∧ ∃ dag, (PlannerService.plan default_settings Scenario.answers Scenario.run run
                "req" w).1 = Ok dag
             ∧ (node_id <$> dag_nodes dag) = ["a"; "b"; "c"; "d"].
Proof.
  cbv zeta.
  destruct (runs (Scenario.world_after Cases.created) !! Scenario.run) as [run|] eqn:Hrun; [|by vm_compute in Hrun].
  assert (dag_nodes (run_dag run) = []) as Hempty
    by (vm_compute in Hrun; by injection Hrun as <-).
  assert (run_template_id run = None) as Htid
    by (vm_compute in Hrun; by injection Hrun as <-).
  clear Hrun.
  assert (head (Repository.list_workflow_templates
                  (Scenario.world_after Cases.created))
          = Some ("t", Scenario.chain_template)) as Hhead by (by vm_compute).
  exists run. split; [reflexivity|]. split; [exact Hempty|]. split; [exact Hhead|].
  destruct (plan_instantiates_the_template default_settings Scenario.answers
              Scenario.run run "req" (Scenario.world_after Cases.created)
              Scenario.chain_template Cases.answer 0 Hempty)
    as ((dag & Hdag & Hnodes & _) & _).
  - right. split.
    + intros tid Ht. rewrite Htid in Ht. discriminate Ht.
    + exists "t". exact Hhead.
  - reflexivity.
  - exists dag. split; [exact Hdag|]. rewrite Hnodes. reflexivity.
Defined.

(** A tick of the executor on the run of [Scenario.stopped_by_max_steps]. *)
Lemma only_the_finish_node_witness :
  let w := Scenario.world_after Scenario.stopped_by_max_steps in
  let res := TaskflowOrchestrator.graph_step default_settings Scenario.answers
               execute_step (sample_state failing_dag) w in
  execute_step ≠ finish
  ∧ ∃ run, runs w !! Scenario.run = Some run
      ∧ ∃ run', runs res.2 !! Scenario.run = Some run'
                ∧ run_status run' = run_status run.
Proof.
  cbv zeta.
  assert (execute_step ≠ finish) as Hcur by (intros H; discriminate H).
  split; [exact Hcur|].
  destruct (runs (Scenario.world_after Scenario.stopped_by_max_steps) !! Scenario.run)
    as [run|] eqn:Hrun; [|by vm_compute in Hrun].
  exists run. split; [reflexivity|].
  destruct (only_the_finish_node_ends_a_run default_settings Scenario.answers
              execute_step (sample_state failing_dag)
              (Scenario.world_after Scenario.stopped_by_max_steps) Scenario.run run
              Hcur Hrun)
    as (run' & Hr' & Hs & _).
  exists run'. split; [exact Hr' | exact Hs].
Defined.

(** A run that is canceled before its worker executes a step: the monitor
    pass on the store after the request, the finish pass on the store after a
    retry request that cleared the flag meanwhile. *)
Lemma cancel_read_by_the_monitor_witness :
  let w := Scenario.world_after Cases.cancel_first in
  let w' := Scenario.world_after
              (Cases.cancel_first ++ [PostRetry Scenario.run None "req-3"]) in
  (∃ run, runs w !! Scenario.run = Some run ∧ cancel_requested run = true)
  ∧ (∃ run', runs w' !! Scenario.run = Some run' ∧ cancel_requested run' = false)
  ∧ ∃ state' w1,
      TaskflowOrchestrator.graph_step default_settings Scenario.answers monitor
        (sample_state failing_dag) w = (Ok (finish, state'), w1)
      ∧ ∃ run'',
          runs (TaskflowOrchestrator.graph_step default_settings Scenario.answers
                  finish state' w').2 !! Scenario.run = Some run''
          ∧ run_status run'' = CANCELED.
Proof.
  cbv zeta.
  destruct (runs (Scenario.world_after Cases.cancel_first) !! Scenario.run)
    as [run|] eqn:Hrun; [|by vm_compute in Hrun].
  assert (cancel_requested run = true) as Hc
    by (vm_compute in Hrun; by injection Hrun as <-).
  split; [by exists run|].
  destruct (runs (Scenario.world_after
                    (Cases.cancel_first ++ [PostRetry Scenario.run None "req-3"]))
            !! Scenario.run) as [run'|] eqn:Hrun'; [|by vm_compute in Hrun'].
  assert (cancel_requested run' = false) as Hc'
    by (vm_compute in Hrun'; by injection Hrun' as <-).
  split; [by exists run'|].
  destruct (cancel_read_by_the_monitor_ends_the_run_canceled default_settings
              Scenario.answers (sample_state failing_dag)
              (Scenario.world_after Cases.cancel_first) run Hrun Hc)
    as (state' & w1 & Hmon & _ & _ & _ & Hfin).
  exists state', w1. split; [exact Hmon|].
  destruct (Hfin (Scenario.world_after
                    (Cases.cancel_first ++ [PostRetry Scenario.run None "req-3"]))
              run' Hrun')
    as (_ & (run'' & Hr'' & Hs & _) & _).
  exists run''. split; [exact Hr'' | exact Hs].
Defined.

(** The retry of the failed step of [Scenario.failed_once] by its id. *)
Lemma retry_run_of_a_step_witness :
  let w := Scenario.world_after Scenario.failed_once in
  let res := TaskflowOrchestrator.retry_run Scenario.run (Some "uuid-6") "req-2" w in
  "uuid-6" ≠ ""
  ∧ (∃ run, runs w !! Scenario.run = Some run)
  ∧ (∃ r, steps w !! (Scenario.run, "a") = Some r
          ∧ row_id r = "uuid-6" ∧ row_attempts r = 2)
  ∧ res.1 = true
  ∧ ∃ r', steps res.2 !! (Scenario.run, "a") = Some r'
          ∧ row_status r' = PENDING ∧ row_attempts r' = 0.
Proof.
  cbv zeta.
  assert ("uuid-6" ≠ "") as Hsid by (intros H; discriminate H).
  split; [exact Hsid|].
  assert (forallb (λ kr : string * string * StepRow,
                     bool_decide (row_id kr.2 = "uuid-6" → kr.1 = (Scenario.run, "a")))
            (map_to_list (steps (Scenario.world_after Scenario.failed_once))) = true)
    as Hall by (vm_compute; reflexivity).
  assert (∀ k r', steps (Scenario.world_after Scenario.failed_once) !! k = Some r' →
                  row_id r' = "uuid-6" → k = (Scenario.run, "a")) as Huniq.
  { intros k r' Hk. apply elem_of_map_to_list in Hk.
    rewrite forallb_forall in Hall. apply list_elem_of_In in Hk.
    apply Hall in Hk. exact (bool_decide_eq_true_1 _ Hk). }
  clear Hall.
  destruct (runs (Scenario.world_after Scenario.failed_once) !! Scenario.run)
    as [run|] eqn:Hrun; [|vm_compute in Hrun; discriminate Hrun].
  split; [exists run; reflexivity|].
  destruct (steps (Scenario.world_after Scenario.failed_once) !! (Scenario.run, "a"))
    as [r|] eqn:Hr; [|vm_compute in Hr; discriminate Hr].
  assert (row_id r = "uuid-6" ∧ row_attempts r = 2) as [Hid Hatt].
  { clear Huniq Hrun. vm_compute in Hr. injection Hr as <-. split; reflexivity. }
  split; [exists r; split; [reflexivity|]; split; [exact Hid | exact Hatt]|].
  destruct (proj1 (retry_run_of_a_step_resets_its_attempts Scenario.run "uuid-6"
                     "req-2" (Scenario.world_after Scenario.failed_once) run
                     Hsid Hrun) "a" r Hr Hid Huniq)
    as (Hok & (r' & Hr' & _ & Hs & Ha & _) & _).
  split; [exact Hok|]. exists r'. split; [exact Hr'|]. split; [exact Hs | exact Ha].
Defined.

(** A run that is started on an empty template store. *)
Lemma planning_error_witness :
  let w := Scenario.world_after Cases.no_template in
  let res := TaskflowOrchestrator._run_loop 1 default_settings Scenario.answers
               Scenario.run "req" w in
  (∃ run, runs w !! Scenario.run = Some run
          ∧ run_status run = CREATED ∧ dag_nodes (run_dag run) = [])
  ∧ templates w = ∅
  ∧ res.1 = true
  ∧ ∃ run', runs res.2 !! Scenario.run = Some run'
            ∧ run_status run' = FAILED
            ∧ run_diagnostics run'
              = [{| diag_reason :=
                      "Unhandled orchestrator error: No workflow template available";
                    diag_failure_mode := "other";
                    diag_action_taken := "terminated" |}].
Proof.
  cbv zeta.
  destruct (runs (Scenario.world_after Cases.no_template) !! Scenario.run) as [run|] eqn:Hrun; [|by vm_compute in Hrun].
  assert (run_status run = CREATED ∧ dag_nodes (run_dag run) = []) as [Hs Hd]
    by (vm_compute in Hrun; by injection Hrun as <-).
  assert (templates (Scenario.world_after Cases.no_template) = ∅) as Ht
    by (by vm_compute).
  split; [exists run; split; [reflexivity|]; split; [exact Hs | exact Hd]|].
  split; [exact Ht|].
  destruct (planning_error_fails_the_run default_settings Scenario.answers 0
              Scenario.run "req" (Scenario.world_after Cases.no_template) run
              "No workflow template available"
              Hrun (or_introl Hs) Hd (or_introl (conj Ht eq_refl)))
    as (Hok & (run' & Hr' & Hst & _ & _ & Hdiag & _) & _).
  split; [exact Hok|]. exists run'. split; [exact Hr'|]. split; [exact Hst | exact Hdiag].
Defined.
